(** * Advanced Python Calculator: command dispatch and plugin loading

    A shallow embedding of the calculator's core
    ([calculator/core/repl.py], [calculator/core/plugin_interface.py],
    [calculator/core/enhanced_repl.py]) and the properties of its plugin
    manager, command registry and dispatch loop.

    Python objects with mutable attributes become records that are passed
    explicitly; a method that may raise returns a [result]; a method that
    both mutates and raises lives in the state-and-exception monad [M].
    A Python [dict] is an insertion-ordered association list ([Dict]),
    because [help], [menu] and [list_commands] iterate over dictionaries.

    Scope. Code that is not the calculator's own (the top-level code of an
    imported module, a plugin's constructor and methods, the [execute] of a
    plugin's command) is represented by its outcome only: the value it
    returns or the exception it raises, of any class, the same at every
    call. What such code does besides (printing, changing [sys.path] or
    an object it can reach) is not represented, so the theorems speak of
    what the calculator's own statements do to the manager, the registry,
    the history and the output. [print] is taken to succeed; [input] and
    [os.listdir] may raise. *)

From Stdlib Require Import String Ascii List Bool Arith ZArith Lia.
From Stdlib Require Import Floats.PrimFloat DecimalString.
From Stdlib Require Uint63.
Import ListNotations.

Local Open Scope list_scope.
Local Open Scope string_scope.

Set Implicit Arguments.

(** ** Python strings

    A [str] is modelled by its sequence of bytes; the case and white-space
    operations below follow Python on the ASCII range and leave every other
    byte as it is. *)

Module Str.

Definition nl : string := String "010"%char EmptyString.

Definition is_upper (c : ascii) : bool :=
  let n := nat_of_ascii c in ((65 <=? n) && (n <=? 90))%nat.

Definition lower_ascii (c : ascii) : ascii :=
  if is_upper c then ascii_of_nat (nat_of_ascii c + 32) else c.

(** [s.lower()] *)
Fixpoint lower (s : string) : string :=
  match s with
  | EmptyString => EmptyString
  | String c s' => String (lower_ascii c) (lower s')
  end.

(** [c.isspace()] on ASCII: tab, line feed, vertical tab, form feed,
    carriage return, the four separators 28..31 and the blank. *)
Definition is_space (c : ascii) : bool :=
  let n := nat_of_ascii c in
  (((9 <=? n) && (n <=? 13)) || ((28 <=? n) && (n <=? 32)))%nat.

Fixpoint rev_onto (s acc : string) : string :=
  match s with
  | EmptyString => acc
  | String c s' => rev_onto s' (String c acc)
  end.

Definition rev (s : string) : string := rev_onto s EmptyString.

Fixpoint lstrip (s : string) : string :=
  match s with
  | EmptyString => EmptyString
  | String c s' => if is_space c then lstrip s' else s
  end.

Definition rstrip (s : string) : string := rev (lstrip (rev s)).

(** [s.strip()] *)
Definition strip (s : string) : string := rstrip (lstrip s).

(** [s.split()]: the maximal runs of non-blank characters, in order.
    [cur] holds the characters of the run being read, last one first. *)
Fixpoint split_from (s cur : string) : list string :=
  match s with
  | EmptyString =>
      match cur with EmptyString => [] | _ => [rev cur] end
  | String c s' =>
      if is_space c then
        match cur with
        | EmptyString => split_from s' EmptyString
        | _ => rev cur :: split_from s' EmptyString
        end
      else split_from s' (String c cur)
  end.

Definition split (s : string) : list string := split_from s EmptyString.

(** [s.endswith(suffix)] *)
Definition endswith (s suffix : string) : bool :=
  let n := String.length s in
  let m := String.length suffix in
  (m <=? n)%nat && String.eqb (substring (n - m) m s) suffix.

(** [s[:-k]] *)
Definition drop_last (k : nat) (s : string) : string :=
  substring 0 (String.length s - k) s.

(** [sep.join(parts)] *)
Definition join (sep : string) (parts : list string) : string :=
  String.concat sep parts.

(** [s * n] *)
Fixpoint repeat (s : string) (n : nat) : string :=
  match n with
  | O => EmptyString
  | S n' => s ++ repeat s n'
  end.

(** [str(n)] for a non-negative integer. *)
Definition of_nat (n : nat) : string :=
  NilZero.string_of_uint (Nat.to_uint n).

(** [str(z)] for an integer. *)
Definition of_Z (z : Z) : string :=
  NilZero.string_of_int (Z.to_int z).

(** [f"{n:2d}"]: right-aligned in a field of width two. *)
Definition of_nat_2d (n : nat) : string :=
  let s := of_nat n in
  if (String.length s <? 2)%nat then " " ++ s else s.

End Str.

(** ** Python dictionaries with string keys

    Insertion-ordered, one entry per key: assigning to a present key
    replaces the value in place, assigning to an absent key appends. *)

Module Dict.

Section Ops.
Variable V : Type.

Definition t : Type := list (string * V).

Definition empty : t := [].

(** [d.get(k)] *)
Fixpoint get (k : string) (d : t) : option V :=
  match d with
  | [] => None
  | (k', v) :: d' => if String.eqb k k' then Some v else get k d'
  end.

(** [k in d] *)
Definition mem (k : string) (d : t) : bool :=
  match get k d with Some _ => true | None => false end.

(** [d[k] = v] *)
Fixpoint set (k : string) (v : V) (d : t) : t :=
  match d with
  | [] => [(k, v)]
  | (k', v') :: d' =>
      if String.eqb k k' then (k', v) :: d' else (k', v') :: set k v d'
  end.

(** [del d[k]] for a key that is present (an absent key leaves [d]). *)
Fixpoint del (k : string) (d : t) : t :=
  match d with
  | [] => []
  | (k', v') :: d' =>
      if String.eqb k k' then d' else (k', v') :: del k d'
  end.

(** [list(d.keys())], [list(d.values())], [list(d.items())], [len(d)] *)
Definition keys (d : t) : list string := map fst d.
Definition values (d : t) : list V := map snd d.
Definition items (d : t) : list (string * V) := d.
Definition len (d : t) : nat := List.length d.

(** The representation invariant: no key occurs twice. *)
Definition wf (d : t) : Prop := NoDup (keys d).
End Ops.

Arguments empty {V}.

End Dict.

(** ** Exceptions and results

    [exn_class] names the nearest modelled ancestor of the class of a raised
    exception. The classes down to [OtherException] derive from Python's
    [Exception], the class the [except Exception] clauses of the manager
    and of [main] guard; [KeyboardInterrupt], [SystemExit] and
    [OtherBaseException] derive from [BaseException] only and pass those
    clauses. *)

Inductive exn_class : Type :=
| ValueError
| ZeroDivisionError
| OverflowError
| ImportError
| RuntimeError
| TypeError
| KeyError
| IndexError
| EOFError
| OSError
| OtherException
| KeyboardInterrupt
| SystemExit
| OtherBaseException.

Record exn : Type := Exn { exn_cls : exn_class; exn_msg : string }.

(** [isinstance(e, Exception)] *)
Definition is_Exception (e : exn) : bool :=
  match exn_cls e with
  | KeyboardInterrupt | SystemExit | OtherBaseException => false
  | _ => true
  end.

Definition is_KeyboardInterrupt (e : exn) : bool :=
  match exn_cls e with KeyboardInterrupt => true | _ => false end.

Definition is_ValueError (e : exn) : bool :=
  match exn_cls e with ValueError => true | _ => false end.

Definition is_ZeroDivisionError (e : exn) : bool :=
  match exn_cls e with ZeroDivisionError => true | _ => false end.

Definition is_EOFError (e : exn) : bool :=
  match exn_cls e with EOFError => true | _ => false end.

(** The outcome of a call: it returns a value or raises. *)
Inductive result (A : Type) : Type :=
| Return (a : A)
| Raise (e : exn).

Arguments Return {A} a.
Arguments Raise {A} e.

Definition result_bind {A B : Type} (r : result A) (k : A -> result B)
  : result B :=
  match r with
  | Return a => k a
  | Raise e => Raise e
  end.

(** [[f(x) for x in l]] where [f] may raise. *)
Fixpoint result_map {A B : Type} (f : A -> result B) (l : list A)
  : result (list B) :=
  match l with
  | [] => Return []
  | x :: l' =>
      result_bind (f x) (fun y =>
      result_bind (result_map f l') (fun ys => Return (y :: ys)))
  end.

(** ** Values, commands and plugins *)

(** What [Command.execute] may hand back: a number, a string (the string
    [EXIT] is the terminate sentinel) or [None]. *)
Inductive value : Type :=
| VFloat (x : float)
| VInt (z : Z)
| VStr (s : string)
| VNone.

(** The three abstract methods of [Command], for a class the core does not
    define itself (a plugin's command). *)
Record CommandMethods : Type := {
  m_execute : list string -> result value;
  m_get_help : result string;
  m_get_name : result string
}.

(** The instances of [Command]. [HelpCommand] and [MenuCommand] hold
    references to the registry and the plugin manager; what they read
    through them is passed to [execute] when they run. *)
Inductive Command : Type :=
| ArithmeticCommand (operation : string) (func : float -> float -> result float)
| HelpCommand
| ExitCommand
| MenuCommand
| OtherCommand (methods : CommandMethods).

(** An instance of a concrete subclass of the abstract class [Plugin], given
    by what each of its methods does when called. *)
Module Plugin.

Record t : Type := {
  get_name : result string;
  get_version : result string;
  get_description : result string;
  get_commands : result (list Command);
  initialize : result bool;
  cleanup : result bool
}.

(** [Plugin.initialize] and [Plugin.cleanup] as the base class defines them. *)
Definition default_initialize : result bool := Return true.
Definition default_cleanup : result bool := Return true.

End Plugin.

(** The metadata snapshot stored in [plugin_info]. *)
Record PluginInfo : Type := {
  info_name : string;
  info_version : string;
  info_description : string;
  info_path : string
}.

(** A top-level member of a loaded module, as [_find_plugin_class] sees it:
    the class [Plugin] itself, a proper subclass of it (with what calling it
    without arguments does), or anything else. *)
Inductive attr : Type :=
| PluginBase
| PluginSubclass (instantiate : result Plugin.t)
| OtherAttr.

(** A loaded module: its members in [dir(module)] order. *)
Definition py_module : Type := list (string * attr).

(** [importlib]'s module spec: [loader] is [None] or runs the module's code. *)
Record ModuleSpec : Type := { loader : option (result py_module) }.

(** ** The interpreter and the operating system

    What the program reads from outside itself: Python built-ins, [os.path],
    [importlib] and the location of the package. *)
Record Env : Type := {
  (** [float(s)]: the number, or the message of the [ValueError]. *)
  py_float : string -> float + string;
  (** [str(x)] for a float. *)
  str_of_float : float -> string;
  (** [os.path.exists], [isdir] and [isfile] answer for every path (they
      turn an error of the operating system into [False]); [os.listdir]
      returns the entries or raises, an [OSError] as a rule. *)
  os_path_exists : string -> bool;
  os_path_isdir : string -> bool;
  os_path_isfile : string -> bool;
  os_listdir : string -> result (list string);
  os_path_join : string -> string -> string;
  os_path_dirname : string -> string;
  (** [importlib.util.spec_from_file_location(name, path)] *)
  spec_from_file_location : string -> string -> option ModuleSpec;
  (** [importlib.import_module(name)] under the given [sys.path]. *)
  import_module : list string -> string -> result py_module;
  (** [Path(__file__).parent.parent / "plugins"] *)
  default_plugin_dir : string
}.

(** Calls of the two plugin hooks; the record keeps that the call was made,
    not what the hook did. *)
Inductive hook_call : Type :=
| CalledInitialize (plugin_name : string)
| CalledCleanup (plugin_name : string).

(** The process state outside the calculator's own objects, as the
    calculator's own statements change it: the lines it prints, the
    [sys.path] it pushes to and pops from, and the hooks it calls. *)
#[projections(primitive)]
Record World : Type := {
  stdout : list string;
  sys_path : list string;
  hook_calls : list hook_call
}.

(** ** Statements that mutate and may raise

    A computation over a state [S] returns or raises, and in both cases
    leaves a state behind: what was assigned before an exception stays. *)

Definition M (S A : Type) : Type := S -> result A * S.

Definition ret {S A : Type} (a : A) : M S A := fun s => (Return a, s).

Definition raise {S A : Type} (e : exn) : M S A := fun s => (Raise e, s).

Definition lift {S A : Type} (r : result A) : M S A := fun s => (r, s).

Definition bind {S A B : Type} (m : M S A) (k : A -> M S B) : M S B :=
  fun s =>
    match m s with
    | (Return a, s') => k a s'
    | (Raise e, s') => (Raise e, s')
    end.

Definition get_state {S : Type} : M S S := fun s => (Return s, s).

Definition modify {S : Type} (f : S -> S) : M S unit :=
  fun s => (Return tt, f s).

(** [try: body / except Exception as e: handler(e)]: an exception that is
    not an instance of [Exception] goes on to the caller. *)
Definition try_except {S A : Type} (body : M S A) (handler : exn -> M S A)
  : M S A :=
  fun s =>
    match body s with
    | (Return a, s') => (Return a, s')
    | (Raise e, s') => if is_Exception e then handler e s' else (Raise e, s')
    end.

(** [try: body / finally: final] *)
Definition try_finally {S A : Type} (body : M S A) (final : M S unit)
  : M S A :=
  fun s =>
    match body s with
    | (r, s') =>
        match final s' with
        | (Return _, s'') => (r, s'')
        | (Raise e, s'') => (Raise e, s'')
        end
    end.

Declare Scope py_scope.
Delimit Scope py_scope with py.

Notation "x <- c1 ;; c2" := (bind c1 (fun x => c2))
  (at level 61, c1 at next level, right associativity) : py_scope.
Notation "c1 ;; c2" := (bind c1 (fun _ => c2))
  (at level 61, right associativity) : py_scope.

Local Open Scope py_scope.

(** [for x in l: body(x)] *)
Fixpoint for_each {S A : Type} (l : list A) (body : A -> M S unit)
  : M S unit :=
  match l with
  | [] => ret tt
  | x :: l' => body x ;; for_each l' body
  end.

(** Helpers for a state made of one object and the world around it. *)

Definition world_print (line : string) (w : World) : World :=
  {| stdout := (stdout w ++ [line])%list;
     sys_path := sys_path w;
     hook_calls := hook_calls w |}.

Definition world_set_sys_path (p : list string) (w : World) : World :=
  {| stdout := stdout w; sys_path := p; hook_calls := hook_calls w |}.

Definition world_log_hook (h : hook_call) (w : World) : World :=
  {| stdout := stdout w;
     sys_path := sys_path w;
     hook_calls := (hook_calls w ++ [h])%list |}.

Definition self {O : Type} : M (O * World) O :=
  fun s => (Return (fst s), s).

Definition update {O : Type} (f : O -> O) : M (O * World) unit :=
  modify (fun s => (f (fst s), snd s)).

(** [print(line)] *)
Definition print {O : Type} (line : string) : M (O * World) unit :=
  modify (fun s => (fst s, world_print line (snd s))).

(** A call of [initialize] or [cleanup]: it is recorded, then returns or
    raises as the plugin decides. *)
Definition call_hook {O : Type} (h : hook_call) (outcome : result bool)
  : M (O * World) bool :=
  fun s => (outcome, (fst s, world_log_hook h (snd s))).

(** [sys.path.insert(0, p)] *)
Definition sys_path_insert0 {O : Type} (p : string) : M (O * World) unit :=
  modify (fun s => (fst s, world_set_sys_path (p :: sys_path (snd s)) (snd s))).

(** [sys.path.pop(0)] *)
Definition sys_path_pop0 {O : Type} : M (O * World) unit :=
  fun s =>
    match sys_path (snd s) with
    | [] => (Raise (Exn IndexError "pop from empty list"), s)
    | _ :: rest => (Return tt, (fst s, world_set_sys_path rest (snd s)))
    end.

(** ** Floating-point arithmetic of the interpreter *)

Definition float_add (x y : float) : result float := Return (x + y)%float.
Definition float_sub (x y : float) : result float := Return (x - y)%float.
Definition float_mul (x y : float) : result float := Return (x * y)%float.

(** [x / y] raises [ZeroDivisionError] when [y == 0.0] (either zero). *)
Definition float_truediv (x y : float) : result float :=
  if PrimFloat.eqb y 0%float
  then Raise (Exn ZeroDivisionError "float division by zero")
  else Return (x / y)%float.

(** ** [repl.py]: the commands of the core *)

Module ArithmeticCommand.

Definition get_name (operation : string) : string := Str.lower operation.

Definition get_help (operation : string) : string :=
  get_name operation ++ " <number1> <number2> - Perform " ++ operation.

Section Execute.
Variable env : Env.

(** [float(s)] *)
Definition to_float (s : string) : result float :=
  match py_float env s with
  | inl x => Return x
  | inr msg => Raise (Exn ValueError msg)
  end.

Definition execute (operation : string)
  (func : float -> float -> result float) (args : list string)
  : result value :=
  if negb (List.length args =? 2)%nat then
    Raise (Exn ValueError (operation ++ " requires exactly 2 arguments"))
  else
    match
      result_bind (to_float (nth 0 args "")) (fun num1 =>
      result_bind (to_float (nth 1 args "")) (fun num2 =>
      func num1 num2))
    with
    | Return r => Return (VFloat r)
    | Raise exc =>
        if is_ValueError exc then
          Raise (Exn ValueError ("Invalid number format: " ++ exn_msg exc))
        else if is_ZeroDivisionError exc then
          Raise (Exn ValueError "Division by zero is not allowed")
        else Raise exc
    end.

End Execute.

End ArithmeticCommand.

Module ExitCommand.

Definition execute (args : list string) : result value := Return (VStr "EXIT").
Definition get_help : string := "exit/quit - Exit the calculator".
Definition get_name : string := "exit".

End ExitCommand.

(** [command.get_name()], by the class of [command]. *)
Definition get_name (command : Command) : result string :=
  match command with
  | ArithmeticCommand operation _ =>
      Return (ArithmeticCommand.get_name operation)
  | HelpCommand => Return "help"
  | ExitCommand => Return ExitCommand.get_name
  | MenuCommand => Return "menu"
  | OtherCommand methods => m_get_name methods
  end.

(** [command.get_help()], by the class of [command]. *)
Definition get_help (command : Command) : result string :=
  match command with
  | ArithmeticCommand operation _ =>
      Return (ArithmeticCommand.get_help operation)
  | HelpCommand => Return "help [command] - Show help information"
  | ExitCommand => Return ExitCommand.get_help
  | MenuCommand => Return "menu - Display all available commands and plugins"
  | OtherCommand methods => m_get_help methods
  end.

Module HelpCommand.

(** [commands] is [self.command_registry.commands] when the command runs. *)
Definition execute (commands : Dict.t Command) (args : list string)
  : result value :=
  match args with
  | arg0 :: _ =>
      let command_name := Str.lower arg0 in
      match Dict.get command_name commands with
      | Some command =>
          result_bind (get_help command) (fun h => Return (VStr h))
      | None => Return (VStr ("Unknown command: " ++ command_name))
      end
  | [] =>
      result_bind
        (result_map
           (fun command =>
              result_bind (get_help command) (fun h => Return ("  " ++ h)))
           (Dict.values commands))
        (fun lines =>
           Return (VStr (Str.join Str.nl
             (["Available commands:"] ++ lines ++
              ["  help [command] - Show help for all commands or specific command";
               "  history - Show calculation history";
               "  exit/quit - Exit the calculator"])%list)))
  end.

End HelpCommand.

(** ** [plugin_interface.py]: the plugin manager *)

Module PluginManager.

#[projections(primitive)]
Record t : Type := {
  plugin_dirs : list string;
  loaded_plugins : Dict.t Plugin.t;
  plugin_commands : Dict.t Command;
  plugin_info : Dict.t PluginInfo
}.

Definition with_loaded_plugins
  (f : Dict.t Plugin.t -> Dict.t Plugin.t) (m : t) : t :=
  {| plugin_dirs := plugin_dirs m;
     loaded_plugins := f (loaded_plugins m);
     plugin_commands := plugin_commands m;
     plugin_info := plugin_info m |}.

Definition with_plugin_commands
  (f : Dict.t Command -> Dict.t Command) (m : t) : t :=
  {| plugin_dirs := plugin_dirs m;
     loaded_plugins := loaded_plugins m;
     plugin_commands := f (plugin_commands m);
     plugin_info := plugin_info m |}.

Definition with_plugin_info
  (f : Dict.t PluginInfo -> Dict.t PluginInfo) (m : t) : t :=
  {| plugin_dirs := plugin_dirs m;
     loaded_plugins := loaded_plugins m;
     plugin_commands := plugin_commands m;
     plugin_info := f (plugin_info m) |}.

(** The manager together with the world it runs in. *)
Definition state : Type := (t * World)%type.

Section Methods.
Variable env : Env.

(** [PluginManager(plugin_dirs)]: [plugin_dirs or []], then the default
    directory appended. *)
Definition init (dirs : option (list string)) : t :=
  {| plugin_dirs :=
       ((match dirs with Some l => l | None => [] end)
          ++ [default_plugin_dir env])%list;
     loaded_plugins := Dict.empty;
     plugin_commands := Dict.empty;
     plugin_info := Dict.empty |}.

(** The candidates one directory entry contributes. *)
Definition discover_item (plugin_dir item : string)
  : list (string * string) :=
  let item_path := os_path_join env plugin_dir item in
  if Str.endswith item ".py" && negb (String.eqb item "__init__.py") then
    [(Str.drop_last 3 item, item_path)]
  else if os_path_isdir env item_path then
    if os_path_exists env (os_path_join env item_path "__init__.py")
    then [(item, item_path)]
    else []
  else [].

(** The candidates of one plugin directory: none when it does not exist;
    a listing that raises is not handled. *)
Definition discover_dir (plugin_dir : string)
  : result (list (string * string)) :=
  if negb (os_path_exists env plugin_dir) then Return []
  else
    result_bind (os_listdir env plugin_dir) (fun items =>
    Return (flat_map (discover_item plugin_dir) items)).

Definition discover_plugins (m : t) : result (list (string * string)) :=
  result_bind (result_map discover_dir (plugin_dirs m)) (fun found =>
  Return (concat found)).

(** The first member of the module that is a class, a subclass of [Plugin]
    and not [Plugin] itself. *)
Fixpoint _find_plugin_class (module : py_module)
  : option (result Plugin.t) :=
  match module with
  | [] => None
  | (_, PluginSubclass cls) :: _ => Some cls
  | _ :: rest => _find_plugin_class rest
  end.

(** The module of a candidate: a single file through its spec and loader,
    a package through [import_module] with its parent directory put in
    front of [sys.path] for the time of the import. *)
Definition load_module (plugin_name plugin_path : string)
  : M state py_module :=
  if os_path_isfile env plugin_path then
    match spec_from_file_location env plugin_name plugin_path with
    | Some {| loader := Some exec_module |} => lift exec_module
    | _ => raise (Exn ImportError ("Could not load spec for " ++ plugin_name))
    end
  else
    sys_path_insert0 (os_path_dirname env plugin_path) ;;
    try_finally
      (s <- get_state ;;
       lift (import_module env (sys_path (snd s)) plugin_name))
      sys_path_pop0.

(** The body of the [try] block of [load_plugin]. *)
Definition load_plugin_body (plugin_name plugin_path : string)
  : M state bool :=
  module <- load_module plugin_name plugin_path ;;
  plugin_class <-
    match _find_plugin_class module with
    | Some cls => ret cls
    | None =>
        raise (Exn ImportError ("No Plugin class found in " ++ plugin_name))
    end ;;
  plugin_instance <- lift plugin_class ;;
  initialized <-
    call_hook (CalledInitialize plugin_name)
      (Plugin.initialize plugin_instance) ;;
  (if negb initialized
   then raise (Exn RuntimeError
                 ("Failed to initialize plugin " ++ plugin_name))
   else ret tt) ;;
  update (with_loaded_plugins (Dict.set plugin_name plugin_instance)) ;;
  name <- lift (Plugin.get_name plugin_instance) ;;
  version <- lift (Plugin.get_version plugin_instance) ;;
  description <- lift (Plugin.get_description plugin_instance) ;;
  update (with_plugin_info
            (Dict.set plugin_name
               {| info_name := name;
                  info_version := version;
                  info_description := description;
                  info_path := plugin_path |})) ;;
  commands <- lift (Plugin.get_commands plugin_instance) ;;
  for_each commands
    (fun command =>
       command_name <- lift (get_name command) ;;
       update (with_plugin_commands (Dict.set command_name command))) ;;
  name' <- lift (Plugin.get_name plugin_instance) ;;
  version' <- lift (Plugin.get_version plugin_instance) ;;
  print ("Loaded plugin: " ++ name' ++ " v" ++ version') ;;
  ret true.

Definition load_plugin (plugin_name plugin_path : string) : M state bool :=
  try_except (load_plugin_body plugin_name plugin_path)
    (fun e =>
       print ("Failed to load plugin " ++ plugin_name ++ ": " ++ exn_msg e) ;;
       ret false).

(** The loop of [load_all_plugins] over the discovered candidates. *)
Fixpoint load_each (candidates : list (string * string))
  (results : Dict.t bool) : M state (Dict.t bool) :=
  match candidates with
  | [] => ret results
  | (plugin_name, plugin_path) :: rest =>
      loaded <- load_plugin plugin_name plugin_path ;;
      load_each rest (Dict.set plugin_name loaded results)
  end.

Definition load_all_plugins : M state (Dict.t bool) :=
  m <- self ;;
  discovered_plugins <- lift (discover_plugins m) ;;
  load_each discovered_plugins Dict.empty.

(** Both getters hand out a copy, here the value itself. *)
Definition get_plugin_commands (m : t) : Dict.t Command := plugin_commands m.

Definition get_plugin_info (m : t) : Dict.t PluginInfo := plugin_info m.

(** [d[k]] and [del d[k]]: a missing key raises [KeyError]. *)
Definition getitem {V : Type} (k : string) (d : Dict.t V) : result V :=
  match Dict.get k d with
  | Some v => Return v
  | None => Raise (Exn KeyError ("'" ++ k ++ "'"))
  end.

Definition delitem {V : Type} (k : string) (d : Dict.t V)
  : result (Dict.t V) :=
  if Dict.mem k d then Return (Dict.del k d)
  else Raise (Exn KeyError ("'" ++ k ++ "'")).

(** The body of the [try] block of [unload_plugin]. *)
Definition unload_plugin_body (plugin_name : string) : M state bool :=
  m <- self ;;
  plugin <- lift (getitem plugin_name (loaded_plugins m)) ;;
  _ <- call_hook (CalledCleanup plugin_name) (Plugin.cleanup plugin) ;;
  commands <- lift (Plugin.get_commands plugin) ;;
  for_each commands
    (fun command =>
       command_name <- lift (get_name command) ;;
       m1 <- self ;;
       if Dict.mem command_name (plugin_commands m1)
       then update (with_plugin_commands (Dict.del command_name))
       else ret tt) ;;
  m2 <- self ;;
  lp <- lift (delitem plugin_name (loaded_plugins m2)) ;;
  update (with_loaded_plugins (fun _ => lp)) ;;
  m3 <- self ;;
  pinfo <- lift (delitem plugin_name (plugin_info m3)) ;;
  update (with_plugin_info (fun _ => pinfo)) ;;
  ret true.

Definition unload_plugin (plugin_name : string) : M state bool :=
  m <- self ;;
  if negb (Dict.mem plugin_name (loaded_plugins m)) then ret false
  else
    try_except (unload_plugin_body plugin_name)
      (fun e =>
         print ("Error unloading plugin " ++ plugin_name ++ ": "
                  ++ exn_msg e) ;;
         ret false).

End Methods.

End PluginManager.

Module MenuCommand.

(** The decorations of the menu, byte for byte as the source file has
    them. *)
Definition core_mark : string := "ðŸ“‹".
Definition bullet : string := "â€¢".
Definition plugin_mark : string := "ðŸ”Œ".
Definition package_mark : string := "ðŸ“¦".

(** The line of one core command, when the registry has it. *)
Definition core_line (commands : Dict.t Command) (cmd_name : string)
  : result (list string) :=
  match Dict.get cmd_name commands with
  | Some cmd =>
      result_bind (get_help cmd) (fun h =>
      Return ["  " ++ bullet ++ " " ++ h])
  | None => Return []
  end.

(** The lines of every plugin command, the same under each plugin. *)
Definition plugin_command_lines (m : PluginManager.t)
  : result (list string) :=
  result_map
    (fun item : string * Command =>
       result_bind (get_help (snd item)) (fun h =>
       Return ("     " ++ bullet ++ " " ++ h)))
    (Dict.items (PluginManager.get_plugin_commands m)).

(** The lines under one loaded plugin. *)
Definition plugin_lines (m : PluginManager.t) (item : string * PluginInfo)
  : result (list string) :=
  let info := snd item in
  result_bind (plugin_command_lines m) (fun plugin_commands =>
  Return
    ([("  " ++ package_mark ++ " " ++ info_name info ++ " v"
         ++ info_version info)%string;
      ("     " ++ info_description info)%string]
       ++ plugin_commands ++ [""])%list).

(** [commands] is [self.command_registry.commands] and [m] is
    [self.plugin_manager] when the command runs. *)
Definition execute (commands : Dict.t Command) (m : PluginManager.t)
  (args : list string) : result value :=
  let core_commands :=
    ["add"; "subtract"; "multiply"; "divide"; "help"; "history"; "exit";
     "quit"] in
  result_bind (result_map (core_line commands) core_commands) (fun core =>
  let plugin_info := PluginManager.get_plugin_info m in
  result_bind
    (match plugin_info with
     | [] =>
         Return [Str.nl ++ plugin_mark ++ " PLUGINS: No plugins loaded"]
     | _ =>
         result_bind (result_map (plugin_lines m) (Dict.items plugin_info))
           (fun per_plugin =>
              Return
                ((Str.nl ++ plugin_mark ++ " LOADED PLUGINS ("
                    ++ Str.of_nat (Dict.len plugin_info) ++ "):")
                   :: concat per_plugin))
     end)
    (fun plugins =>
       Return (VStr (Str.join Str.nl
         ([Str.repeat "=" 60; "CALCULATOR MENU"; Str.repeat "=" 60;
           (Str.nl ++ core_mark ++ " CORE COMMANDS:")%string]
            ++ concat core ++ plugins
            ++ [Str.repeat "=" 60;
                "Type 'help <command>' for detailed help on any command"])%list)))).

End MenuCommand.

(** [try: body / except <class> as e: handler(e)] for the classes [catches]
    accepts; any other exception goes on to the caller. *)
Definition try_except_when {S A : Type} (catches : exn -> bool)
  (body : M S A) (handler : exn -> M S A) : M S A :=
  fun s =>
    match body s with
    | (Return a, s') => (Return a, s')
    | (Raise e, s') => if catches e then handler e s' else (Raise e, s')
    end.

Declare Scope res_scope.
Delimit Scope res_scope with res.

Notation "x <- c1 ;; c2" := (result_bind c1 (fun x => c2))
  (at level 61, c1 at next level, right associativity) : res_scope.

(** [command.execute(args)], by the class of [command]; [commands] and [m]
    are the registry's table and the plugin manager at the time of the
    call. *)
Definition execute (env : Env) (commands : Dict.t Command)
  (m : PluginManager.t) (command : Command) (args : list string)
  : result value :=
  match command with
  | ArithmeticCommand operation func =>
      ArithmeticCommand.execute env operation func args
  | HelpCommand => HelpCommand.execute commands args
  | ExitCommand => ExitCommand.execute args
  | MenuCommand => MenuCommand.execute commands m args
  | OtherCommand methods => m_execute methods args
  end.

Module CommandRegistry.

(** [self.commands[command.get_name()] = command] *)
Definition register_command (command : Command) (commands : Dict.t Command)
  : result (Dict.t Command) :=
  (name <- get_name command ;;
   Return (Dict.set name command commands))%res.

Definition _setup_basic_commands (commands : Dict.t Command)
  : result (Dict.t Command) :=
  (c1 <- register_command (ArithmeticCommand "add" float_add) commands ;;
   c2 <- register_command (ArithmeticCommand "subtract" float_sub) c1 ;;
   c3 <- register_command (ArithmeticCommand "multiply" float_mul) c2 ;;
   c4 <- register_command (ArithmeticCommand "divide" float_truediv) c3 ;;
   c5 <- register_command HelpCommand c4 ;;
   let exit_cmd := ExitCommand in
   c6 <- register_command exit_cmd c5 ;;
   Return (Dict.set "quit" exit_cmd c6))%res.

(** [CommandRegistry()] *)
Definition init : result (Dict.t Command) :=
  _setup_basic_commands Dict.empty.

(** [self.commands.get(name.lower())] *)
Definition get_command (name : string) (commands : Dict.t Command)
  : option Command :=
  Dict.get (Str.lower name) commands.

Definition list_commands (commands : Dict.t Command) : list string :=
  Dict.keys commands.

End CommandRegistry.

(** ** [enhanced_repl.py]: the registry with plugin support *)

Module EnhancedCommandRegistry.

#[projections(primitive)]
Record t : Type := {
  commands : Dict.t Command;
  plugin_manager : PluginManager.t
}.

Definition with_commands (f : Dict.t Command -> Dict.t Command) (r : t) : t :=
  {| commands := f (commands r); plugin_manager := plugin_manager r |}.

(** A method of the plugin manager, run on [self.plugin_manager]. *)
Definition on_plugin_manager {A : Type} (act : M PluginManager.state A)
  : M (t * World) A :=
  fun s =>
    match act (plugin_manager (fst s), snd s) with
    | (r, (m', w')) =>
        (r, ({| commands := commands (fst s); plugin_manager := m' |}, w'))
    end.

Section Methods.
Variable env : Env.

Definition _setup_plugin_commands : M (t * World) unit :=
  load_results <- on_plugin_manager (PluginManager.load_all_plugins env) ;;
  r <- self ;;
  let plugin_commands :=
    PluginManager.get_plugin_commands (plugin_manager r) in
  for_each (Dict.items plugin_commands)
    (fun item => update (with_commands (Dict.set (fst item) (snd item)))) ;;
  let menu_cmd := MenuCommand in
  r' <- self ;;
  registered <-
    lift (CommandRegistry.register_command menu_cmd (commands r')) ;;
  update (with_commands (fun _ => registered)) ;;
  let successful_plugins :=
    List.length (filter (fun success : bool => success)
                   (Dict.values load_results)) in
  let total_plugins := Dict.len load_results in
  if (0 <? total_plugins)%nat then
    print ("Plugin system initialized: " ++ Str.of_nat successful_plugins
             ++ "/" ++ Str.of_nat total_plugins ++ " plugins loaded")
  else ret tt.

(** [EnhancedCommandRegistry()] *)
Definition init (w : World) : result t * World :=
  match CommandRegistry.init with
  | Raise e => (Raise e, w)
  | Return basic =>
      match
        _setup_plugin_commands
          ({| commands := basic;
              plugin_manager := PluginManager.init env None |}, w)
      with
      | (Return _, (r, w')) => (Return r, w')
      | (Raise e, (_, w')) => (Raise e, w')
      end
  end.

End Methods.

End EnhancedCommandRegistry.

(** ** [repl.py]: history and the dispatch loop *)

Record HistoryEntry : Type := {
  entry_command : string;
  entry_args : list string;
  entry_result : value;
  entry_success : bool;
  entry_timestamp : string
}.

Module HistoryTracker.

Definition t : Type := list HistoryEntry.

(** [timestamp] is what [_get_timestamp] reads off the clock. *)
Definition add_entry (command : string) (args : list string)
  (result : value) (success : bool) (timestamp : string) (history : t) : t :=
  (history ++
   [{| entry_command := command;
       entry_args := args;
       entry_result := result;
       entry_success := success;
       entry_timestamp := timestamp |}])%list.

Definition get_history (history : t) : t := history.

Definition clear_history (history : t) : t := [].

End HistoryTracker.

(** What one call of [input] does: it returns a line, read at the given
    clock time, or raises ([KeyboardInterrupt] on an interrupt,
    [UnicodeDecodeError], a [ValueError], on bytes it cannot decode); at the
    end of the list the input is exhausted and [input] raises [EOFError]. *)
Inductive input_event : Type :=
| Line (text : string) (now : string)
| InputRaises (e : exn).

(** Control-C at the prompt. *)
Definition Interrupt : input_event :=
  InputRaises (Exn KeyboardInterrupt "").

(** The engine as [main] builds it: [REPLEngine]'s attributes and methods,
    with the registry [EnhancedREPLEngine] puts in place. *)
Module REPLEngine.

#[projections(primitive)]
Record t : Type := {
  command_registry : EnhancedCommandRegistry.t;
  history_tracker : HistoryTracker.t;
  running : bool
}.

Definition with_history (f : HistoryTracker.t -> HistoryTracker.t) (e : t)
  : t :=
  {| command_registry := command_registry e;
     history_tracker := f (history_tracker e);
     running := running e |}.

Definition set_running (b : bool) (e : t) : t :=
  {| command_registry := command_registry e;
     history_tracker := history_tracker e;
     running := b |}.

Section Methods.
Variable env : Env.

(** [str(result)] *)
Definition str (v : value) : string :=
  match v with
  | VFloat x => str_of_float env x
  | VInt z => Str.of_Z z
  | VStr s => s
  | VNone => "None"
  end.

(** [result == "EXIT"] *)
Definition is_exit (v : value) : bool :=
  match v with
  | VStr s => String.eqb s "EXIT"
  | _ => false
  end.

(** [isinstance(result, (int, float))] *)
Definition is_number (v : value) : bool :=
  match v with
  | VFloat _ | VInt _ => true
  | _ => false
  end.

Definition _print_welcome : M (t * World) unit :=
  print (Str.repeat "=" 50) ;;
  print "  Advanced Python Calculator" ;;
  print "  Type 'help' for available commands" ;;
  print "  Type 'exit' or 'quit' to leave" ;;
  print (Str.repeat "=" 50).

Definition _process_command (now user_input : string) : M (t * World) unit :=
  match Str.split user_input with
  | [] => raise (Exn IndexError "list index out of range")
  | part0 :: args =>
      let command_name := Str.lower part0 in
      e <- self ;;
      let registry := command_registry e in
      match
        CommandRegistry.get_command command_name
          (EnhancedCommandRegistry.commands registry)
      with
      | None =>
          let error_msg :=
            "Unknown command: " ++ command_name
              ++ ". Type 'help' for available commands." in
          print error_msg ;;
          update (with_history
                    (HistoryTracker.add_entry command_name args
                       (VStr error_msg) false now))
      | Some command =>
          try_except_when is_ValueError
            (result <-
               lift (execute env
                       (EnhancedCommandRegistry.commands registry)
                       (EnhancedCommandRegistry.plugin_manager registry)
                       command args) ;;
             if is_exit result then
               update (set_running false) ;;
               print "Goodbye!"
             else
               (if is_number result
                then print ("Result: " ++ str result)
                else print (str result)) ;;
               update (with_history
                         (HistoryTracker.add_entry command_name args
                            result true now)))
            (fun exc =>
               let error_msg := "Error: " ++ exn_msg exc in
               print error_msg ;;
               update (with_history
                         (HistoryTracker.add_entry command_name args
                            (VStr error_msg) false now)))
      end
  end.

(** The two lines of one history entry, [i] counting from one. *)
Definition show_entry (i : nat) (entry : HistoryEntry) : M (t * World) unit :=
  let status := if entry_success entry then "✓" else "✗" in
  let command_str :=
    entry_command entry ++ " " ++ Str.join " " (entry_args entry) in
  print (Str.of_nat_2d i ++ ". [" ++ status ++ "] "
           ++ entry_timestamp entry ++ " | " ++ command_str) ;;
  print ("     " ++ str (entry_result entry)).

Fixpoint show_entries (i : nat) (entries : list HistoryEntry)
  : M (t * World) unit :=
  match entries with
  | [] => ret tt
  | entry :: rest => show_entry i entry ;; show_entries (S i) rest
  end.

Definition _show_history : M (t * World) unit :=
  e <- self ;;
  let history := HistoryTracker.get_history (history_tracker e) in
  match history with
  | [] => print "No history available."
  | _ =>
      print (Str.nl ++ "Calculation History:") ;;
      print (Str.repeat "-" 60) ;;
      show_entries 1 (skipn (List.length history - 10) history) ;;
      (if (10 <? List.length history)%nat
       then print ("... (" ++ Str.of_nat (List.length history - 10)
                     ++ " more entries)")
       else ret tt) ;;
      print (Str.repeat "-" 60)
  end.

(** What the loop does with one line that was read. *)
Definition handle_line (text now : string) : M (t * World) unit :=
  let user_input := Str.strip text in
  if String.eqb user_input "" then ret tt
  else if String.eqb (Str.lower user_input) "history" then _show_history
  else _process_command now user_input.

(** The body of the [try] block of the loop, after the prompt. *)
Definition read_and_handle (event : input_event) : M (t * World) unit :=
  match event with
  | Line text now => handle_line text now
  | InputRaises e => raise e
  end.

(** The [while self.running] loop over what [input] does. Each call of
    [input] writes the prompt first. The two [except] clauses serve what
    [input] raises and what a command raises alike: after a
    [KeyboardInterrupt] the loop goes on, after an [EOFError] it stops, and
    anything else leaves [start]. *)
Fixpoint loop (inputs : list input_event) : M (t * World) unit :=
  e <- self ;;
  if negb (running e) then ret tt
  else
    print "calc> " ;;
    match inputs with
    | [] => print (Str.nl ++ "Goodbye!")
    | event :: rest =>
        stop <-
          try_except_when
            (fun exc => is_KeyboardInterrupt exc || is_EOFError exc)
            (read_and_handle event ;; ret false)
            (fun exc =>
               if is_KeyboardInterrupt exc then
                 print (Str.nl
                          ++ "Use 'exit' or 'quit' to leave the calculator.") ;;
                 ret false
               else
                 print (Str.nl ++ "Goodbye!") ;;
                 ret true) ;;
        if stop : bool then ret tt else loop rest
    end.

Definition start (inputs : list input_event) : M (t * World) unit :=
  update (set_running true) ;;
  _print_welcome ;;
  loop inputs.

(** [EnhancedREPLEngine()]: the base class builds a plain registry, which
    the enhanced one then replaces. *)
Definition init (w : World) : result t * World :=
  match CommandRegistry.init with
  | Raise e => (Raise e, w)
  | Return _ =>
      match EnhancedCommandRegistry.init env w with
      | (Return registry, w') =>
          (Return {| command_registry := registry;
                     history_tracker := [];
                     running := false |}, w')
      | (Raise e, w') => (Raise e, w')
      end
  end.

End Methods.

End REPLEngine.

(** ** [main.py] *)

(** [main()]: the exit status it returns, or what passes its
    [except Exception] clause, and the world it leaves. *)
Definition main (env : Env) (inputs : list input_event) (w : World)
  : result nat * World :=
  let fatal (e : exn) (w' : World) :=
    if is_Exception e
    then (Return 1, world_print ("Fatal error: " ++ exn_msg e) w')
    else (Raise e, w') in
  match REPLEngine.init env w with
  | (Raise e, w') => fatal e w'
  | (Return repl, w') =>
      match REPLEngine.start env inputs (repl, w') with
      | (Return _, (_, w'')) => (Return 0, w'')
      | (Raise e, (_, w'')) => fatal e w''
      end
  end.

(** ** [plugins/]: the two plugins the calculator ships

    [scientific_plugin.py] and [statistics_plugin.py]. Their commands wrap
    functions of Python's [math] and [statistics] modules and the built-in
    [pow]; [math.sqrt] is spelled out on the primitive floats, the others
    are taken as they come. *)

(** [needle in s] *)
Fixpoint contains (needle s : string) : bool :=
  String.prefix needle s
  || match s with
     | EmptyString => false
     | String _ s' => contains needle s'
     end.

(** [s.replace(a, b)] for single characters. *)
Fixpoint replace_char (a b : ascii) (s : string) : string :=
  match s with
  | EmptyString => EmptyString
  | String c s' =>
      String (if Ascii.eqb c a then b else c) (replace_char a b s')
  end.

Definition is_OverflowError (e : exn) : bool :=
  match exn_cls e with OverflowError => true | _ => false end.

(** [math.sqrt(x)]: a domain error below zero, the IEEE square root
    otherwise (of a NaN, a NaN; of either zero, that zero). *)
Definition math_sqrt (x : float) : result float :=
  if PrimFloat.ltb x 0%float
  then Raise (Exn ValueError "math domain error")
  else Return (PrimFloat.sqrt x).

(** The library functions the plugins call apart from [math.sqrt]. An
    exception of [statistics] is a [StatisticsError], a subclass of
    [ValueError]. *)
Record Library : Type := {
  builtin_pow : float -> float -> result value;
  math_log10 : float -> result float;
  math_log : float -> result float;
  math_sin : float -> result float;
  math_cos : float -> result float;
  math_tan : float -> result float;
  statistics_mean : list float -> result float;
  statistics_median : list float -> result float;
  statistics_mode : list float -> result float;
  statistics_stdev : list float -> result float;
  statistics_variance : list float -> result float
}.

(** A function of one argument, and of two, called with the parsed
    numbers; Python raises [TypeError] on any other number of them. *)
Definition unary (f : float -> result float) (numbers : list float)
  : result value :=
  match numbers with
  | [x] => (r <- f x ;; Return (VFloat r))%res
  | _ => Raise (Exn TypeError "takes exactly one argument")
  end.

Definition binary (f : float -> float -> result value)
  (numbers : list float) : result value :=
  match numbers with
  | [x; y] => f x y
  | _ => Raise (Exn TypeError "takes exactly two arguments")
  end.

Module ScientificCommand.

Definition get_name (operation : string) : string := Str.lower operation.

(** [<number1> <number2> ...], one per argument. *)
Definition arg_text (arg_count : nat) : string :=
  Str.join " "
    (map (fun i => "<number" ++ Str.of_nat (i + 1) ++ ">") (seq 0 arg_count)).

Definition get_help (operation : string) (arg_count : nat) : string :=
  get_name operation ++ " " ++ arg_text arg_count ++ " - Calculate "
    ++ operation.

Section Execute.
Variable env : Env.

Definition execute (operation : string)
  (func : list float -> result value) (arg_count : nat)
  (args : list string) : result value :=
  if negb (List.length args =? arg_count)%nat then
    Raise (Exn ValueError
             (operation ++ " requires exactly " ++ Str.of_nat arg_count
                ++ " argument(s)"))
  else
    match
      if (arg_count =? 1)%nat then
        (number <- ArithmeticCommand.to_float env (nth 0 args "") ;;
         func [number])%res
      else
        (numbers <- result_map (ArithmeticCommand.to_float env) args ;;
         func numbers)%res
    with
    | Return result => Return result
    | Raise e =>
        if is_ValueError e then
          if contains "could not convert" (exn_msg e)
          then Raise (Exn ValueError ("Invalid number format: " ++ exn_msg e))
          else Raise (Exn ValueError ("Math error: " ++ exn_msg e))
        else if is_OverflowError e || is_ZeroDivisionError e then
          Raise (Exn ValueError ("Math error: " ++ exn_msg e))
        else Raise e
    end.

(** An instance, as a [Command]. *)
Definition command (operation : string)
  (func : list float -> result value) (arg_count : nat) : Command :=
  OtherCommand
    {| m_execute := execute operation func arg_count;
       m_get_help := Return (get_help operation arg_count);
       m_get_name := Return (get_name operation) |}.

End Execute.

End ScientificCommand.

Module StatisticsCommand.

Definition get_name (operation : string) : string :=
  replace_char " "%char "_"%char (Str.lower operation).

Definition get_help (operation : string) : string :=
  get_name operation ++ " <number1> [number2 ...] - Calculate " ++ operation.

Section Execute.
Variable env : Env.

(** The clause for [StatisticsError] comes after the one for [ValueError],
    which takes every [StatisticsError] too, so it never runs. *)
Definition execute (operation : string)
  (func : list float -> result float) (min_args : nat)
  (args : list string) : result value :=
  if (List.length args <? min_args)%nat then
    Raise (Exn ValueError
             (operation ++ " requires at least " ++ Str.of_nat min_args
                ++ " argument(s)"))
  else
    match
      (numbers <- result_map (ArithmeticCommand.to_float env) args ;;
       if (List.length numbers =? 0)%nat
       then Raise (Exn ValueError "No valid numbers provided")
       else func numbers)%res
    with
    | Return result => Return (VFloat result)
    | Raise e =>
        if is_ValueError e then
          if contains "could not convert" (exn_msg e)
          then Raise (Exn ValueError "Invalid number format in arguments")
          else Raise e
        else Raise e
    end.

(** An instance, as a [Command]. *)
Definition command (operation : string)
  (func : list float -> result float) (min_args : nat) : Command :=
  OtherCommand
    {| m_execute := execute operation func min_args;
       m_get_help := Return (get_help operation);
       m_get_name := Return (get_name operation) |}.

End Execute.

End StatisticsCommand.

Section ShippedPlugins.
Variable env : Env.
Variable lib : Library.

Definition SqrtCommand : Command :=
  ScientificCommand.command env "sqrt" (unary math_sqrt) 1.
Definition PowerCommand : Command :=
  ScientificCommand.command env "power" (binary (builtin_pow lib)) 2.
Definition LogCommand : Command :=
  ScientificCommand.command env "log" (unary (math_log10 lib)) 1.
Definition LnCommand : Command :=
  ScientificCommand.command env "ln" (unary (math_log lib)) 1.
Definition SinCommand : Command :=
  ScientificCommand.command env "sin" (unary (math_sin lib)) 1.
Definition CosCommand : Command :=
  ScientificCommand.command env "cos" (unary (math_cos lib)) 1.
Definition TanCommand : Command :=
  ScientificCommand.command env "tan" (unary (math_tan lib)) 1.

Definition ScientificPlugin : Plugin.t :=
  {| Plugin.get_name := Return "Scientific Plugin";
     Plugin.get_version := Return "1.0.0";
     Plugin.get_description :=
       Return "Provides scientific mathematical functions (sqrt, power, log, trig, etc.)";
     Plugin.get_commands :=
       Return [SqrtCommand; PowerCommand; LogCommand; LnCommand;
               SinCommand; CosCommand; TanCommand];
     Plugin.initialize := Plugin.default_initialize;
     Plugin.cleanup := Plugin.default_cleanup |}.

Definition MeanCommand : Command :=
  StatisticsCommand.command env "mean" (statistics_mean lib) 1.
Definition MedianCommand : Command :=
  StatisticsCommand.command env "median" (statistics_median lib) 1.
Definition ModeCommand : Command :=
  StatisticsCommand.command env "mode" (statistics_mode lib) 1.
Definition StdevCommand : Command :=
  StatisticsCommand.command env "standard_deviation"
    (statistics_stdev lib) 2.
Definition VarianceCommand : Command :=
  StatisticsCommand.command env "variance" (statistics_variance lib) 2.

Definition StatisticsPlugin : Plugin.t :=
  {| Plugin.get_name := Return "Statistics Plugin";
     Plugin.get_version := Return "1.0.0";
     Plugin.get_description :=
       Return "Provides statistical calculation functions (mean, median, mode, etc.)";
     Plugin.get_commands :=
       Return [MeanCommand; MedianCommand; ModeCommand; StdevCommand;
               VarianceCommand];
     Plugin.initialize := Plugin.default_initialize;
     Plugin.cleanup := Plugin.default_cleanup |}.

End ShippedPlugins.

(** ** What a load amounts to

    Pure readings of the steps of [load_plugin], used to state what the
    manager holds after a run. [sp] is [sys.path] at the time of the call. *)

Section Readings.
Variable env : Env.
Variable sp : list string.

(** The module [load_module] obtains for a candidate. *)
Definition module_of (plugin_name plugin_path : string) : result py_module :=
  if os_path_isfile env plugin_path then
    match spec_from_file_location env plugin_name plugin_path with
    | Some {| loader := Some exec_module |} => exec_module
    | _ => Raise (Exn ImportError ("Could not load spec for " ++ plugin_name))
    end
  else
    import_module env (os_path_dirname env plugin_path :: sp) plugin_name.

(** The plugin instance of a candidate: its module loaded, the plugin class
    found in it and called. *)
Definition plugin_of (plugin_name plugin_path : string) : result Plugin.t :=
  (module <- module_of plugin_name plugin_path ;;
   match PluginManager._find_plugin_class module with
   | Some cls => cls
   | None =>
       Raise (Exn ImportError ("No Plugin class found in " ++ plugin_name))
   end)%res.

(** The commands the registration loop reaches before a [get_name] raises,
    each with the name it is stored under. *)
Fixpoint registered (commands : list Command) : list (string * Command) :=
  match commands with
  | [] => []
  | command :: rest =>
      match get_name command with
      | Return name => (name, command) :: registered rest
      | Raise _ => []
      end
  end.

(** The assignments to [plugin_commands] that one call of [load_plugin]
    makes, in order: none unless the run gets as far as the loop. *)
Definition registrations (candidate : string * string)
  : list (string * Command) :=
  match plugin_of (fst candidate) (snd candidate) with
  | Return plugin =>
      match Plugin.initialize plugin, Plugin.get_name plugin,
            Plugin.get_version plugin, Plugin.get_description plugin,
            Plugin.get_commands plugin
      with
      | Return true, Return _, Return _, Return _, Return commands =>
          registered commands
      | _, _, _, _, _ => []
      end
  | Raise _ => []
  end.

End Readings.

(** An entry that sits under the name its command reports. *)
Definition keyed_by_name (kc : string * Command) : Prop :=
  get_name (snd kc) = Return (fst kc).

(** [d[k] = c] for each pair, in order. *)
Definition assign_all {V : Type} (regs : list (string * V)) (d : Dict.t V)
  : Dict.t V :=
  fold_left (fun acc kc => Dict.set (fst kc) (snd kc) acc) regs d.

(** [del d[k]] for each name, in order, where the name is present. *)
Definition delete_all (names : list string) (d : Dict.t Command)
  : Dict.t Command :=
  fold_left (fun acc k => Dict.del k acc) names d.

(** The command (or value) of the last pair with key [k]. *)
Fixpoint last_named {V : Type} (k : string) (regs : list (string * V))
  : option V :=
  match regs with
  | [] => None
  | (k', c) :: rest =>
      match last_named k rest with
      | Some c' => Some c'
      | None => if String.eqb k k' then Some c else None
      end
  end.

(** A sequence of calls of [load_plugin], one per candidate, each starting
    where the one before ended. *)
Fixpoint load_sequence (env : Env) (candidates : list (string * string))
  (s : PluginManager.state) : list (result bool) * PluginManager.state :=
  match candidates with
  | [] => ([], s)
  | (plugin_name, plugin_path) :: rest =>
      match PluginManager.load_plugin env plugin_name plugin_path s with
      | (r, s1) =>
          match load_sequence env rest s1 with
          | (rs, s2) => (r :: rs, s2)
          end
      end
  end.

(** The booleans that the calls of a sequence returned, each with the name
    of its candidate; a call that raised contributes nothing. *)
Fixpoint returned (names : list string) (outcomes : list (result bool))
  : list (string * bool) :=
  match names, outcomes with
  | name :: names', Return loaded :: outcomes' =>
      (name, loaded) :: returned names' outcomes'
  | _ :: names', Raise _ :: outcomes' => returned names' outcomes'
  | _, _ => []
  end.

(** The mathematical operation the spec attaches to each arithmetic
    command, on the interpreter's floats. *)
Definition arithmetic_operation (name : string)
  : option (float -> float -> float) :=
  if String.eqb name "add" then Some PrimFloat.add
  else if String.eqb name "subtract" then Some PrimFloat.sub
  else if String.eqb name "multiply" then Some PrimFloat.mul
  else if String.eqb name "divide" then Some PrimFloat.div
  else None.

(** [w'] is [w] after [lines] were printed, and nothing else of the world
    was touched. *)
Definition printed (lines : list string) (w w' : World) : Prop :=
  stdout w' = (stdout w ++ lines)%list /\
  sys_path w' = sys_path w /\
  hook_calls w' = hook_calls w.

(** The entry was logged for a line of [inputs]: it carries the clock of a
    line that was read, and a lower-cased command name. *)
Definition logged_from (inputs : list input_event) (entry : HistoryEntry)
  : Prop :=
  (exists text, In (Line text (entry_timestamp entry)) inputs) /\
  Str.lower (entry_command entry) = entry_command entry.

(** What can leave the loop of a session over [inputs] with the given
    registry: neither a [KeyboardInterrupt] nor an [EOFError], and either
    what [input] raised, or what the [execute] of a command of the
    registry raised, a [ValueError] apart. *)
Definition leaves_loop (env : Env) (registry : EnhancedCommandRegistry.t)
  (inputs : list input_event) (exc : exn) : Prop :=
  is_KeyboardInterrupt exc = false /\
  is_EOFError exc = false /\
  (In (InputRaises exc) inputs \/
   is_ValueError exc = false /\
   exists name command args,
     CommandRegistry.get_command name
       (EnhancedCommandRegistry.commands registry) = Some command /\
     execute env (EnhancedCommandRegistry.commands registry)
       (EnhancedCommandRegistry.plugin_manager registry) command args =
     Raise exc).

(** What makes [main] fail on [inputs] from the world [w]: what the
    loading of the plugins raised at startup, or what left the loop. *)
Definition fatal (env : Env) (inputs : list input_event) (w : World)
  (exc : exn) : Prop :=
  fst (PluginManager.load_all_plugins env (PluginManager.init env None, w)) =
    Raise exc \/
  exists registry w1,
    EnhancedCommandRegistry.init env w = (Return registry, w1) /\
    leaves_loop env registry inputs exc.

(** The last line printed is one of the two farewells. *)
Definition goodbye_last (lines : list string) : Prop :=
  last lines "" = "Goodbye!" \/ last lines "" = Str.nl ++ "Goodbye!".

(** What a run of the loop over [inputs] from [(e, w)] amounts to. *)
Definition loop_outcome (env : Env) (inputs : list input_event)
  (e : REPLEngine.t) (w : World) (r : result unit) (e' : REPLEngine.t)
  (w' : World) (lines : list string) (entries : list HistoryEntry) : Prop :=
  printed lines w w' /\
  REPLEngine.command_registry e' = REPLEngine.command_registry e /\
  REPLEngine.history_tracker e' =
    (REPLEngine.history_tracker e ++ entries)%list /\
  List.length entries <= List.length inputs /\
  Forall (logged_from inputs) entries /\
  match r with
  | Return _ =>
      (REPLEngine.running e = false /\ lines = []) \/ goodbye_last lines
  | Raise exc => leaves_loop env (REPLEngine.command_registry e) inputs exc
  end.

(** The two lines that stand for the [i]-th entry shown. *)
Definition entry_lines (env : Env) (i : nat) (entry : HistoryEntry)
  : list string :=
  [(Str.of_nat_2d i ++ ". [" ++ (if entry_success entry then "✓" else "✗")
      ++ "] " ++ entry_timestamp entry ++ " | " ++ entry_command entry
      ++ " " ++ Str.join " " (entry_args entry))%string;
   ("     " ++ REPLEngine.str env (entry_result entry))%string].

(** What the user is shown of a history: the last ten entries, numbered
    from one in the order they were made, between a title and two rules,
    and the number of the entries left out when there are more than ten;
    for an empty history, one line. *)
Definition history_report (env : Env) (history : list HistoryEntry)
  : list string :=
  match history with
  | [] => ["No history available."]
  | _ =>
      let n := List.length history in
      let shown := skipn (n - 10) history in
      ([(Str.nl ++ "Calculation History:")%string; Str.repeat "-" 60]
         ++ flat_map (fun numbered => entry_lines env (fst numbered)
                                        (snd numbered))
              (combine (seq 1 (List.length shown)) shown)
         ++ (if (10 <? n)%nat
             then [("... (" ++ Str.of_nat (n - 10) ++ " more entries)")%string]
             else [])
         ++ [Str.repeat "-" 60])%list
  end.

(** How many lines [_show_history] prints for a history of [n] entries:
    one when it is empty; otherwise a title, two rules, two lines for
    each of the last ten entries and a line counting the entries left
    out. *)
Definition history_lines (n : nat) : nat :=
  match n with
  | O => 1
  | _ => 3 + 2 * Nat.min n 10 + (if (10 <? n)%nat then 1 else 0)
  end.

(** ** Fixtures

    The plugin of [tests/unit/test_plugins.py] and a small file system to
    load it from. *)

Module Fixture.

Fixpoint digits_value (s : string) (acc : Z) : option Z :=
  match s with
  | EmptyString => Some acc
  | String c s' =>
      let n := nat_of_ascii c in
      if ((48 <=? n) && (n <=? 57))%nat
      then digits_value s' (10 * acc + Z.of_nat (n - 48))%Z
      else None
  end.

(** [float] on the unsigned decimal integers; every other string is taken
    as not a number. *)
Definition decimal_float (s : string) : float + string :=
  match s, digits_value s 0 with
  | String _ _, Some z => inl (PrimFloat.of_uint63 (Uint63.of_Z z))
  | _, _ => inr ("could not convert string to float: '" ++ s ++ "'")
  end.

Definition TestCommand : Command :=
  OtherCommand
    {| m_execute := fun _ => Return (VStr "test");
       m_get_help := Return "test command";
       m_get_name := Return "test" |}.

Definition TestPlugin : Plugin.t :=
  {| Plugin.get_name := Return "Test Plugin";
     Plugin.get_version := Return "1.0.0";
     Plugin.get_description := Return "Test plugin";
     Plugin.get_commands := Return [TestCommand];
     Plugin.initialize := Plugin.default_initialize;
     Plugin.cleanup := Plugin.default_cleanup |}.

(** A module that imports [Plugin] and [Command] and defines one plugin
    class, whose instances behave as [plugin]. *)
Definition module_with (class_name : string) (plugin : Plugin.t)
  : py_module :=
  [("Command", OtherAttr); ("Plugin", PluginBase);
   (class_name, PluginSubclass (Return plugin))].

Definition plugin_dir : string := "plugins".

Definition file_path (file : string * result py_module) : string :=
  plugin_dir ++ "/" ++ fst file ++ ".py".

(** A file system whose only directory is [plugin_dir], holding one Python
    file per entry of [files]: the file name without [.py], and what
    running the file yields. [str] of a float is not spelled out: every
    float prints as the word [float]. *)
Definition file_env (files : list (string * result py_module)) : Env :=
  {| py_float := decimal_float;
     str_of_float := fun _ => "float";
     os_path_exists := fun p =>
       String.eqb p plugin_dir
       || existsb (fun f => String.eqb p (file_path f)) files;
     os_path_isdir := fun p => String.eqb p plugin_dir;
     os_path_isfile := fun p =>
       existsb (fun f => String.eqb p (file_path f)) files;
     os_listdir := fun d =>
       if String.eqb d plugin_dir
       then Return (map (fun f => fst f ++ ".py") files)
       else Raise (Exn OSError ("No such file or directory: '" ++ d ++ "'"));
     os_path_join := fun a b => a ++ "/" ++ b;
     os_path_dirname := fun _ => plugin_dir;
     spec_from_file_location := fun name _ =>
       match find (fun f => String.eqb (fst f) name) files with
       | Some f => Some {| loader := Some (snd f) |}
       | None => None
       end;
     import_module := fun _ name =>
       Raise (Exn ImportError ("No module named '" ++ name ++ "'"));
     default_plugin_dir := plugin_dir |}.

Definition world0 : World :=
  {| stdout := []; sys_path := []; hook_calls := [] |}.

(** The test's environment: [test_plugin.py] in the plugin directory. *)
Definition test_env : Env :=
  file_env [("test_plugin", Return (module_with "TestPlugin" TestPlugin))].

(** A plugin like [TestPlugin] with the given commands and hooks. *)
Definition plugin_with (commands : list Command)
  (initialize cleanup : result bool) : Plugin.t :=
  {| Plugin.get_name := Return "Example Plugin";
     Plugin.get_version := Return "0.1.0";
     Plugin.get_description := Return "Example plugin";
     Plugin.get_commands := Return commands;
     Plugin.initialize := initialize;
     Plugin.cleanup := cleanup |}.

(** A command like [TestCommand] with the given name and result. *)
Definition command_named (name : string) (out : value) : Command :=
  OtherCommand
    {| m_execute := fun _ => Return out;
       m_get_help := Return (name ++ " - example command");
       m_get_name := Return name |}.

(** [example.py] in the plugin directory, defining the given plugin. *)
Definition example_env (plugin : Plugin.t) : Env :=
  file_env [("example", Return (module_with "ExamplePlugin" plugin))].

Definition example_path : string := "plugins/example.py".

(** Two plugin files whose commands share the name [mean]. *)
Definition first_mean : Command := command_named "mean" (VStr "first").
Definition second_mean : Command := command_named "mean" (VStr "second").

Definition shared_name_env : Env :=
  file_env
    [("first",
      Return (module_with "FirstPlugin"
                (plugin_with [first_mean] Plugin.default_initialize
                   Plugin.default_cleanup)));
     ("second",
      Return (module_with "SecondPlugin"
                (plugin_with [second_mean] Plugin.default_initialize
                   Plugin.default_cleanup)))].

(** Plugins whose [cleanup] raises, and whose [cleanup] returns
    [False]. *)
Definition raising_cleanup_plugin : Plugin.t :=
  plugin_with [TestCommand] Plugin.default_initialize
    (Raise (Exn RuntimeError "cleanup failed")).

Definition failing_cleanup_plugin : Plugin.t :=
  plugin_with [TestCommand] Plugin.default_initialize (Return false).

(** A plugin whose command calls itself [Sqrt], with a capital. *)
Definition capital_sqrt : Command := command_named "Sqrt" (VStr "4.0").

Definition capital_plugin : Plugin.t :=
  plugin_with [capital_sqrt] Plugin.default_initialize
    Plugin.default_cleanup.

(** A plugin whose command [leave] returns the string [EXIT]. *)
Definition leave : Command := command_named "leave" (VStr "EXIT").

Definition leave_plugin : Plugin.t :=
  plugin_with [leave] Plugin.default_initialize Plugin.default_cleanup.

(** Two files that cannot be loaded: one raises when it runs, the other
    defines no plugin class. *)
Definition broken_env : Env :=
  file_env
    [("boom", Raise (Exn OtherException "boom"));
     ("empty", Return [("Plugin", PluginBase)])].

(** A plugin whose command [crash] raises a [RuntimeError]. *)
Definition crash : Command :=
  OtherCommand
    {| m_execute := fun _ => Raise (Exn RuntimeError "crash");
       m_get_help := Return "crash - example command";
       m_get_name := Return "crash" |}.

Definition crash_plugin : Plugin.t :=
  plugin_with [crash] Plugin.default_initialize Plugin.default_cleanup.

(** A library that refuses every argument: each [math] function raises
    its domain error, [pow] its [ZeroDivisionError], each [statistics]
    function its [StatisticsError]. *)
Definition refusing_library : Library :=
  {| builtin_pow := fun _ _ =>
       Raise (Exn ZeroDivisionError
                "0.0 cannot be raised to a negative power");
     math_log10 := fun _ => Raise (Exn ValueError "math domain error");
     math_log := fun _ => Raise (Exn ValueError "math domain error");
     math_sin := fun _ => Raise (Exn ValueError "math domain error");
     math_cos := fun _ => Raise (Exn ValueError "math domain error");
     math_tan := fun _ => Raise (Exn ValueError "math domain error");
     statistics_mean := fun _ =>
       Raise (Exn ValueError "mean requires at least one data point");
     statistics_median := fun _ =>
       Raise (Exn ValueError "no median for empty data");
     statistics_mode := fun _ =>
       Raise (Exn ValueError "no mode for empty data");
     statistics_stdev := fun _ =>
       Raise (Exn ValueError "variance requires at least two data points");
     statistics_variance := fun _ =>
       Raise (Exn ValueError "variance requires at least two data points") |}.

(** A plugin file that calls [sys.exit(1)] when it is run. *)
Definition exiting_env : Env :=
  file_env [("quitter", Raise (Exn SystemExit "1"))].


(** What discovery finds from a fresh manager. *)
Definition candidates (env : Env) : list (string * string) :=
  match PluginManager.discover_plugins env (PluginManager.init env None) with
  | Return found => found
  | Raise _ => []
  end.

(** A fresh manager in a fresh world. *)
Definition fresh (env : Env) : PluginManager.state :=
  (PluginManager.init env None, world0).

End Fixture.

(** * Properties *)

(** ** Strings *)

Lemma lower_ascii_idempotent (c : ascii) :
  Str.lower_ascii (Str.lower_ascii c) = Str.lower_ascii c.
Proof.
  destruct c as [[] [] [] [] [] [] [] []]; reflexivity.
Qed.

Lemma lower_idempotent (s : string) : Str.lower (Str.lower s) = Str.lower s.
Proof.
  induction s as [|c s IH]; simpl.
  - reflexivity.
  - now rewrite lower_ascii_idempotent, IH.
Qed.

(** ** Dictionaries *)

Section DictFacts.
Variable V : Type.
Implicit Types (d : Dict.t V) (k : string) (v : V).

Lemma get_set_eq k v d : Dict.get k (Dict.set k v d) = Some v.
Proof.
  induction d as [|[k' v'] d IH]; simpl.
  - now rewrite String.eqb_refl.
  - destruct (String.eqb k k') eqn:E; simpl; rewrite E; auto.
Qed.

Lemma get_set_ne k k' v d :
  k <> k' -> Dict.get k' (Dict.set k v d) = Dict.get k' d.
Proof.
  intros Hne. induction d as [|[k0 v0] d IH]; simpl.
  - destruct (String.eqb_spec k' k); congruence.
  - destruct (String.eqb_spec k k0) as [->|Hne0]; simpl; [|now rewrite IH].
    destruct (String.eqb_spec k' k0); congruence.
Qed.

Lemma mem_keys k d : Dict.mem k d = true <-> In k (Dict.keys d).
Proof.
  unfold Dict.mem. induction d as [|[k' v'] d IH]; simpl.
  - split; [discriminate | tauto].
  - destruct (String.eqb_spec k k') as [->|Hne].
    + tauto.
    + rewrite IH. split; [tauto | intros [H|H]; congruence].
Qed.

Lemma mem_false_keys k d : Dict.mem k d = false <-> ~ In k (Dict.keys d).
Proof.
  rewrite <- mem_keys. destruct (Dict.mem k d); split; congruence.
Qed.

Lemma get_none_mem k d : Dict.get k d = None <-> Dict.mem k d = false.
Proof.
  unfold Dict.mem. destruct (Dict.get k d); split; congruence.
Qed.

Lemma keys_set_present k v d :
  Dict.mem k d = true -> Dict.keys (Dict.set k v d) = Dict.keys d.
Proof.
  unfold Dict.mem. induction d as [|[k' v'] d IH]; simpl.
  - discriminate.
  - destruct (String.eqb k k'); simpl; intros H; [reflexivity|].
    now rewrite IH.
Qed.

Lemma keys_set_absent k v d :
  Dict.mem k d = false -> Dict.keys (Dict.set k v d) = (Dict.keys d ++ [k])%list.
Proof.
  unfold Dict.mem. induction d as [|[k' v'] d IH]; simpl.
  - reflexivity.
  - destruct (String.eqb k k'); simpl; intros H; [discriminate|].
    now rewrite IH.
Qed.

Lemma mem_set k k' v d :
  Dict.mem k' (Dict.set k v d) = String.eqb k k' || Dict.mem k' d.
Proof.
  unfold Dict.mem. destruct (String.eqb_spec k k') as [->|Hne].
  - now rewrite get_set_eq.
  - now rewrite get_set_ne.
Qed.

Lemma wf_set k v d : Dict.wf d -> Dict.wf (Dict.set k v d).
Proof.
  unfold Dict.wf. intros Hwf. destruct (Dict.mem k d) eqn:E.
  - now rewrite keys_set_present.
  - rewrite keys_set_absent by assumption.
    apply NoDup_app; [assumption | repeat constructor; simpl; tauto |].
    intros x Hx [<-|[]]. now apply mem_false_keys in E.
Qed.

Lemma set_set k v v' d : Dict.set k v (Dict.set k v' d) = Dict.set k v d.
Proof.
  induction d as [|[k0 v0] d IH]; simpl.
  - now rewrite String.eqb_refl.
  - destruct (String.eqb k k0) eqn:E; simpl; rewrite E; [reflexivity|].
    now rewrite IH.
Qed.

Lemma keys_del_subset k k' d :
  In k' (Dict.keys (Dict.del k d)) -> In k' (Dict.keys d).
Proof.
  induction d as [|[k0 v0] d IH]; simpl; [tauto|].
  destruct (String.eqb k k0); simpl; tauto.
Qed.

Lemma wf_del k d : Dict.wf d -> Dict.wf (Dict.del k d).
Proof.
  unfold Dict.wf. induction d as [|[k0 v0] d IH]; simpl; intros Hwf.
  - constructor.
  - inversion Hwf as [|? ? Hnotin Hrest]; subst.
    destruct (String.eqb k k0); simpl; [assumption|].
    constructor; [|now apply IH].
    intros Hin. apply Hnotin. eapply keys_del_subset, Hin.
Qed.

Lemma get_del_eq k d : Dict.wf d -> Dict.get k (Dict.del k d) = None.
Proof.
  unfold Dict.wf. induction d as [|[k0 v0] d IH]; simpl; intros Hwf.
  - reflexivity.
  - inversion Hwf as [|? ? Hnotin Hrest]; subst.
    destruct (String.eqb_spec k k0) as [->|Hne]; simpl.
    + apply get_none_mem, mem_false_keys, Hnotin.
    + destruct (String.eqb_spec k k0); [congruence | now apply IH].
Qed.

Lemma get_del_ne k k' d :
  k <> k' -> Dict.get k' (Dict.del k d) = Dict.get k' d.
Proof.
  intros Hne. induction d as [|[k0 v0] d IH]; simpl.
  - reflexivity.
  - destruct (String.eqb_spec k k0) as [->|Hne0]; simpl.
    + destruct (String.eqb_spec k' k0); congruence.
    + now rewrite IH.
Qed.

Lemma del_absent k d : Dict.mem k d = false -> Dict.del k d = d.
Proof.
  unfold Dict.mem. induction d as [|[k0 v0] d IH]; simpl.
  - reflexivity.
  - destruct (String.eqb k k0); [discriminate|].
    intros H. now rewrite IH.
Qed.

End DictFacts.

(** ** Running statements *)

Section Steps.
Variables (O A B : Type).
Implicit Types (o : O) (w : World).

Lemma bind_assoc_run (S' : Type) (m : M S' A) (k : A -> M S' B) (s : S') :
  bind m k s =
  match m s with
  | (Return a, s') => k a s'
  | (Raise e, s') => (Raise e, s')
  end.
Proof. reflexivity. Qed.

Lemma run_lift_return (a : A) (k : A -> M (O * World) B) o w :
  bind (lift (Return a)) k (o, w) = k a (o, w).
Proof. reflexivity. Qed.

Lemma run_lift_raise (e : exn) (k : A -> M (O * World) B) o w :
  bind (lift (Raise e)) k (o, w) = (Raise e, (o, w)).
Proof. reflexivity. Qed.

Lemma run_ret (a : A) (k : A -> M (O * World) B) o w :
  bind (ret a) k (o, w) = k a (o, w).
Proof. reflexivity. Qed.

Lemma run_raise (e : exn) (k : A -> M (O * World) B) o w :
  bind (raise e) k (o, w) = (Raise e, (o, w)).
Proof. reflexivity. Qed.

Lemma run_update (f : O -> O) (k : unit -> M (O * World) B) o w :
  bind (update f) k (o, w) = k tt (f o, w).
Proof. reflexivity. Qed.

Lemma run_print (line : string) (k : unit -> M (O * World) B) o w :
  bind (print line) k (o, w) = k tt (o, world_print line w).
Proof. reflexivity. Qed.

Lemma run_self (k : O -> M (O * World) B) o w :
  bind self k (o, w) = k o (o, w).
Proof. reflexivity. Qed.

Lemma run_hook_return (h : hook_call) (b : bool)
  (k : bool -> M (O * World) B) o w :
  bind (call_hook h (Return b)) k (o, w) = k b (o, world_log_hook h w).
Proof. reflexivity. Qed.

Lemma run_hook_raise (h : hook_call) (e : exn)
  (k : bool -> M (O * World) B) o w :
  bind (call_hook h (Raise e)) k (o, w) = (Raise e, (o, world_log_hook h w)).
Proof. reflexivity. Qed.

End Steps.

Ltac run :=
  repeat first
    [ rewrite run_lift_return | rewrite run_lift_raise | rewrite run_ret
    | rewrite run_raise | rewrite run_update | rewrite run_print
    | rewrite run_self | rewrite run_hook_return | rewrite run_hook_raise ].

(** ** The plugin manager *)

Section ManagerFacts.
Variable env : Env.
Implicit Types (m : PluginManager.t) (w : World).

Import PluginManager.

(** Loading a module leaves the manager and the world as they were:
    [sys.path] is put back on every path out of the import. *)
Lemma load_module_spec plugin_name plugin_path m w :
  load_module env plugin_name plugin_path (m, w) =
  (module_of env (sys_path w) plugin_name plugin_path, (m, w)).
Proof.
  unfold load_module, module_of.
  destruct (os_path_isfile env plugin_path).
  - destruct (spec_from_file_location env plugin_name plugin_path)
      as [[[exec|]]|]; reflexivity.
  - unfold bind, sys_path_insert0, modify, try_finally, get_state, lift,
      sys_path_pop0; simpl.
    destruct (import_module env _ plugin_name); reflexivity.
Qed.

(** The registration loop of [load_plugin]: it stores the commands it
    reaches, and raises what the first failing [get_name] raises. *)
Lemma register_loop_spec (commands : list Command) m w :
  for_each commands
    (fun command =>
       command_name <- lift (get_name command) ;;
       update (with_plugin_commands (Dict.set command_name command)))
    (m, w) =
  (match result_map get_name commands with
   | Return _ => Return tt
   | Raise e => Raise e
   end,
   (with_plugin_commands (assign_all (registered commands)) m, w)).
Proof.
  revert m. induction commands as [|c rest IH]; intros m; simpl.
  - reflexivity.
  - rewrite bind_assoc_run.
    destruct (get_name c) as [name|e]; run.
    + unfold update at 1, modify; simpl.
      rewrite IH.
      destruct (result_map get_name rest); reflexivity.
    + reflexivity.
Qed.

(** [load_plugin]'s [try] block, step by step: where it stops and what it
    has assigned by then. *)
Lemma load_plugin_body_nf plugin_name plugin_path m w :
  load_plugin_body env plugin_name plugin_path (m, w) =
  match plugin_of env (sys_path w) plugin_name plugin_path with
  | Raise e => (Raise e, (m, w))
  | Return plugin =>
      let w1 := world_log_hook (CalledInitialize plugin_name) w in
      match Plugin.initialize plugin with
      | Raise e => (Raise e, (m, w1))
      | Return false =>
          (Raise (Exn RuntimeError
                    ("Failed to initialize plugin " ++ plugin_name)),
           (m, w1))
      | Return true =>
          let m1 := with_loaded_plugins (Dict.set plugin_name plugin) m in
          match
            (name <- Plugin.get_name plugin ;;
             version <- Plugin.get_version plugin ;;
             description <- Plugin.get_description plugin ;;
             Return (name, version, description))%res
          with
          | Raise e => (Raise e, (m1, w1))
          | Return (name, version, description) =>
              let m2 :=
                with_plugin_info
                  (Dict.set plugin_name
                     {| info_name := name;
                        info_version := version;
                        info_description := description;
                        info_path := plugin_path |}) m1 in
              match Plugin.get_commands plugin with
              | Raise e => (Raise e, (m2, w1))
              | Return commands =>
                  let m3 :=
                    with_plugin_commands
                      (assign_all (registered commands)) m2 in
                  match result_map get_name commands with
                  | Raise e => (Raise e, (m3, w1))
                  | Return _ =>
                      (Return true,
                       (m3,
                        world_print
                          ("Loaded plugin: " ++ name ++ " v" ++ version)
                          w1))
                  end
              end
          end
      end
  end.
Proof.
  unfold load_plugin_body.
  rewrite bind_assoc_run, load_module_spec.
  unfold plugin_of, result_bind.
  destruct (module_of env (sys_path w) plugin_name plugin_path)
    as [module|e]; [|reflexivity].
  destruct (_find_plugin_class module) as [cls|]; run; [|reflexivity].
  destruct cls as [plugin|e]; run; [|reflexivity].
  destruct (Plugin.initialize plugin) as [[|]|e]; run;
    [|reflexivity|reflexivity].
  cbn [negb]. run.
  destruct (Plugin.get_name plugin) as [name|e]; run; [|reflexivity].
  destruct (Plugin.get_version plugin) as [version|e]; run; [|reflexivity].
  destruct (Plugin.get_description plugin) as [description|e]; run;
    [|reflexivity].
  destruct (Plugin.get_commands plugin) as [commands|e]; run; [|reflexivity].
  rewrite bind_assoc_run, register_loop_spec.
  destruct (result_map get_name commands); [|reflexivity].
  run. reflexivity.
Qed.

(** [load_plugin] is its [try] block with every instance of [Exception]
    turned into a printed line and [False]; anything else goes through. *)
Lemma load_plugin_run plugin_name plugin_path (s : state) :
  load_plugin env plugin_name plugin_path s =
  match load_plugin_body env plugin_name plugin_path s with
  | (Return b, s') => (Return b, s')
  | (Raise e, s') =>
      if is_Exception e then
        (Return false,
         (fst s',
          world_print
            ("Failed to load plugin " ++ plugin_name ++ ": " ++ exn_msg e)
            (snd s')))
      else (Raise e, s')
  end.
Proof.
  unfold load_plugin, try_except.
  destruct (load_plugin_body env plugin_name plugin_path s) as [[b|e] s'];
    [reflexivity|].
  destruct (is_Exception e); reflexivity.
Qed.

(** What leaves [load_plugin] is not an instance of [Exception]. *)
Lemma load_plugin_raises plugin_name plugin_path (s s' : state) (e : exn) :
  load_plugin env plugin_name plugin_path s = (Raise e, s') ->
  is_Exception e = false /\
  load_plugin_body env plugin_name plugin_path s = (Raise e, s').
Proof.
  rewrite load_plugin_run.
  destruct (load_plugin_body env plugin_name plugin_path s) as [[b|e'] s1];
    [discriminate|].
  destruct (is_Exception e') eqn:He; [discriminate|].
  intros [= <- <-]. now split.
Qed.

(** The loop of [load_all_plugins]: when every load returns, it ends in
    the state the sequence of loads ends in, with each returned boolean
    assigned under its candidate's name, in order; otherwise it raises what
    the first load that does not return raises, which is no instance of
    [Exception]. *)
Lemma load_each_spec (candidates : list (string * string)) :
  forall (results : Dict.t bool) (s : state),
  match load_each env candidates results s with
  | (Return results', s') =>
      Forall (fun r => exists b, r = Return b)
        (fst (load_sequence env candidates s)) /\
      s' = snd (load_sequence env candidates s) /\
      results' =
        assign_all
          (returned (map fst candidates)
             (fst (load_sequence env candidates s)))
          results
  | (Raise e, _) =>
      is_Exception e = false /\
      In (Raise e) (fst (load_sequence env candidates s))
  end.
Proof.
  induction candidates as [|[n p] rest IH]; intros results s; simpl.
  - repeat split. constructor.
  - rewrite bind_assoc_run.
    destruct (load_plugin env n p s) as [[b|e] s1] eqn:Hload.
    + specialize (IH (Dict.set n b results) s1).
      destruct (load_each env rest (Dict.set n b results) s1)
        as [[results'|e] s'];
        destruct (load_sequence env rest s1) as [rs s2]; simpl in *.
      * destruct IH as (Hall & -> & ->). repeat split.
        constructor; [now exists b | exact Hall].
      * destruct IH as [He Hin]. split; [exact He | now right].
    + apply load_plugin_raises in Hload. destruct Hload as [He _].
      destruct (load_sequence env rest s1) as [rs s2]; simpl.
      split; [exact He | now left].
Qed.


(** *** What a run of [load_plugin] leaves behind *)

Lemma registered_names (commands : list Command) (names : list string) :
  result_map get_name commands = Return names ->
  map fst (registered commands) = names.
Proof.
  revert names. induction commands as [|c rest IH]; intros names; simpl.
  - intros H. now inversion H.
  - destruct (get_name c) as [name|e]; simpl; [|discriminate].
    destruct (result_map get_name rest) as [ns|e]; simpl; [|discriminate].
    intros H. inversion H; subst. simpl. f_equal. now apply IH.
Qed.

Lemma registered_keyed (commands : list Command) :
  Forall (fun kc => get_name (snd kc) = Return (fst kc)) (registered commands).
Proof.
  induction commands as [|c rest IH]; simpl; [constructor|].
  destruct (get_name c) as [name|e] eqn:E; constructor; assumption.
Qed.

Lemma registrations_keyed sp (candidate : string * string) :
  Forall (fun kc => get_name (snd kc) = Return (fst kc))
    (registrations env sp candidate).
Proof.
  unfold registrations.
  destruct (plugin_of env sp (fst candidate) (snd candidate)) as [plugin|e];
    [|constructor].
  destruct (Plugin.initialize plugin) as [[|]|]; try constructor.
  destruct (Plugin.get_name plugin); try constructor.
  destruct (Plugin.get_version plugin); try constructor.
  destruct (Plugin.get_description plugin); try constructor.
  destruct (Plugin.get_commands plugin); try constructor.
  apply registered_keyed.
Qed.

Ltac no_load :=
  cbn [result_bind]; cbv beta iota zeta;
  try match goal with
      | |- context [is_Exception ?e] => destruct (is_Exception e)
      end;
  discriminate.

Ltac done_load :=
  cbn [result_bind]; cbv beta iota zeta;
  try match goal with
      | |- context [is_Exception ?e] => destruct (is_Exception e)
      end;
  do 3 eexists; repeat split; reflexivity.

(** One load, whatever its outcome: [sys.path] and the directories are as
    before, and [plugin_commands] has received the run's registrations. *)
Lemma load_plugin_commands plugin_name plugin_path m w :
  exists r m' w',
    load_plugin env plugin_name plugin_path (m, w) = (r, (m', w')) /\
    sys_path w' = sys_path w /\
    plugin_dirs m' = plugin_dirs m /\
    plugin_commands m' =
      assign_all (registrations env (sys_path w) (plugin_name, plugin_path))
        (plugin_commands m).
Proof.
  rewrite load_plugin_run, load_plugin_body_nf.
  unfold registrations; cbn [fst snd].
  destruct (plugin_of env (sys_path w) plugin_name plugin_path)
    as [plugin|e]; [|done_load].
  destruct (Plugin.initialize plugin) as [[|]|e]; [|done_load..].
  destruct (Plugin.get_name plugin) as [name|e]; [|done_load].
  destruct (Plugin.get_version plugin) as [version|e]; [|done_load].
  destruct (Plugin.get_description plugin) as [description|e];
    [|done_load].
  cbn [result_bind].
  destruct (Plugin.get_commands plugin) as [commands|e]; [|done_load].
  cbv zeta.
  destruct (result_map get_name commands); done_load.
Qed.

(** A load that returns [True] got through every step. *)
Lemma load_plugin_success plugin_name plugin_path m w m' w' :
  load_plugin env plugin_name plugin_path (m, w) = (Return true, (m', w')) ->
  exists plugin name version description commands names,
    plugin_of env (sys_path w) plugin_name plugin_path = Return plugin /\
    Plugin.initialize plugin = Return true /\
    Plugin.get_name plugin = Return name /\
    Plugin.get_version plugin = Return version /\
    Plugin.get_description plugin = Return description /\
    Plugin.get_commands plugin = Return commands /\
    result_map get_name commands = Return names /\
    m' =
      with_plugin_commands (assign_all (registered commands))
        (with_plugin_info
           (Dict.set plugin_name
              {| info_name := name;
                 info_version := version;
                 info_description := description;
                 info_path := plugin_path |})
           (with_loaded_plugins (Dict.set plugin_name plugin) m)) /\
    w' =
      world_print ("Loaded plugin: " ++ name ++ " v" ++ version)
        (world_log_hook (CalledInitialize plugin_name) w).
Proof.
  rewrite load_plugin_run, load_plugin_body_nf.
  destruct (plugin_of env (sys_path w) plugin_name plugin_path)
    as [plugin|e] eqn:Hplugin; [|no_load].
  destruct (Plugin.initialize plugin) as [[|]|e] eqn:Hinit; [|no_load..].
  destruct (Plugin.get_name plugin) as [name|e] eqn:Hname; [|no_load].
  destruct (Plugin.get_version plugin) as [version|e] eqn:Hversion;
    [|no_load].
  destruct (Plugin.get_description plugin) as [description|e] eqn:Hdescr;
    [|no_load].
  cbn [result_bind].
  destruct (Plugin.get_commands plugin) as [commands|e] eqn:Hcommands;
    [|no_load].
  cbv zeta.
  destruct (result_map get_name commands) as [names|e] eqn:Hnames;
    [|no_load].
  intros [= <- <-].
  exists plugin, name, version, description, commands, names.
  repeat split; assumption || reflexivity.
Qed.

(** *** Assigning and deleting several keys *)

Lemma assign_all_cons (V : Type) k c regs (d : Dict.t V) :
  assign_all ((k, c) :: regs) d = assign_all regs (Dict.set k c d).
Proof. reflexivity. Qed.

Lemma delete_all_cons k names (d : Dict.t Command) :
  delete_all (k :: names) d = delete_all names (Dict.del k d).
Proof. reflexivity. Qed.

Lemma assign_all_app (V : Type) regs1 regs2 (d : Dict.t V) :
  assign_all (regs1 ++ regs2)%list d = assign_all regs2 (assign_all regs1 d).
Proof. apply fold_left_app. Qed.

Lemma wf_assign_all (V : Type) regs (d : Dict.t V) :
  Dict.wf d -> Dict.wf (assign_all regs d).
Proof.
  revert d. induction regs as [|[k c] rest IH]; intros d Hwf.
  - exact Hwf.
  - rewrite assign_all_cons. apply IH, wf_set, Hwf.
Qed.

Lemma get_assign_all (V : Type) k regs (d : Dict.t V) :
  Dict.get k (assign_all regs d) =
  match last_named k regs with
  | Some c => Some c
  | None => Dict.get k d
  end.
Proof.
  revert d. induction regs as [|[k' c] rest IH]; intros d.
  - reflexivity.
  - rewrite assign_all_cons, IH. simpl.
    destruct (last_named k rest); [reflexivity|].
    destruct (String.eqb_spec k k') as [->|Hne].
    + apply get_set_eq.
    + apply get_set_ne. congruence.
Qed.

Lemma mem_assign_all (V : Type) k regs (d : Dict.t V) :
  Dict.mem k (assign_all regs d) = true <->
  Dict.mem k d = true \/ In k (map fst regs).
Proof.
  revert d. induction regs as [|[k' c] rest IH]; intros d.
  - simpl. tauto.
  - rewrite assign_all_cons, IH, mem_set. simpl.
    destruct (String.eqb_spec k' k) as [->|Hne]; simpl; [tauto|].
    intuition congruence.
Qed.

Lemma keys_assign_all_present regs (d : Dict.t Command) :
  (forall k, In k (map fst regs) -> Dict.mem k d = true) ->
  Dict.keys (assign_all regs d) = Dict.keys d.
Proof.
  revert d. induction regs as [|[k' c] rest IH]; intros d Hin.
  - reflexivity.
  - rewrite assign_all_cons, IH.
    + apply keys_set_present, Hin. simpl. tauto.
    + intros k Hk. rewrite mem_set. rewrite (Hin k); [|simpl; tauto].
      apply orb_true_r.
Qed.

Lemma get_del_none k k' (d : Dict.t Command) :
  Dict.get k d = None -> Dict.get k (Dict.del k' d) = None.
Proof.
  intros H. destruct (String.eqb_spec k' k) as [->|Hne].
  - rewrite del_absent; [exact H | now apply get_none_mem].
  - now rewrite get_del_ne.
Qed.

Lemma get_delete_all_none k names (d : Dict.t Command) :
  Dict.get k d = None -> Dict.get k (delete_all names d) = None.
Proof.
  revert d. induction names as [|k' rest IH]; intros d H.
  - exact H.
  - rewrite delete_all_cons. apply IH, get_del_none, H.
Qed.

Lemma get_delete_all_in k names (d : Dict.t Command) :
  Dict.wf d -> In k names -> Dict.get k (delete_all names d) = None.
Proof.
  revert d. induction names as [|k' rest IH]; intros d Hwf Hin.
  - destruct Hin.
  - rewrite delete_all_cons. destruct (String.eqb_spec k' k) as [->|Hne].
    + apply get_delete_all_none, get_del_eq, Hwf.
    + destruct Hin as [Heq|Hin]; [congruence|].
      apply IH; [apply wf_del, Hwf | exact Hin].
Qed.

Lemma get_delete_all_notin k names (d : Dict.t Command) :
  ~ In k names -> Dict.get k (delete_all names d) = Dict.get k d.
Proof.
  revert d. induction names as [|k' rest IH]; intros d Hnotin.
  - reflexivity.
  - rewrite delete_all_cons, IH by (simpl in Hnotin; tauto).
    apply get_del_ne. simpl in Hnotin. intros ->. tauto.
Qed.

Lemma wf_delete_all names (d : Dict.t Command) :
  Dict.wf d -> Dict.wf (delete_all names d).
Proof.
  revert d. induction names as [|k' rest IH]; intros d Hwf.
  - exact Hwf.
  - rewrite delete_all_cons. apply IH, wf_del, Hwf.
Qed.

(** *** Unloading *)

(** The removal loop of [unload_plugin]: it deletes the names it reaches,
    and raises what the first failing [get_name] raises. *)
Lemma unregister_loop_spec (commands : list Command) m w :
  for_each commands
    (fun command =>
       command_name <- lift (get_name command) ;;
       m1 <- self ;;
       if Dict.mem command_name (plugin_commands m1)
       then update (with_plugin_commands (Dict.del command_name))
       else ret tt)
    (m, w) =
  (match result_map get_name commands with
   | Return _ => Return tt
   | Raise e => Raise e
   end,
   (with_plugin_commands (delete_all (map fst (registered commands))) m, w)).
Proof.
  revert m. induction commands as [|c rest IH]; intros m; simpl.
  - reflexivity.
  - rewrite bind_assoc_run.
    destruct (get_name c) as [name|e]; run; [|reflexivity].
    destruct (Dict.mem name (plugin_commands m)) eqn:Hmem.
    + unfold update at 1, modify; simpl. rewrite IH.
      destruct (result_map get_name rest); reflexivity.
    + unfold ret at 1. rewrite IH. unfold with_plugin_commands.
      simpl map. rewrite delete_all_cons, (del_absent _ _ Hmem).
      destruct (result_map get_name rest); reflexivity.
Qed.

(** [unload_plugin] on a loaded plugin, step by step. *)
Lemma unload_plugin_nf plugin_name plugin m w :
  Dict.get plugin_name (loaded_plugins m) = Some plugin ->
  unload_plugin plugin_name (m, w) =
  let w1 := world_log_hook (CalledCleanup plugin_name) w in
  let failed (e : exn) (m' : t) :=
    if is_Exception e then
      (Return false,
       (m',
        world_print
          ("Error unloading plugin " ++ plugin_name ++ ": " ++ exn_msg e)
          w1))
    else (Raise e, (m', w1))
  in
  match Plugin.cleanup plugin with
  | Raise e => failed e m
  | Return _ =>
      match Plugin.get_commands plugin with
      | Raise e => failed e m
      | Return commands =>
          let m1 :=
            with_plugin_commands
              (delete_all (map fst (registered commands))) m in
          match result_map get_name commands with
          | Raise e => failed e m1
          | Return _ =>
              let m2 := with_loaded_plugins (Dict.del plugin_name) m1 in
              if Dict.mem plugin_name (plugin_info m)
              then
                (Return true,
                 (with_plugin_info (Dict.del plugin_name) m2, w1))
              else
                failed (Exn KeyError ("'" ++ plugin_name ++ "'")) m2
          end
      end
  end.
Proof.
  intros Hloaded.
  unfold unload_plugin. run.
  unfold Dict.mem at 1. rewrite Hloaded. cbn [negb].
  unfold try_except, unload_plugin_body. run.
  unfold getitem. rewrite Hloaded. run.
  destruct (Plugin.cleanup plugin) as [b|e]; run;
    [|destruct (is_Exception e); reflexivity].
  destruct (Plugin.get_commands plugin) as [commands|e]; run;
    [|destruct (is_Exception e); reflexivity].
  rewrite bind_assoc_run, unregister_loop_spec.
  destruct (result_map get_name commands) as [names|e];
    [|destruct (is_Exception e); reflexivity].
  run. unfold delitem.
  cbn [loaded_plugins with_plugin_commands].
  unfold Dict.mem at 1. rewrite Hloaded. run.
  cbn [plugin_info with_loaded_plugins with_plugin_commands].
  destruct (Dict.mem plugin_name (plugin_info m)); run; reflexivity.
Qed.

End ManagerFacts.

(** * The claims *)

Unset Implicit Arguments.

Lemma load_sequence_length (env : Env) (candidates : list (string * string)) :
  forall s,
    List.length (fst (load_sequence env candidates s)) =
    List.length candidates.
Proof.
  induction candidates as [|[n p] rest IH]; intros s; simpl.
  - reflexivity.
  - destruct (PluginManager.load_plugin env n p s) as [r s1].
    specialize (IH s1). destruct (load_sequence env rest s1). simpl in *.
    now rewrite IH.
Qed.

Lemma returned_names (names : list string) :
  forall outcomes,
    Forall (fun r => exists b : bool, r = Return b) outcomes ->
    List.length outcomes = List.length names ->
    map fst (returned names outcomes) = names.
Proof.
  induction names as [|n names IH]; intros outcomes Hall Hlen.
  - reflexivity.
  - destruct outcomes as [|r outcomes]; [discriminate Hlen|].
    inversion Hall as [|? ? [b ->] Hrest]; subst. simpl.
    f_equal. apply IH; [exact Hrest|]. simpl in Hlen. congruence.
Qed.



(** With nothing but broken files, every load fails and the map still
    holds a boolean for each. *)
Example every_load_fails :
  let env := Fixture.broken_env in
  let run := PluginManager.load_all_plugins env (Fixture.fresh env) in
  fst run = Return [("boom", false); ("empty", false)] /\
  stdout (snd (snd run)) =
    ["Failed to load plugin boom: boom";
     "Failed to load plugin empty: No Plugin class found in empty"] /\
  PluginManager.loaded_plugins (fst (snd run)) = [].
Proof. repeat split. Qed.



(** An [initialize] that ends the interpreter: [sys.exit(1)] raises
    [SystemExit], which passes the [except Exception] clause of
    [load_plugin]. Nothing was recorded. *)
Example exit_in_initialize_leaves_load_plugin :
  let plugin :=
    Fixture.plugin_with [Fixture.TestCommand] (Raise (Exn SystemExit "1"))
      Plugin.default_cleanup in
  let env := Fixture.example_env plugin in
  plugin_of env (sys_path Fixture.world0) "example" Fixture.example_path =
    Return plugin /\
  Plugin.initialize plugin = Raise (Exn SystemExit "1") /\
  PluginManager.load_plugin env "example" Fixture.example_path
    (Fixture.fresh env) =
    (Raise (Exn SystemExit "1"),
     (PluginManager.init env None,
      world_log_hook (CalledInitialize "example") Fixture.world0)).
Proof. repeat split. Qed.

(** C6. For a name that is not a key of [loaded_plugins], [unload_plugin]
    returns [False] and changes nothing: the manager and the world are the
    ones it started from, so no [cleanup] was called and nothing was
    printed. *)
Theorem unload_of_unknown_name_changes_nothing (plugin_name : string)
  (m : PluginManager.t) (w : World) :
  Dict.mem plugin_name (PluginManager.loaded_plugins m) = false ->
  PluginManager.unload_plugin plugin_name (m, w) = (Return false, (m, w)).
Proof.
  intros Hmem. unfold PluginManager.unload_plugin. run.
  rewrite Hmem. reflexivity.
Qed.

Lemma unload_of_unknown_name_example :
  let s :=
    snd (PluginManager.load_plugin Fixture.test_env "test_plugin"
           "plugins/test_plugin.py" (Fixture.fresh Fixture.test_env)) in
  PluginManager.unload_plugin "never_loaded" (fst s, snd s) =
  (Return false, (fst s, snd s)).
Proof.
  apply unload_of_unknown_name_changes_nothing. reflexivity.
Defined.

(** C7. Loading again a candidate that has just loaded successfully, from
    the same source, succeeds again and leaves the same names in place:
    the keys of [plugin_commands], [loaded_plugins] and [plugin_info] are
    the same lists as after the first load, and every name of
    [plugin_commands] still answers with the command it answered with. *)
Theorem reload_keeps_the_same_names (env : Env)
  (plugin_name plugin_path : string) (m m1 : PluginManager.t)
  (w w1 : World) :
  PluginManager.load_plugin env plugin_name plugin_path (m, w) =
    (Return true, (m1, w1)) ->
  exists m2 w2,
    PluginManager.load_plugin env plugin_name plugin_path (m1, w1) =
      (Return true, (m2, w2)) /\
    Dict.keys (PluginManager.plugin_commands m2) =
      Dict.keys (PluginManager.plugin_commands m1) /\
    Dict.keys (PluginManager.loaded_plugins m2) =
      Dict.keys (PluginManager.loaded_plugins m1) /\
    Dict.keys (PluginManager.plugin_info m2) =
      Dict.keys (PluginManager.plugin_info m1) /\
    (forall k, Dict.get k (PluginManager.plugin_commands m2) =
               Dict.get k (PluginManager.plugin_commands m1)).
Proof.
  intros Hfirst.
  apply load_plugin_success in Hfirst.
  destruct Hfirst
    as (plugin & name & version & description & commands & names
        & Hplugin & Hinit & Hname & Hversion & Hdescr & Hcommands & Hnames
        & -> & ->).
  rewrite load_plugin_run, load_plugin_body_nf.
  cbn [sys_path world_print world_log_hook].
  rewrite Hplugin, Hinit, Hname, Hversion, Hdescr.
  cbn [result_bind]. rewrite Hcommands. cbv zeta. rewrite Hnames.
  do 2 eexists. split; [reflexivity|].
  cbn [PluginManager.plugin_commands PluginManager.loaded_plugins
       PluginManager.plugin_info PluginManager.with_plugin_commands
       PluginManager.with_plugin_info PluginManager.with_loaded_plugins].
  rewrite !set_set.
  repeat split; try reflexivity.
  - apply keys_assign_all_present.
    intros k Hk. apply mem_assign_all. right. exact Hk.
  - intros k. rewrite get_assign_all.
    destruct (last_named k (registered commands)) as [c|] eqn:Hlast;
      [|reflexivity].
    now rewrite get_assign_all, Hlast.
Qed.

Lemma reload_keeps_the_same_names_example :
  let env := Fixture.test_env in
  let s1 :=
    snd (PluginManager.load_plugin env "test_plugin"
           "plugins/test_plugin.py" (Fixture.fresh env)) in
  exists m2 w2,
    PluginManager.load_plugin env "test_plugin" "plugins/test_plugin.py"
      (fst s1, snd s1) = (Return true, (m2, w2)) /\
    Dict.keys (PluginManager.plugin_commands m2) =
      Dict.keys (PluginManager.plugin_commands (fst s1)) /\
    Dict.keys (PluginManager.loaded_plugins m2) =
      Dict.keys (PluginManager.loaded_plugins (fst s1)) /\
    Dict.keys (PluginManager.plugin_info m2) =
      Dict.keys (PluginManager.plugin_info (fst s1)) /\
    (forall k, Dict.get k (PluginManager.plugin_commands m2) =
               Dict.get k (PluginManager.plugin_commands (fst s1))).
Proof.
  apply (reload_keeps_the_same_names Fixture.test_env "test_plugin"
           "plugins/test_plugin.py"
           (PluginManager.init Fixture.test_env None) _ Fixture.world0 _).
  reflexivity.
Defined.

(** A sequence of loads amounts to the assignments of its runs, one run
    after the other. *)
Lemma load_sequence_commands (env : Env)
  (candidates : list (string * string)) :
  forall (m : PluginManager.t) (w : World),
    let s' := snd (load_sequence env candidates (m, w)) in
    sys_path (snd s') = sys_path w /\
    PluginManager.plugin_commands (fst s') =
      assign_all (flat_map (registrations env (sys_path w)) candidates)
        (PluginManager.plugin_commands m).
Proof.
  induction candidates as [|[n p] rest IH]; intros m w; simpl.
  - split; reflexivity.
  - destruct (load_plugin_commands env n p m w)
      as (b & m1 & w1 & Hload & Hpath & _ & Hcommands).
    rewrite Hload.
    specialize (IH m1 w1). simpl in IH.
    destruct (load_sequence env rest (m1, w1)) as [rs s2]. simpl in *.
    destruct IH as [IHpath IHcommands]. split.
    + congruence.
    + rewrite IHcommands, Hcommands, Hpath. symmetry. apply assign_all_app.
Qed.

Lemma Forall_flat_map {A B : Type} (P : B -> Prop) (f : A -> list B)
  (l : list A) :
  (forall a, Forall P (f a)) -> Forall P (flat_map f l).
Proof.
  intros H. induction l as [|a l IH]; simpl.
  - constructor.
  - apply Forall_app. split; [apply H | exact IH].
Qed.

(** C2. After any sequence of plugin loads, [plugin_commands] holds one
    entry per name; every command a run registered went in under its own
    [get_name()]; the names present are the ones present before and the
    ones registered; and under each registered name sits the command that
    was registered last under it, whichever plugin it came from. [regs]
    lists the registrations of the runs in order. *)
Theorem last_registered_command_wins (env : Env)
  (candidates : list (string * string)) (m : PluginManager.t) (w : World) :
  Dict.wf (PluginManager.plugin_commands m) ->
  let m' := fst (snd (load_sequence env candidates (m, w))) in
  let regs := flat_map (registrations env (sys_path w)) candidates in
  Dict.wf (PluginManager.plugin_commands m') /\
  Forall (fun kc => get_name (snd kc) = Return (fst kc)) regs /\
  (forall k, Dict.mem k (PluginManager.plugin_commands m') = true <->
             Dict.mem k (PluginManager.plugin_commands m) = true \/
             In k (map fst regs)) /\
  (forall k, Dict.get k (PluginManager.plugin_commands m') =
             match last_named k regs with
             | Some c => Some c
             | None => Dict.get k (PluginManager.plugin_commands m)
             end).
Proof.
  intros Hwf m' regs.
  destruct (load_sequence_commands env candidates m w) as [_ Hcommands].
  fold m' in Hcommands. fold regs in Hcommands.
  rewrite Hcommands. repeat split.
  - apply wf_assign_all, Hwf.
  - apply Forall_flat_map. intros c. apply registrations_keyed.
  - apply mem_assign_all.
  - apply mem_assign_all.
  - intros k. apply get_assign_all.
Qed.

Lemma last_registered_command_wins_example :
  let env := Fixture.shared_name_env in
  let m := PluginManager.init env None in
  let candidates := Fixture.candidates env in
  let m' := fst (snd (load_sequence env candidates (m, Fixture.world0))) in
  let regs := flat_map (registrations env []) candidates in
  Dict.wf (PluginManager.plugin_commands m') /\
  Forall (fun kc => get_name (snd kc) = Return (fst kc)) regs /\
  (forall k, Dict.mem k (PluginManager.plugin_commands m') = true <->
             Dict.mem k (PluginManager.plugin_commands m) = true \/
             In k (map fst regs)) /\
  (forall k, Dict.get k (PluginManager.plugin_commands m') =
             match last_named k regs with
             | Some c => Some c
             | None => Dict.get k (PluginManager.plugin_commands m)
             end).
Proof.
  apply (last_registered_command_wins Fixture.shared_name_env
           (Fixture.candidates Fixture.shared_name_env)
           (PluginManager.init Fixture.shared_name_env None)
           Fixture.world0).
  constructor.
Defined.

(** The two files load in directory order, and [mean] ends up with the
    second file's command. *)
Example second_plugin_takes_the_shared_name :
  let env := Fixture.shared_name_env in
  let m := PluginManager.init env None in
  let candidates := Fixture.candidates env in
  let m' := fst (snd (load_sequence env candidates (m, Fixture.world0))) in
  candidates =
    [("first", "plugins/first.py"); ("second", "plugins/second.py")] /\
  Dict.keys (PluginManager.plugin_commands m') = ["mean"] /\
  last_named "mean" (flat_map (registrations env []) candidates) =
    Some Fixture.second_mean /\
  Dict.keys (PluginManager.loaded_plugins m') = ["first"; "second"].
Proof. repeat split. Qed.

(** C3, as the code has it. For a loaded plugin whose [cleanup],
    [get_commands] and commands' [get_name] return without raising,
    [unload_plugin] removes from [plugin_commands] exactly the names that
    [get_commands] reports (whatever command sits under them when it
    runs), leaves every other name as it was, and deletes the plugin's
    entries from [loaded_plugins] and [plugin_info], leaving the other
    plugins' entries alone. *)
Theorem unload_removes_the_reported_names (plugin_name : string)
  (m : PluginManager.t) (w : World) (plugin : Plugin.t) (cleaned : bool)
  (commands : list Command) (names : list string) :
  Dict.wf (PluginManager.plugin_commands m) ->
  Dict.wf (PluginManager.loaded_plugins m) ->
  Dict.wf (PluginManager.plugin_info m) ->
  Dict.get plugin_name (PluginManager.loaded_plugins m) = Some plugin ->
  Plugin.cleanup plugin = Return cleaned ->
  Plugin.get_commands plugin = Return commands ->
  result_map get_name commands = Return names ->
  exists r m' w',
    PluginManager.unload_plugin plugin_name (m, w) = (Return r, (m', w')) /\
    (forall k, In k names ->
               Dict.get k (PluginManager.plugin_commands m') = None) /\
    (forall k, ~ In k names ->
               Dict.get k (PluginManager.plugin_commands m') =
               Dict.get k (PluginManager.plugin_commands m)) /\
    Dict.get plugin_name (PluginManager.loaded_plugins m') = None /\
    (forall k, k <> plugin_name ->
               Dict.get k (PluginManager.loaded_plugins m') =
               Dict.get k (PluginManager.loaded_plugins m)) /\
    Dict.get plugin_name (PluginManager.plugin_info m') = None /\
    (forall k, k <> plugin_name ->
               Dict.get k (PluginManager.plugin_info m') =
               Dict.get k (PluginManager.plugin_info m)).
Proof.
  intros Hwfc Hwfl Hwfi Hloaded Hcleanup Hcommands Hnames.
  rewrite (unload_plugin_nf plugin_name m w Hloaded).
  rewrite Hcleanup, Hcommands. cbv zeta. rewrite Hnames.
  rewrite (registered_names _ Hnames).
  destruct (Dict.mem plugin_name (PluginManager.plugin_info m)) eqn:Hinfo;
    do 3 eexists; (split; [reflexivity|]);
    cbn [PluginManager.plugin_info PluginManager.plugin_commands
         PluginManager.loaded_plugins PluginManager.with_plugin_info
         PluginManager.with_loaded_plugins
         PluginManager.with_plugin_commands];
    (split; [intros k Hk; now apply get_delete_all_in|]);
    (split; [intros k Hk; now apply get_delete_all_notin|]);
    (split; [now apply get_del_eq|]);
    (split; [intros k Hk; apply get_del_ne; congruence|]).
  - split; [now apply get_del_eq|].
    intros k Hk. apply get_del_ne. congruence.
  - split; [now apply get_none_mem | reflexivity].
Qed.

Ltac solve_wf :=
  unfold Dict.wf; simpl;
  repeat (constructor; [simpl; intuition discriminate|]); constructor.

Lemma unload_removes_the_reported_names_example :
  let env := Fixture.shared_name_env in
  let m0 := PluginManager.init env None in
  let s :=
    snd (load_sequence env (Fixture.candidates env)
           (m0, Fixture.world0)) in
  exists r m' w',
    PluginManager.unload_plugin "first" (fst s, snd s) =
      (Return r, (m', w')) /\
    (forall k, In k ["mean"] ->
               Dict.get k (PluginManager.plugin_commands m') = None) /\
    (forall k, ~ In k ["mean"] ->
               Dict.get k (PluginManager.plugin_commands m') =
               Dict.get k (PluginManager.plugin_commands (fst s))) /\
    Dict.get "first" (PluginManager.loaded_plugins m') = None /\
    (forall k, k <> "first" ->
               Dict.get k (PluginManager.loaded_plugins m') =
               Dict.get k (PluginManager.loaded_plugins (fst s))) /\
    Dict.get "first" (PluginManager.plugin_info m') = None /\
    (forall k, k <> "first" ->
               Dict.get k (PluginManager.plugin_info m') =
               Dict.get k (PluginManager.plugin_info (fst s))).
Proof.
  apply (unload_removes_the_reported_names "first" _ _
           (Fixture.plugin_with [Fixture.first_mean]
              Plugin.default_initialize Plugin.default_cleanup)
           true [Fixture.first_mean] ["mean"]);
    try reflexivity; solve_wf.
Defined.

(** Unloading the first of two plugins that share [mean] removes the
    name although the command under it is the second plugin's. *)
Example unload_removes_the_current_occupant :
  let env := Fixture.shared_name_env in
  let m0 := PluginManager.init env None in
  let s :=
    snd (load_sequence env (Fixture.candidates env)
           (m0, Fixture.world0)) in
  let m' := fst (snd (PluginManager.unload_plugin "first" s)) in
  Dict.get "mean" (PluginManager.plugin_commands (fst s)) =
    Some Fixture.second_mean /\
  fst (PluginManager.unload_plugin "first" s) = Return true /\
  Dict.keys (PluginManager.plugin_commands m') = [] /\
  Dict.keys (PluginManager.loaded_plugins m') = ["second"] /\
  Dict.keys (PluginManager.plugin_info m') = ["second"].
Proof. repeat split. Qed.

(** C3, as the claim states it, fails when [cleanup] raises: the plugin is
    loaded, [unload_plugin] returns [False], and the name [test] that
    [get_commands] reports is still in [plugin_commands], the plugin still
    in [loaded_plugins] and [plugin_info]. *)
Lemma unload_with_raising_cleanup_removes_nothing :
  let env := Fixture.example_env Fixture.raising_cleanup_plugin in
  let s :=
    snd (PluginManager.load_plugin env "example" Fixture.example_path
           (Fixture.fresh env)) in
  let m' := fst (snd (PluginManager.unload_plugin "example" s)) in
  Dict.get "example" (PluginManager.loaded_plugins (fst s)) =
    Some Fixture.raising_cleanup_plugin /\
  result_map get_name [Fixture.TestCommand] = Return ["test"] /\
  fst (PluginManager.unload_plugin "example" s) = Return false /\
  Dict.mem "test" (PluginManager.plugin_commands m') = true /\
  Dict.mem "example" (PluginManager.loaded_plugins m') = true /\
  Dict.mem "example" (PluginManager.plugin_info m') = true.
Proof. repeat split. Qed.

(** C4, on the code: the result of [cleanup] is not looked at. A loaded
    plugin whose [cleanup] returns [False] is unloaded all the same and
    [unload_plugin] returns [True]. *)
Theorem unload_succeeds_though_cleanup_failed (plugin_name : string)
  (m : PluginManager.t) (w : World) (plugin : Plugin.t)
  (commands : list Command) (names : list string) :
  Dict.get plugin_name (PluginManager.loaded_plugins m) = Some plugin ->
  Dict.mem plugin_name (PluginManager.plugin_info m) = true ->
  Plugin.cleanup plugin = Return false ->
  Plugin.get_commands plugin = Return commands ->
  result_map get_name commands = Return names ->
  PluginManager.unload_plugin plugin_name (m, w) =
  (Return true,
   (PluginManager.with_plugin_info (Dict.del plugin_name)
      (PluginManager.with_loaded_plugins (Dict.del plugin_name)
         (PluginManager.with_plugin_commands (delete_all names) m)),
    world_log_hook (CalledCleanup plugin_name) w)).
Proof.
  intros Hloaded Hinfo Hcleanup Hcommands Hnames.
  rewrite (unload_plugin_nf plugin_name m w Hloaded).
  rewrite Hcleanup, Hcommands. cbv zeta.
  rewrite Hnames, Hinfo, (registered_names _ Hnames). reflexivity.
Qed.

Lemma unload_succeeds_though_cleanup_failed_example :
  let env := Fixture.example_env Fixture.failing_cleanup_plugin in
  let s :=
    snd (PluginManager.load_plugin env "example" Fixture.example_path
           (Fixture.fresh env)) in
  Plugin.cleanup Fixture.failing_cleanup_plugin = Return false /\
  PluginManager.unload_plugin "example" (fst s, snd s) =
  (Return true,
   (PluginManager.with_plugin_info (Dict.del "example")
      (PluginManager.with_loaded_plugins (Dict.del "example")
         (PluginManager.with_plugin_commands (delete_all ["test"])
            (fst s))),
    world_log_hook (CalledCleanup "example") (snd s))).
Proof.
  split; [reflexivity|].
  apply (unload_succeeds_though_cleanup_failed "example" _ _
           Fixture.failing_cleanup_plugin [Fixture.TestCommand] ["test"]);
    reflexivity.
Defined.

(** ** The registry and the dispatch loop *)

Lemma arithmetic_operation_names (name : string)
  (op : float -> float -> float) :
  arithmetic_operation name = Some op ->
  (name = "add" /\ op = PrimFloat.add) \/
  (name = "subtract" /\ op = PrimFloat.sub) \/
  (name = "multiply" /\ op = PrimFloat.mul) \/
  (name = "divide" /\ op = PrimFloat.div).
Proof.
  unfold arithmetic_operation.
  destruct (String.eqb_spec name "add");
    [intros [= <-]; tauto|].
  destruct (String.eqb_spec name "subtract");
    [intros [= <-]; tauto|].
  destruct (String.eqb_spec name "multiply");
    [intros [= <-]; tauto|].
  destruct (String.eqb_spec name "divide");
    [intros [= <-]; tauto|].
  discriminate.
Qed.

Lemma wrong_argument_count (env : Env) (operation : string)
  (func : float -> float -> result float) (args : list string) :
  List.length args <> 2 ->
  ArithmeticCommand.execute env operation func args =
  Raise (Exn ValueError (operation ++ " requires exactly 2 arguments")).
Proof.
  intros Hlen. unfold ArithmeticCommand.execute.
  destruct (Nat.eqb_spec (List.length args) 2); [contradiction|reflexivity].
Qed.

(** C8. Each built-in arithmetic command, looked up by its name in the
    registry, applied to two arguments that [float] accepts, returns the
    floating-point sum, difference, product or quotient of the parsed
    values; dividing by a zero, a number of arguments other than two, and
    an argument [float] rejects each raise [ValueError]. *)
Theorem arithmetic_commands_compute (env : Env) (name : string)
  (op : float -> float -> float) :
  arithmetic_operation name = Some op ->
  exists commands command,
    CommandRegistry.init = Return commands /\
    CommandRegistry.get_command name commands = Some command /\
    (forall m a b x y,
        py_float env a = inl x -> py_float env b = inl y ->
        execute env commands m command [a; b] =
        if String.eqb name "divide" && PrimFloat.eqb y 0
        then Raise (Exn ValueError "Division by zero is not allowed")
        else Return (VFloat (op x y))) /\
    (forall m args,
        List.length args <> 2 ->
        execute env commands m command args =
        Raise (Exn ValueError (name ++ " requires exactly 2 arguments"))) /\
    (forall m a b msg,
        py_float env a = inr msg ->
        execute env commands m command [a; b] =
        Raise (Exn ValueError ("Invalid number format: " ++ msg))) /\
    (forall m a b x msg,
        py_float env a = inl x -> py_float env b = inr msg ->
        execute env commands m command [a; b] =
        Raise (Exn ValueError ("Invalid number format: " ++ msg))).
Proof.
  intros Hop.
  apply arithmetic_operation_names in Hop.
  destruct Hop as [[-> ->]|[[-> ->]|[[-> ->]|[-> ->]]]];
    eexists; eexists;
    (split; [reflexivity|]); (split; [reflexivity|]);
    cbn [execute]; repeat split.
  all: try (intros m args Hlen; now apply wrong_argument_count).
  all: try (intros m a b msg Ha; unfold ArithmeticCommand.execute,
              ArithmeticCommand.to_float; simpl; now rewrite Ha).
  all: try (intros m a b x msg Ha Hb; unfold ArithmeticCommand.execute,
              ArithmeticCommand.to_float; simpl; now rewrite Ha, Hb).
  all: intros m a b x y Ha Hb;
    unfold ArithmeticCommand.execute, ArithmeticCommand.to_float; simpl;
    rewrite Ha, Hb; simpl; try reflexivity.
  unfold float_truediv. destruct (PrimFloat.eqb y 0); reflexivity.
Qed.

Lemma arithmetic_commands_compute_example :
  exists commands command,
    CommandRegistry.init = Return commands /\
    CommandRegistry.get_command "add" commands = Some command /\
    execute Fixture.test_env commands
      (PluginManager.init Fixture.test_env None) command ["2"; "3"] =
    Return (VFloat 5%float).
Proof.
  destruct (arithmetic_commands_compute Fixture.test_env "add"
              PrimFloat.add eq_refl)
    as (commands & command & Hinit & Hget & Hcompute & _).
  exists commands, command.
  split; [exact Hinit|]. split; [exact Hget|].
  rewrite (Hcompute _ "2" "3" 2%float 3%float eq_refl eq_refl).
  reflexivity.
Defined.

(** The spec's examples: [add 2 3] gives [5.0], [divide 10 0] the
    division-by-zero error. *)
Example add_2_3_and_divide_10_0 :
  ArithmeticCommand.execute Fixture.test_env "add" float_add ["2"; "3"] =
    Return (VFloat 5%float) /\
  ArithmeticCommand.execute Fixture.test_env "divide" float_truediv
    ["10"; "0"] =
    Raise (Exn ValueError "Division by zero is not allowed") /\
  ArithmeticCommand.execute Fixture.test_env "divide" float_truediv
    ["10"; "4"] =
    Return (VFloat 2.5%float).
Proof. repeat split. Qed.

(** The merge loop of [_setup_plugin_commands] assigns every plugin
    command under the key it has in [plugin_commands]. *)
Lemma merge_loop_spec (items : list (string * Command))
  (r : EnhancedCommandRegistry.t) (w : World) :
  for_each items
    (fun item =>
       update (EnhancedCommandRegistry.with_commands
                 (Dict.set (fst item) (snd item))))
    (r, w) =
  (Return tt, (EnhancedCommandRegistry.with_commands (assign_all items) r, w)).
Proof.
  revert r. induction items as [|[k c] rest IH]; intros r; simpl.
  - reflexivity.
  - rewrite run_update, IH. reflexivity.
Qed.

(** [load_all_plugins], whichever way it ends. *)
Lemma load_all_plugins_spec (env : Env) (m : PluginManager.t) (w : World) :
  match PluginManager.load_all_plugins env (m, w) with
  | (Return results, s') =>
      exists candidates,
        PluginManager.discover_plugins env m = Return candidates /\
        Forall (fun r => exists b, r = Return b)
          (fst (load_sequence env candidates (m, w))) /\
        s' = snd (load_sequence env candidates (m, w)) /\
        results =
          assign_all
            (returned (map fst candidates)
               (fst (load_sequence env candidates (m, w))))
            Dict.empty
  | (Raise e, s') =>
      PluginManager.discover_plugins env m = Raise e /\ s' = (m, w) \/
      is_Exception e = false /\
      exists candidates,
        PluginManager.discover_plugins env m = Return candidates /\
        In (Raise e) (fst (load_sequence env candidates (m, w)))
  end.
Proof.
  unfold PluginManager.load_all_plugins. run.
  destruct (PluginManager.discover_plugins env m) as [candidates|e0].
  - rewrite bind_assoc_run. unfold lift at 1.
    pose proof (load_each_spec env candidates Dict.empty (m, w)) as Hspec.
    destruct (PluginManager.load_each env candidates Dict.empty (m, w))
      as [[results|e] s'].
    + exists candidates. split; [reflexivity | exact Hspec].
    + right. destruct Hspec as [He Hin]. split; [exact He|].
      now exists candidates.
  - left. split; reflexivity.
Qed.

(** [EnhancedCommandRegistry()]: when the plugins load, it ends with the
    built-in table, the plugin commands merged into it under their keys,
    and [menu]; its manager is the one the sequence of loads leaves, and
    the summary line is printed last. When they do not, it raises what
    [load_all_plugins] raises. *)
Lemma enhanced_registry_init_spec (env : Env) (w : World) :
  exists basic,
    CommandRegistry.init = Return basic /\
    match EnhancedCommandRegistry.init env w with
    | (Return r, w') =>
        exists candidates,
          PluginManager.discover_plugins env (PluginManager.init env None) =
            Return candidates /\
          let run :=
            load_sequence env candidates (PluginManager.init env None, w) in
          let results :=
            assign_all (returned (map fst candidates) (fst run))
              (@Dict.empty bool) in
          Forall (fun r => exists b, r = Return b) (fst run) /\
          EnhancedCommandRegistry.plugin_manager r = fst (snd run) /\
          EnhancedCommandRegistry.commands r =
            Dict.set "menu" MenuCommand
              (assign_all
                 (PluginManager.plugin_commands
                    (EnhancedCommandRegistry.plugin_manager r))
                 basic) /\
          w' =
            if (0 <? Dict.len results)%nat
            then world_print
                   ("Plugin system initialized: "
                      ++ Str.of_nat
                           (List.length
                              (filter (fun success : bool => success)
                                 (Dict.values results)))
                      ++ "/" ++ Str.of_nat (Dict.len results)
                      ++ " plugins loaded") (snd (snd run))
            else snd (snd run)
    | (Raise e, w') =>
        fst (PluginManager.load_all_plugins env
               (PluginManager.init env None, w)) = Raise e
    end.
Proof.
  unfold EnhancedCommandRegistry.init.
  destruct CommandRegistry.init as [basic|e] eqn:Hbasic;
    [|discriminate Hbasic].
  exists basic. split; [reflexivity|].
  unfold EnhancedCommandRegistry._setup_plugin_commands.
  rewrite bind_assoc_run.
  unfold EnhancedCommandRegistry.on_plugin_manager at 1. cbn [fst snd].
  cbn [EnhancedCommandRegistry.plugin_manager
       EnhancedCommandRegistry.commands].
  pose proof (load_all_plugins_spec env (PluginManager.init env None) w)
    as Hspec.
  destruct (PluginManager.load_all_plugins env (PluginManager.init env None, w))
    as [[results|e] [pm w1]]; [|reflexivity].
  destruct Hspec as (candidates & Hfound & Hall & Hstate & Hresults).
  run. rewrite bind_assoc_run, merge_loop_spec. run.
  cbn [EnhancedCommandRegistry.plugin_manager
       EnhancedCommandRegistry.commands
       EnhancedCommandRegistry.with_commands].
  unfold CommandRegistry.register_command. cbn [get_name result_bind]. run.
  destruct (0 <? Dict.len results)%nat eqn:Hn; run;
    exists candidates; cbv zeta; rewrite <- Hresults, <- Hstate, Hn;
    repeat split; assumption.
Qed.

Lemma Forall_set (P : string * Command -> Prop) k c (d : Dict.t Command) :
  P (k, c) -> Forall P d -> Forall P (Dict.set k c d).
Proof.
  intros Hkc Hd. induction d as [|[k' c'] d IH]; simpl.
  - repeat constructor. exact Hkc.
  - inversion Hd as [|? ? Hhead Htail]; subst.
    destruct (String.eqb_spec k k') as [->|Hne]; constructor; auto.
Qed.

Lemma Forall_assign_all (P : string * Command -> Prop) regs
  (d : Dict.t Command) :
  Forall P regs -> Forall P d -> Forall P (assign_all regs d).
Proof.
  revert d. induction regs as [|[k c] rest IH]; intros d Hregs Hd.
  - exact Hd.
  - inversion Hregs as [|? ? Hhead Htail]; subst.
    rewrite assign_all_cons. apply IH; [exact Htail|].
    now apply Forall_set.
Qed.

Lemma get_some_in k c (d : Dict.t Command) :
  Dict.get k d = Some c -> In (k, c) d.
Proof.
  induction d as [|[k' c'] d IH]; simpl; [discriminate|].
  destruct (String.eqb_spec k k') as [->|Hne].
  - intros [= ->]. now left.
  - intros H. right. now apply IH.
Qed.

(** From a fresh manager, every entry of [plugin_commands] sits under the
    name its command reports. *)
Lemma plugin_commands_keyed (env : Env)
  (candidates : list (string * string)) (w : World) :
  Forall keyed_by_name
    (PluginManager.plugin_commands
       (fst (snd (load_sequence env candidates
                    (PluginManager.init env None, w))))).
Proof.
  destruct (load_sequence_commands env candidates
              (PluginManager.init env None) w) as [_ Hcommands].
  rewrite Hcommands. apply Forall_assign_all; [|constructor].
  apply Forall_flat_map. intros c. apply registrations_keyed.
Qed.

Lemma basic_commands_keyed (basic : Dict.t Command) :
  CommandRegistry.init = Return basic ->
  Forall (fun kc => fst kc = "quit" /\ snd kc = ExitCommand \/
                    keyed_by_name kc) basic /\
  Forall (fun kc => Str.lower (fst kc) = fst kc) basic.
Proof.
  intros [= <-]. split; repeat constructor; unfold keyed_by_name; simpl; tauto.
Qed.

(** C9, as the code has it. The registry never changes the case of a key:
    [register_command] stores a command under its [get_name()] as it is,
    and in the registry the calculator starts with every key is the name
    its command reports, [quit] apart, which is a second key of the exit
    command. Only [get_command] lower-cases, and only the name it is
    asked for: it returns what is stored under the lower-cased name. So
    the keys are all lower-cased when the names of the plugin commands
    are, and a command under a lower-cased key is found under any casing
    of that key. The calculator gets its registry unless
    [load_all_plugins] raises. *)
Theorem registry_keys_are_the_reported_names (env : Env) :
  (forall command commands name,
      get_name command = Return name ->
      CommandRegistry.register_command command commands =
      Return (Dict.set name command commands)) /\
  (forall name commands,
      CommandRegistry.get_command name commands =
      Dict.get (Str.lower name) commands /\
      CommandRegistry.get_command (Str.lower name) commands =
      CommandRegistry.get_command name commands) /\
  (forall w r w',
      EnhancedCommandRegistry.init env w = (Return r, w') ->
      (forall k c,
          Dict.get k (EnhancedCommandRegistry.commands r) = Some c ->
          k = "quit" /\ c = ExitCommand \/ get_name c = Return k) /\
      ((forall k,
           Dict.mem k (PluginManager.plugin_commands
                         (EnhancedCommandRegistry.plugin_manager r)) = true ->
           Str.lower k = k) ->
       forall k,
         Dict.mem k (EnhancedCommandRegistry.commands r) = true ->
         Str.lower k = k) /\
      (forall k s,
          Str.lower s = k ->
          CommandRegistry.get_command s (EnhancedCommandRegistry.commands r) =
          Dict.get k (EnhancedCommandRegistry.commands r))) /\
  (forall w e w',
      EnhancedCommandRegistry.init env w = (Raise e, w') ->
      fst (PluginManager.load_all_plugins env
             (PluginManager.init env None, w)) = Raise e).
Proof.
  split; [|split; [|split]].
  - intros command commands name Hname.
    unfold CommandRegistry.register_command. now rewrite Hname.
  - intros name commands. split; [reflexivity|].
    unfold CommandRegistry.get_command. now rewrite lower_idempotent.
  - intros w r w' Hinit.
    destruct (enhanced_registry_init_spec env w) as (basic & Hbasic & Hspec).
    rewrite Hinit in Hspec.
    destruct Hspec as (candidates & _ & _ & Hmanager & Hcommands & _).
    destruct (basic_commands_keyed basic Hbasic) as [Hkeyed Hlower].
    pose proof (plugin_commands_keyed env candidates w) as Hplugins.
    rewrite <- Hmanager in Hplugins.
    rewrite Hcommands. split; [|split].
    + intros k c Hget. apply get_some_in in Hget.
      assert (Forall (fun kc => fst kc = "quit" /\ snd kc = ExitCommand \/
                                keyed_by_name kc)
                (Dict.set "menu" MenuCommand
                   (assign_all
                      (PluginManager.plugin_commands
                         (EnhancedCommandRegistry.plugin_manager r))
                      basic))) as Hall.
      { apply Forall_set; [right; reflexivity|].
        apply Forall_assign_all; [|exact Hkeyed].
        eapply Forall_impl; [|exact Hplugins]. intros kc H. now right. }
      rewrite Forall_forall in Hall. exact (Hall (k, c) Hget).
    + intros Hnames k. rewrite mem_set.
      destruct (String.eqb_spec "menu" k) as [<-|Hne]; [reflexivity|].
      simpl. intros Hmem. apply mem_assign_all in Hmem.
      destruct Hmem as [Hmem|Hin].
      * apply mem_keys in Hmem. unfold Dict.keys in Hmem.
        apply in_map_iff in Hmem. destruct Hmem as (kc & <- & Hin).
        rewrite Forall_forall in Hlower. now apply Hlower.
      * apply Hnames, mem_keys. exact Hin.
    + intros k s <-. reflexivity.
  - intros w e w' Hinit.
    destruct (enhanced_registry_init_spec env w) as (basic & _ & Hspec).
    now rewrite Hinit in Hspec.
Qed.

(** C9, as the claim states it, fails for a plugin command that reports
    the name [Sqrt]: the registry stores it under [Sqrt], which is not
    lower-cased, nothing is stored under [sqrt], and [get_command] finds
    the command under no casing of its name. *)
Lemma capital_name_is_stored_as_it_is :
  let env := Fixture.example_env Fixture.capital_plugin in
  exists r w',
    EnhancedCommandRegistry.init env Fixture.world0 = (Return r, w') /\
    get_name Fixture.capital_sqrt = Return "Sqrt" /\
    Dict.get "Sqrt" (EnhancedCommandRegistry.commands r) =
      Some Fixture.capital_sqrt /\
    Str.lower "Sqrt" = "sqrt" /\
    Dict.get "sqrt" (EnhancedCommandRegistry.commands r) = None /\
    CommandRegistry.get_command "Sqrt"
      (EnhancedCommandRegistry.commands r) = None /\
    CommandRegistry.get_command "sqrt"
      (EnhancedCommandRegistry.commands r) = None /\
    CommandRegistry.register_command Fixture.capital_sqrt Dict.empty =
      Return [("Sqrt", Fixture.capital_sqrt)].
Proof. do 2 eexists. repeat split. Qed.

(** [_process_command], case by case. *)
Lemma process_command_nf (env : Env) (now user_input : string)
  (e : REPLEngine.t) (w : World) :
  REPLEngine._process_command env now user_input (e, w) =
  match Str.split user_input with
  | [] => (Raise (Exn IndexError "list index out of range"), (e, w))
  | part0 :: args =>
      let command_name := Str.lower part0 in
      let registry := REPLEngine.command_registry e in
      let log result success :=
        REPLEngine.with_history
          (HistoryTracker.add_entry command_name args result success now) e in
      match
        CommandRegistry.get_command command_name
          (EnhancedCommandRegistry.commands registry)
      with
      | None =>
          let error_msg :=
            "Unknown command: " ++ command_name
              ++ ". Type 'help' for available commands." in
          (Return tt, (log (VStr error_msg) false, world_print error_msg w))
      | Some command =>
          match
            execute env (EnhancedCommandRegistry.commands registry)
              (EnhancedCommandRegistry.plugin_manager registry) command args
          with
          | Return result =>
              if REPLEngine.is_exit result then
                (Return tt,
                 (REPLEngine.set_running false e, world_print "Goodbye!" w))
              else
                (Return tt,
                 (log result true,
                  world_print
                    (if REPLEngine.is_number result
                     then "Result: " ++ REPLEngine.str env result
                     else REPLEngine.str env result) w))
          | Raise exc =>
              if is_ValueError exc then
                (Return tt,
                 (log (VStr ("Error: " ++ exn_msg exc)) false,
                  world_print ("Error: " ++ exn_msg exc) w))
              else (Raise exc, (e, w))
          end
      end
  end.
Proof.
  unfold REPLEngine._process_command.
  destruct (Str.split user_input) as [|part0 args]; [reflexivity|].
  run. cbv zeta.
  destruct (CommandRegistry.get_command (Str.lower part0) _) as [command|];
    [|run; reflexivity].
  unfold try_except_when. rewrite bind_assoc_run. unfold lift at 1.
  destruct (execute env _ _ command args) as [result|exc].
  - destruct (REPLEngine.is_exit result); run; [reflexivity|].
    rewrite bind_assoc_run.
    destruct (REPLEngine.is_number result); reflexivity.
  - destruct (is_ValueError exc); run; reflexivity.
Qed.

Lemma list_not_longer {A : Type} (l : list A) (x : A) :
  l <> (l ++ [x])%list.
Proof.
  intros H. apply (f_equal (@List.length A)) in H.
  rewrite length_app in H. simpl in H. lia.
Qed.

(** C10. One dispatch either leaves the history as it is or appends one
    entry. When the command that was looked up returns the string [EXIT],
    whichever command it is, the dispatch returns with [running] false,
    the history and the registry as they were and [Goodbye!] printed. An
    entry is appended only for an unknown command, for a result other
    than [EXIT], or for a [ValueError]; it records the lower-cased command
    name, the arguments and the clock. *)
Theorem exit_result_stops_without_history (env : Env)
  (now user_input : string) (e : REPLEngine.t) (w : World) :
  let commands :=
    EnhancedCommandRegistry.commands (REPLEngine.command_registry e) in
  let manager :=
    EnhancedCommandRegistry.plugin_manager (REPLEngine.command_registry e) in
  exists r e' w',
    REPLEngine._process_command env now user_input (e, w) = (r, (e', w')) /\
    (REPLEngine.history_tracker e' = REPLEngine.history_tracker e \/
     exists entry,
       REPLEngine.history_tracker e' =
       (REPLEngine.history_tracker e ++ [entry])%list) /\
    (forall part0 args command,
        Str.split user_input = part0 :: args ->
        CommandRegistry.get_command (Str.lower part0) commands =
          Some command ->
        execute env commands manager command args = Return (VStr "EXIT") ->
        r = Return tt /\
        REPLEngine.running e' = false /\
        REPLEngine.history_tracker e' = REPLEngine.history_tracker e /\
        REPLEngine.command_registry e' = REPLEngine.command_registry e /\
        w' = world_print "Goodbye!" w) /\
    (forall entry,
        REPLEngine.history_tracker e' =
          (REPLEngine.history_tracker e ++ [entry])%list ->
        exists part0 args,
          Str.split user_input = part0 :: args /\
          entry_command entry = Str.lower part0 /\
          entry_args entry = args /\
          entry_timestamp entry = now /\
          match CommandRegistry.get_command (Str.lower part0) commands with
          | None => entry_success entry = false
          | Some command =>
              match execute env commands manager command args with
              | Return result =>
                  REPLEngine.is_exit result = false /\
                  entry_success entry = true /\
                  entry_result entry = result
              | Raise exc =>
                  is_ValueError exc = true /\ entry_success entry = false
              end
          end).
Proof.
  intros commands manager. rewrite process_command_nf.
  subst commands manager.
  destruct (Str.split user_input) as [|part0 args].
  { do 3 eexists. split; [reflexivity|]. split; [now left|].
    split; [discriminate|].
    intros entry H. now apply list_not_longer in H. }
  cbv zeta.
  destruct (CommandRegistry.get_command (Str.lower part0) _)
    as [command|] eqn:Hget.
  2:{ do 3 eexists. split; [reflexivity|]. split; [right; eexists; reflexivity|].
      split; [intros ? ? ? [= <- <-]; congruence|].
      intros entry H. apply app_inv_head in H. injection H as <-.
      exists part0, args. rewrite Hget. repeat split. }
  destruct (execute env _ _ command args) as [result|exc] eqn:Hexec.
  - destruct (REPLEngine.is_exit result) eqn:Hexit.
    + do 3 eexists. split; [reflexivity|]. split; [now left|].
      split; [intros; repeat split|].
      intros entry H. now apply list_not_longer in H.
    + do 3 eexists. split; [reflexivity|].
      split; [right; eexists; reflexivity|]. split.
      * intros p0 a c [= <- <-] Hc Hx. rewrite Hget in Hc.
        injection Hc as <-. rewrite Hexec in Hx. injection Hx as ->.
        discriminate Hexit.
      * intros entry H. apply app_inv_head in H. injection H as <-.
        exists part0, args. rewrite Hget, Hexec, Hexit. repeat split.
  - destruct (is_ValueError exc) eqn:Hvalue.
    + do 3 eexists. split; [reflexivity|].
      split; [right; eexists; reflexivity|]. split.
      * intros p0 a c [= <- <-] Hc Hx. rewrite Hget in Hc.
        injection Hc as <-. rewrite Hexec in Hx. discriminate Hx.
      * intros entry H. apply app_inv_head in H. injection H as <-.
        exists part0, args. rewrite Hget, Hexec, Hvalue. repeat split.
    + do 3 eexists. split; [reflexivity|]. split; [now left|]. split.
      * intros p0 a c [= <- <-] Hc Hx. rewrite Hget in Hc.
        injection Hc as <-. rewrite Hexec in Hx. discriminate Hx.
      * intros entry H. now apply list_not_longer in H.
Qed.

(** A plugin's command that returns [EXIT] ends the session like [exit]
    does: the loop stops, nothing is logged, the next line is not read. *)
Example plugin_command_can_end_the_session :
  let env := Fixture.example_env Fixture.leave_plugin in
  exists e w1,
    REPLEngine.init env Fixture.world0 = (Return e, w1) /\
    (let run :=
       REPLEngine.start env [Line "LEAVE now" "12:00"; Line "add 1 1" "12:01"]
         (e, w1) in
     fst run = Return tt /\
     REPLEngine.running (fst (snd run)) = false /\
     REPLEngine.history_tracker (fst (snd run)) = [] /\
     last (stdout (snd (snd run))) "" = "Goodbye!").
Proof. do 2 eexists. repeat split. Qed.

(** * Further properties of the code *)

(** ** Discovery and class lookup *)

Lemma substring_split (s : string) :
  forall n, n <= String.length s ->
  (substring 0 n s ++ substring n (String.length s - n) s)%string = s.
Proof.
  induction s as [|c s IH]; intros n Hn; simpl in *.
  - destruct n; reflexivity.
  - destruct n as [|n]; simpl.
    + f_equal. specialize (IH 0 (Nat.le_0_l _)). simpl in IH.
      rewrite Nat.sub_0_r in IH.
      destruct s; simpl in *; [reflexivity|].
      now injection IH.
    + f_equal. apply IH. lia.
Qed.

(** A name that ends in a suffix is what [name[:-len(suffix)]] leaves,
    followed by the suffix. *)
Lemma suffix_cut_and_restored (s suffix : string) :
  Str.endswith s suffix = true ->
  (Str.drop_last (String.length suffix) s ++ suffix)%string = s.
Proof.
  unfold Str.endswith, Str.drop_last. intros H.
  apply andb_true_iff in H. destruct H as [Hlen Heq].
  apply Nat.leb_le in Hlen. apply String.eqb_eq in Heq.
  pose proof (substring_split s (String.length s - String.length suffix))
    as Hsplit.
  replace (String.length s - (String.length s - String.length suffix))
    with (String.length suffix) in Hsplit by lia.
  rewrite Heq in Hsplit. apply Hsplit. lia.
Qed.

Lemma result_map_return {A B : Type} (f : A -> result B) (l : list A) :
  forall ys, result_map f l = Return ys ->
             Forall2 (fun x y => f x = Return y) l ys.
Proof.
  induction l as [|x l IH]; simpl; intros ys.
  - intros [= <-]. constructor.
  - destruct (f x) as [y|e] eqn:Hx; [|discriminate]. simpl.
    destruct (result_map f l) as [ys'|e]; [|discriminate]. simpl.
    intros [= <-]. constructor; [exact Hx | now apply IH].
Qed.

Lemma result_map_raise {A B : Type} (f : A -> result B) (l : list A)
  (e : exn) :
  result_map f l = Raise e -> exists x, In x l /\ f x = Raise e.
Proof.
  induction l as [|x l IH]; simpl; [discriminate|].
  destruct (f x) as [y|e'] eqn:Hx; simpl.
  - destruct (result_map f l) as [ys'|e']; simpl; [discriminate|].
    intros [= <-]. destruct IH as (x' & Hin & Hx'); [reflexivity|].
    exists x'. split; [now right | exact Hx'].
  - intros [= <-]. exists x. split; [now left | exact Hx].
Qed.

Lemma Forall2_in_l {A B : Type} {R : A -> B -> Prop} {l : list A}
  {l' : list B} {x : A} :
  Forall2 R l l' -> In x l -> exists y, In y l' /\ R x y.
Proof.
  induction 1 as [|x0 y0 l l' Hhead _ IH]; simpl; [contradiction|].
  intros [<-|Hin].
  - exists y0. split; [now left | exact Hhead].
  - destruct (IH Hin) as (y & Hy & HR). exists y. split; [now right | exact HR].
Qed.

Lemma Forall2_in_r {A B : Type} {R : A -> B -> Prop} {l : list A}
  {l' : list B} {y : B} :
  Forall2 R l l' -> In y l' -> exists x, In x l /\ R x y.
Proof.
  induction 1 as [|x0 y0 l l' Hhead _ IH]; simpl; [contradiction|].
  intros [<-|Hin].
  - exists x0. split; [now left | exact Hhead].
  - destruct (IH Hin) as (x & Hx & HR). exists x. split; [now right | exact HR].
Qed.

(** The candidates of one directory entry. *)
Lemma discover_item_in (env : Env) (plugin_dir item n p : string) :
  In (n, p) (PluginManager.discover_item env plugin_dir item) <->
  p = os_path_join env plugin_dir item /\
  (Str.endswith item ".py" = true /\ item <> "__init__.py" /\
   n = Str.drop_last 3 item /\ item = n ++ ".py"
   \/
   (Str.endswith item ".py" = false \/ item = "__init__.py") /\
   os_path_isdir env p = true /\
   os_path_exists env (os_path_join env p "__init__.py") = true /\
   n = item).
Proof.
  unfold PluginManager.discover_item. split.
  - intros Hin.
    destruct (Str.endswith item ".py") eqn:Hpy;
      destruct (String.eqb_spec item "__init__.py") as [Hinit|Hinit];
      simpl in Hin.
    2:{ destruct Hin as [[= <- <-]|[]]. split; [reflexivity|]. left.
        repeat (split; [assumption || reflexivity|]).
        symmetry. now apply (suffix_cut_and_restored item ".py"). }
    all: destruct (os_path_isdir env (os_path_join env plugin_dir item))
           eqn:Hisdir; [|contradiction];
         destruct (os_path_exists env
                     (os_path_join env
                        (os_path_join env plugin_dir item) "__init__.py"))
           eqn:Hhas; [|contradiction];
         destruct Hin as [[= <- <-]|[]];
         split; [reflexivity|]; right; auto.
  - intros (-> & Hcase).
    destruct Hcase as [(Hpy & Hinit & -> & _)|(Hnot & Hisdir & Hhas & ->)].
    + rewrite Hpy. apply String.eqb_neq in Hinit. rewrite Hinit.
      simpl. now left.
    + assert (Str.endswith item ".py"
              && negb (String.eqb item "__init__.py") = false) as ->.
      { destruct Hnot as [->| ->]; [reflexivity|].
        rewrite String.eqb_refl. apply andb_false_r. }
      rewrite Hisdir, Hhas. now left.
Qed.

(** [discover_plugins] raises exactly when the listing of a plugin
    directory that exists raises, and raises that. Otherwise it returns
    exactly these candidates: for an existing plugin directory and an
    entry of its listing, either the entry ends in [.py], is not
    [__init__.py], and the candidate is the entry without its last three
    characters, so that the candidate's name followed by [.py] is the file
    name; or the entry is not such a file, is a directory and holds an
    [__init__.py], and the candidate is the entry. Directories that do
    not exist contribute nothing. *)
Theorem discovered_candidates (env : Env) (m : PluginManager.t) :
  match PluginManager.discover_plugins env m with
  | Return candidates =>
      (forall plugin_dir,
          In plugin_dir (PluginManager.plugin_dirs m) ->
          os_path_exists env plugin_dir = true ->
          exists items, os_listdir env plugin_dir = Return items) /\
      (forall n p,
          In (n, p) candidates <->
          exists plugin_dir items item,
            In plugin_dir (PluginManager.plugin_dirs m) /\
            os_path_exists env plugin_dir = true /\
            os_listdir env plugin_dir = Return items /\
            In item items /\
            p = os_path_join env plugin_dir item /\
            (Str.endswith item ".py" = true /\ item <> "__init__.py" /\
             n = Str.drop_last 3 item /\ item = n ++ ".py"
             \/
             (Str.endswith item ".py" = false \/ item = "__init__.py") /\
             os_path_isdir env p = true /\
             os_path_exists env (os_path_join env p "__init__.py") = true /\
             n = item))
  | Raise e =>
      exists plugin_dir,
        In plugin_dir (PluginManager.plugin_dirs m) /\
        os_path_exists env plugin_dir = true /\
        os_listdir env plugin_dir = Raise e
  end.
Proof.
  unfold PluginManager.discover_plugins.
  destruct (result_map (PluginManager.discover_dir env)
              (PluginManager.plugin_dirs m)) as [found|e] eqn:Hmap;
    cbn [result_bind].
  - apply result_map_return in Hmap. split.
    + intros plugin_dir Hdir Hexists.
      destruct (Forall2_in_l Hmap Hdir) as (f & _ & Hf).
      unfold PluginManager.discover_dir in Hf. rewrite Hexists in Hf.
      cbn [negb] in Hf.
      destruct (os_listdir env plugin_dir) as [items|e]; [|discriminate Hf].
      now exists items.
    + intros n p. rewrite in_concat. split.
      * intros (f & Hf & Hin).
        destruct (Forall2_in_r Hmap Hf) as (plugin_dir & Hdir & Hrun).
        unfold PluginManager.discover_dir in Hrun.
        destruct (os_path_exists env plugin_dir) eqn:Hexists;
          cbn [negb] in Hrun; [|injection Hrun as <-; destruct Hin].
        destruct (os_listdir env plugin_dir) as [items|e] eqn:Hitems;
          [|discriminate Hrun].
        injection Hrun as <-. apply in_flat_map in Hin.
        destruct Hin as (item & Hitem & Hin).
        apply discover_item_in in Hin. destruct Hin as [Hp Hcase].
        exists plugin_dir, items, item. auto 10.
      * intros (plugin_dir & items & item & Hdir & Hexists & Hitems & Hitem
                & Hp & Hcase).
        destruct (Forall2_in_l Hmap Hdir) as (f & Hf & Hrun).
        exists f. split; [exact Hf|].
        unfold PluginManager.discover_dir in Hrun.
        rewrite Hexists, Hitems in Hrun. injection Hrun as <-.
        apply in_flat_map. exists item. split; [exact Hitem|].
        apply discover_item_in. now split.
  - apply result_map_raise in Hmap. destruct Hmap as (plugin_dir & Hdir & Hrun).
    exists plugin_dir. split; [exact Hdir|].
    unfold PluginManager.discover_dir in Hrun.
    destruct (os_path_exists env plugin_dir); cbn [negb] in Hrun;
      [|discriminate Hrun].
    split; [reflexivity|].
    destruct (os_listdir env plugin_dir); [discriminate Hrun|].
    now injection Hrun as <-.
Qed.

(** [_find_plugin_class] returns the first member of the module that is a
    proper subclass of [Plugin], skipping [Plugin] itself and everything
    else, and [None] exactly when the module has no such member. *)
Theorem first_plugin_class_is_found (module : py_module) :
  match PluginManager._find_plugin_class module with
  | Some cls =>
      exists before name rest,
        module = (before ++ (name, PluginSubclass cls) :: rest)%list /\
        Forall (fun member =>
                  forall c, snd member <> PluginSubclass c) before
  | None =>
      Forall (fun member => forall c, snd member <> PluginSubclass c) module
  end.
Proof.
  induction module as [|[name a] rest IH]; simpl.
  - constructor.
  - destruct a as [|cls|].
    + destruct (PluginManager._find_plugin_class rest) as [cls|].
      * destruct IH as (before & name' & rest' & -> & Hbefore).
        exists ((name, PluginBase) :: before), name', rest'.
        split; [reflexivity|]. constructor; [discriminate|assumption].
      * constructor; [discriminate|assumption].
    + exists [], name, rest. split; [reflexivity|constructor].
    + destruct (PluginManager._find_plugin_class rest) as [cls|].
      * destruct IH as (before & name' & rest' & -> & Hbefore).
        exists ((name, OtherAttr) :: before), name', rest'.
        split; [reflexivity|]. constructor; [discriminate|assumption].
      * constructor; [discriminate|assumption].
Qed.

(** ** Loading and unloading *)

Lemma registered_all (commands : list Command) (names : list string) :
  result_map get_name commands = Return names ->
  forall c, In c commands ->
  exists k, get_name c = Return k /\ In (k, c) (registered commands).
Proof.
  revert names. induction commands as [|c0 rest IH]; intros names; simpl.
  - intros _ c [].
  - destruct (get_name c0) as [k0|e] eqn:Hk0; simpl; [|discriminate].
    destruct (result_map get_name rest) as [ns|e]; simpl; [|discriminate].
    intros _ c [<-|Hin].
    + exists k0. split; [assumption | now left].
    + destruct (IH ns eq_refl c Hin) as (k & Hk & Hreg).
      exists k. split; [assumption | now right].
Qed.

Lemma registered_from (commands : list Command) (k : string) (c : Command) :
  In (k, c) (registered commands) -> In c commands.
Proof.
  induction commands as [|c0 rest IH]; simpl; [tauto|].
  destruct (get_name c0); simpl; [|tauto].
  intros [[= _ <-]|Hin]; [now left | right; now apply IH].
Qed.

Lemma last_named_some k (c : Command) regs :
  In (k, c) regs -> exists c', last_named k regs = Some c'.
Proof.
  induction regs as [|[k' c'] rest IH]; simpl; [tauto|].
  intros [[= -> ->]|Hin].
  - destruct (last_named k rest); [eauto|].
    rewrite String.eqb_refl. eauto.
  - destruct (IH Hin) as (c'' & ->). eauto.
Qed.

Lemma last_named_in k (c : Command) regs :
  last_named k regs = Some c -> In (k, c) regs.
Proof.
  induction regs as [|[k' c'] rest IH]; simpl; [discriminate|].
  destruct (last_named k rest) as [c''|].
  - intros [= <-]. right. now apply IH.
  - destruct (String.eqb_spec k k') as [->|Hne]; [|discriminate].
    intros [= <-]. now left.
Qed.





(** After a load that returned [True], the plugin can be looked up under
    the candidate name, its metadata is the snapshot of what its getters
    return together with the path, and every command it reports can be
    looked up under its name: what is found there is a command of this
    plugin with that name (the last one, when two share it). *)
Theorem loaded_plugin_can_be_looked_up (env : Env)
  (plugin_name plugin_path : string) (m m' : PluginManager.t)
  (w w' : World) :
  PluginManager.load_plugin env plugin_name plugin_path (m, w) =
    (Return true, (m', w')) ->
  exists plugin commands,
    plugin_of env (sys_path w) plugin_name plugin_path = Return plugin /\
    Plugin.get_commands plugin = Return commands /\
    Dict.get plugin_name (PluginManager.loaded_plugins m') = Some plugin /\
    (exists info,
        Dict.get plugin_name (PluginManager.plugin_info m') = Some info /\
        Plugin.get_name plugin = Return (info_name info) /\
        Plugin.get_version plugin = Return (info_version info) /\
        Plugin.get_description plugin = Return (info_description info) /\
        info_path info = plugin_path) /\
    (forall c, In c commands ->
       exists k c',
         get_name c = Return k /\
         Dict.get k (PluginManager.plugin_commands m') = Some c' /\
         get_name c' = Return k /\ In c' commands).
Proof.
  intros Hload. apply load_plugin_success in Hload.
  destruct Hload
    as (plugin & name & version & description & commands & names
        & Hplugin & Hinit & Hname & Hversion & Hdescr & Hcommands & Hnames
        & -> & ->).
  exists plugin, commands.
  cbn [PluginManager.plugin_commands PluginManager.loaded_plugins
       PluginManager.plugin_info PluginManager.with_plugin_commands
       PluginManager.with_plugin_info PluginManager.with_loaded_plugins].
  repeat (split; [assumption|]).
  split; [apply get_set_eq|]. split.
  - eexists. split; [apply get_set_eq|]. repeat split; assumption.
  - intros c Hc.
    destruct (registered_all commands names Hnames c Hc) as (k & Hk & Hreg).
    destruct (last_named_some k c _ Hreg) as (c' & Hlast).
    exists k, c'. rewrite get_assign_all, Hlast.
    apply last_named_in in Hlast.
    repeat split; try assumption.
    + pose proof (registered_keyed commands) as Hkeyed.
      rewrite Forall_forall in Hkeyed. exact (Hkeyed (k, c') Hlast).
    + eapply registered_from. exact Hlast.
Qed.

Lemma loaded_plugin_can_be_looked_up_example :
  let env := Fixture.test_env in
  let s :=
    snd (PluginManager.load_plugin env "test_plugin"
           "plugins/test_plugin.py" (Fixture.fresh env)) in
  exists plugin commands,
    plugin_of env [] "test_plugin" "plugins/test_plugin.py" = Return plugin /\
    Plugin.get_commands plugin = Return commands /\
    Dict.get "test_plugin" (PluginManager.loaded_plugins (fst s)) =
      Some plugin /\
    (exists info,
        Dict.get "test_plugin" (PluginManager.plugin_info (fst s)) =
          Some info /\
        Plugin.get_name plugin = Return (info_name info) /\
        Plugin.get_version plugin = Return (info_version info) /\
        Plugin.get_description plugin = Return (info_description info) /\
        info_path info = "plugins/test_plugin.py") /\
    (forall c, In c commands ->
       exists k c',
         get_name c = Return k /\
         Dict.get k (PluginManager.plugin_commands (fst s)) = Some c' /\
         get_name c' = Return k /\ In c' commands).
Proof.
  intros env s.
  apply (loaded_plugin_can_be_looked_up env "test_plugin"
           "plugins/test_plugin.py" (PluginManager.init env None) (fst s)
           Fixture.world0 (snd s)).
  reflexivity.
Defined.




Section AppendedEntries.
Variable V : Type.
Implicit Types (d e : Dict.t V) (k : string) (v : V).

Lemma del_set_absent k v d :
  Dict.mem k d = false -> Dict.del k (Dict.set k v d) = d.
Proof.
  unfold Dict.mem. induction d as [|[k' v'] d IH]; simpl.
  - now rewrite String.eqb_refl.
  - destruct (String.eqb k k') eqn:E; [discriminate|].
    intros H. simpl. rewrite E. now rewrite IH.
Qed.

Lemma set_app_absent k v d e :
  Dict.mem k d = false ->
  Dict.set k v (d ++ e)%list = (d ++ Dict.set k v e)%list.
Proof.
  unfold Dict.mem. induction d as [|[k' v'] d IH]; simpl.
  - reflexivity.
  - destruct (String.eqb k k'); [discriminate|].
    intros H. now rewrite IH.
Qed.

Lemma del_app_absent k d e :
  Dict.mem k d = false ->
  Dict.del k (d ++ e)%list = (d ++ Dict.del k e)%list.
Proof.
  unfold Dict.mem. induction d as [|[k' v'] d IH]; simpl.
  - reflexivity.
  - destruct (String.eqb k k'); [discriminate|].
    intros H. now rewrite IH.
Qed.

End AppendedEntries.

Lemma assign_all_app_absent regs (d : Dict.t Command) :
  (forall k, In k (map fst regs) -> Dict.mem k d = false) ->
  forall e, assign_all regs (d ++ e)%list = (d ++ assign_all regs e)%list.
Proof.
  induction regs as [|[k c] rest IH]; intros Habsent e.
  - reflexivity.
  - rewrite !assign_all_cons, set_app_absent by (apply Habsent; now left).
    apply IH. intros k' Hk'. apply Habsent. now right.
Qed.

Lemma delete_all_app_absent names (d : Dict.t Command) :
  (forall k, In k names -> Dict.mem k d = false) ->
  forall e, delete_all names (d ++ e)%list = (d ++ delete_all names e)%list.
Proof.
  induction names as [|k rest IH]; intros Habsent e.
  - reflexivity.
  - rewrite !delete_all_cons, del_app_absent by (apply Habsent; now left).
    apply IH. intros k' Hk'. apply Habsent. now right.
Qed.

Lemma delete_all_covers names :
  forall e : Dict.t Command,
    Dict.wf e ->
    (forall k, In k (Dict.keys e) -> In k names) ->
    delete_all names e = [].
Proof.
  induction names as [|k rest IH]; intros e Hwf Hsub.
  - destruct e as [|[k v] e]; [reflexivity|].
    destruct (Hsub k). now left.
  - rewrite delete_all_cons. apply IH; [now apply wf_del|].
    intros k' Hk'.
    destruct (Hsub k' (@keys_del_subset _ k k' e Hk')) as [<-|Hin];
      [|assumption].
    apply mem_keys in Hk'. unfold Dict.mem in Hk'.
    now rewrite get_del_eq in Hk'.
Qed.

(** Deleting the names just assigned, from a dictionary that held none of
    them, gives the dictionary back. *)
Lemma delete_all_assign_all regs (d : Dict.t Command) :
  (forall k, In k (map fst regs) -> Dict.mem k d = false) ->
  delete_all (map fst regs) (assign_all regs d) = d.
Proof.
  intros Habsent.
  rewrite <- (app_nil_r d) at 1.
  rewrite assign_all_app_absent, delete_all_app_absent by assumption.
  rewrite delete_all_covers; [apply app_nil_r | |].
  - apply wf_assign_all. constructor.
  - intros k Hk. apply mem_keys, mem_assign_all in Hk.
    destruct Hk as [Hk|Hk]; [discriminate|assumption].
Qed.

(** Loading a plugin and unloading it again gives back the manager one
    started from, entry for entry, when the plugin was not loaded before,
    none of its command names was taken, and its [cleanup] returns: the
    load succeeded, the unload returns [True], and only the world keeps a
    trace (the hook calls and the printed line). *)
Theorem load_then_unload_restores_the_manager (env : Env)
  (plugin_name plugin_path : string) (m m1 : PluginManager.t)
  (w w1 : World) (plugin : Plugin.t) (cleaned : bool)
  (commands : list Command) :
  Dict.mem plugin_name (PluginManager.loaded_plugins m) = false ->
  Dict.mem plugin_name (PluginManager.plugin_info m) = false ->
  plugin_of env (sys_path w) plugin_name plugin_path = Return plugin ->
  Plugin.cleanup plugin = Return cleaned ->
  Plugin.get_commands plugin = Return commands ->
  (forall c k, In c commands -> get_name c = Return k ->
               Dict.mem k (PluginManager.plugin_commands m) = false) ->
  PluginManager.load_plugin env plugin_name plugin_path (m, w) =
    (Return true, (m1, w1)) ->
  PluginManager.unload_plugin plugin_name (m1, w1) =
  (Return true, (m, world_log_hook (CalledCleanup plugin_name) w1)).
Proof.
  intros Hnew Hnewinfo Hplugin Hcleanup Hcommands Hfree Hload.
  apply load_plugin_success in Hload.
  destruct Hload
    as (plugin' & name & version & description & commands' & names
        & Hplugin' & Hinit & Hname & Hversion & Hdescr & Hcommands' & Hnames
        & -> & ->).
  rewrite Hplugin in Hplugin'. injection Hplugin' as <-.
  rewrite Hcommands in Hcommands'. injection Hcommands' as <-.
  rewrite (unload_plugin_nf plugin_name _ _ (plugin := plugin)).
  2:{ cbn [PluginManager.loaded_plugins PluginManager.with_plugin_commands
           PluginManager.with_plugin_info PluginManager.with_loaded_plugins].
      apply get_set_eq. }
  rewrite Hcleanup, Hcommands. cbv zeta. rewrite Hnames.
  unfold PluginManager.with_plugin_commands, PluginManager.with_plugin_info,
    PluginManager.with_loaded_plugins.
  cbn [PluginManager.plugin_commands PluginManager.loaded_plugins
       PluginManager.plugin_info PluginManager.plugin_dirs].
  rewrite mem_set, String.eqb_refl. cbn [orb].
  rewrite !del_set_absent by assumption.
  rewrite delete_all_assign_all; [reflexivity|].
  intros k Hk. apply in_map_iff in Hk. destruct Hk as ([k' c] & <- & Hin).
  pose proof (registered_keyed commands) as Hkeyed.
  rewrite Forall_forall in Hkeyed.
  apply (Hfree c k'); [eapply registered_from; exact Hin|].
  exact (Hkeyed (k', c) Hin).
Qed.

Lemma load_then_unload_restores_the_manager_example :
  let env := Fixture.test_env in
  let s :=
    snd (PluginManager.load_plugin env "test_plugin"
           "plugins/test_plugin.py" (Fixture.fresh env)) in
  PluginManager.unload_plugin "test_plugin" (fst s, snd s) =
  (Return true,
   (PluginManager.init env None,
    world_log_hook (CalledCleanup "test_plugin") (snd s))).
Proof.
  intros env s.
  apply (load_then_unload_restores_the_manager env "test_plugin"
           "plugins/test_plugin.py" (PluginManager.init env None) (fst s)
           Fixture.world0 (snd s) Fixture.TestPlugin true
           [Fixture.TestCommand]);
    reflexivity.
Defined.

(** ** The command registry *)

Lemma last_named_wf k (d : Dict.t Command) :
  Dict.wf d -> last_named k d = Dict.get k d.
Proof.
  unfold Dict.wf. induction d as [|[k' c] d IH]; simpl; intros Hwf.
  - reflexivity.
  - inversion Hwf as [|? ? Hnotin Hrest]; subst.
    rewrite (IH Hrest).
    destruct (String.eqb_spec k k') as [->|Hne].
    + apply mem_false_keys, get_none_mem in Hnotin. now rewrite Hnotin.
    + now destruct (Dict.get k d).
Qed.

(** Whenever [EnhancedCommandRegistry()] returns a registry, the registry
    answers a name in this order: [menu] is always the menu command;
    otherwise a plugin command of that name, if the manager holds one,
    even when the name is a built-in's; otherwise the built-in. The
    built-ins are [add], [subtract], [multiply], [divide], [help], [exit]
    and [quit], the last two being the same command. *)
Theorem plugin_commands_shadow_the_built_ins (env : Env) (w w' : World)
  (r : EnhancedCommandRegistry.t) :
  EnhancedCommandRegistry.init env w = (Return r, w') ->
  exists basic,
    CommandRegistry.init = Return basic /\
    Dict.keys basic =
      ["add"; "subtract"; "multiply"; "divide"; "help"; "exit"; "quit"] /\
    Dict.get "exit" basic = Some ExitCommand /\
    Dict.get "quit" basic = Some ExitCommand /\
    (forall k,
        Dict.get k (EnhancedCommandRegistry.commands r) =
        if String.eqb k "menu" then Some MenuCommand
        else
          match
            Dict.get k
              (PluginManager.plugin_commands
                 (EnhancedCommandRegistry.plugin_manager r))
          with
          | Some c => Some c
          | None => Dict.get k basic
          end).
Proof.
  intros Hinit.
  destruct (enhanced_registry_init_spec env w) as (basic & Hbasic & Hspec).
  rewrite Hinit in Hspec.
  destruct Hspec as (candidates & _ & _ & Hmanager & Hcommands & _).
  exists basic. split; [exact Hbasic|].
  assert (Dict.wf
            (PluginManager.plugin_commands
               (EnhancedCommandRegistry.plugin_manager r))) as Hwf.
  { rewrite Hmanager.
    destruct (load_sequence_commands env candidates
                (PluginManager.init env None) w) as [_ ->].
    apply wf_assign_all. constructor. }
  injection Hbasic as <-.
  repeat (split; [reflexivity|]).
  intros k. rewrite Hcommands.
  destruct (String.eqb_spec k "menu") as [->|Hne].
  - apply get_set_eq.
  - rewrite get_set_ne by congruence.
    now rewrite get_assign_all, last_named_wf.
Qed.

Lemma plugin_commands_shadow_the_built_ins_example :
  exists r w',
    EnhancedCommandRegistry.init Fixture.test_env Fixture.world0 =
      (Return r, w') /\
    exists basic,
      CommandRegistry.init = Return basic /\
      Dict.keys basic =
        ["add"; "subtract"; "multiply"; "divide"; "help"; "exit"; "quit"] /\
      Dict.get "exit" basic = Some ExitCommand /\
      Dict.get "quit" basic = Some ExitCommand /\
      (forall k,
          Dict.get k (EnhancedCommandRegistry.commands r) =
          if String.eqb k "menu" then Some MenuCommand
          else
            match
              Dict.get k
                (PluginManager.plugin_commands
                   (EnhancedCommandRegistry.plugin_manager r))
            with
            | Some c => Some c
            | None => Dict.get k basic
            end).
Proof.
  do 2 eexists. split; [reflexivity|].
  eapply (plugin_commands_shadow_the_built_ins Fixture.test_env
            Fixture.world0).
  reflexivity.
Defined.

(** A plugin that calls its command [add] takes the place of the built-in
    addition. *)
Example plugin_add_replaces_the_built_in :
  let shadow := Fixture.command_named "add" (VStr "mine") in
  let env :=
    Fixture.example_env
      (Fixture.plugin_with [shadow] Plugin.default_initialize
         Plugin.default_cleanup) in
  exists r w',
    EnhancedCommandRegistry.init env Fixture.world0 = (Return r, w') /\
    CommandRegistry.get_command "ADD" (EnhancedCommandRegistry.commands r) =
      Some shadow.
Proof. do 2 eexists. split; reflexivity. Qed.

(** Registering a command whose name is lower-cased and looking it up
    under any casing of the name gives the command back; every other key
    keeps what it had. *)
Theorem registered_command_is_found_again (command : Command)
  (commands : Dict.t Command) (name : string) :
  get_name command = Return name ->
  Str.lower name = name ->
  exists commands',
    CommandRegistry.register_command command commands = Return commands' /\
    (forall s, Str.lower s = name ->
               CommandRegistry.get_command s commands' = Some command) /\
    (forall k, k <> name -> Dict.get k commands' = Dict.get k commands).
Proof.
  intros Hname Hlower.
  exists (Dict.set name command commands).
  unfold CommandRegistry.register_command, CommandRegistry.get_command.
  rewrite Hname. split; [reflexivity|]. split.
  - intros s ->. apply get_set_eq.
  - intros k Hk. apply get_set_ne. congruence.
Qed.

Lemma registered_command_is_found_again_example :
  let command := ArithmeticCommand "Modulo" float_add in
  exists commands',
    CommandRegistry.register_command command Dict.empty = Return commands' /\
    (forall s, Str.lower s = "modulo" ->
               CommandRegistry.get_command s commands' = Some command) /\
    (forall k, k <> "modulo" -> Dict.get k commands' = Dict.get k Dict.empty).
Proof.
  apply (registered_command_is_found_again
           (ArithmeticCommand "Modulo" float_add) Dict.empty "modulo");
    reflexivity.
Defined.

Lemma lower_replace_space (s : string) :
  Str.lower (replace_char " "%char "_"%char (Str.lower s)) =
  replace_char " "%char "_"%char (Str.lower s).
Proof.
  induction s as [|c s IH]; simpl; [reflexivity|].
  rewrite IH. f_equal.
  destruct c as [[] [] [] [] [] [] [] []]; reflexivity.
Qed.

(** Every command class of the core and of the two shipped plugins reports
    a lower-cased name, whatever the casing of the operation it was built
    with: the name is a fixed point of [lower], so it is the key
    [get_command] looks under. *)
Theorem shipped_names_are_lower_cased (operation : string) :
  Str.lower (ArithmeticCommand.get_name operation) =
    ArithmeticCommand.get_name operation /\
  Str.lower (ScientificCommand.get_name operation) =
    ScientificCommand.get_name operation /\
  Str.lower (StatisticsCommand.get_name operation) =
    StatisticsCommand.get_name operation /\
  (forall c name,
      (forall methods, c <> OtherCommand methods) ->
      get_name c = Return name -> Str.lower name = name).
Proof.
  repeat split.
  - apply lower_idempotent.
  - apply lower_idempotent.
  - apply lower_replace_space.
  - intros c name Hcore Hname. destruct c; simpl in Hname.
    + injection Hname as <-. apply lower_idempotent.
    + now injection Hname as <-.
    + now injection Hname as <-.
    + now injection Hname as <-.
    + now destruct (Hcore methods).
Qed.

(** ** The session *)

Lemma printed_nil (w : World) : printed [] w w.
Proof. unfold printed. now rewrite app_nil_r. Qed.

Lemma printed_print (line : string) (w : World) :
  printed [line] w (world_print line w).
Proof. repeat split. Qed.

Lemma printed_trans (l1 l2 : list string) (w w1 w2 : World) :
  printed l1 w w1 -> printed l2 w1 w2 -> printed (l1 ++ l2)%list w w2.
Proof.
  unfold printed. intros (H1 & H2 & H3) (H4 & H5 & H6).
  rewrite H4, H1, H5, H2, H6, H3, app_assoc. repeat split.
Qed.

Lemma printed_after (line : string) (lines : list string) (w w' : World) :
  printed lines (world_print line w) w' -> printed (line :: lines) w w'.
Proof.
  intros H. apply (printed_trans [line] lines w (world_print line w) w').
  - apply printed_print.
  - exact H.
Qed.

Lemma printed_app (l1 l2 : list string) (w w' : World) :
  (exists w1, printed l1 w w1 /\ printed l2 w1 w') ->
  printed (l1 ++ l2)%list w w'.
Proof. intros (w1 & H1 & H2). now apply (printed_trans l1 l2 w w1 w'). Qed.

Lemma show_entries_spec (env : Env) (entries : list HistoryEntry) (i : nat)
  (e : REPLEngine.t) (w : World) :
  exists w',
    REPLEngine.show_entries env i entries (e, w) = (Return tt, (e, w')) /\
    printed
      (flat_map (fun numbered => entry_lines env (fst numbered)
                                   (snd numbered))
         (combine (seq i (List.length entries)) entries)) w w'.
Proof.
  revert i w. induction entries as [|entry rest IH]; intros i w.
  - exists w. split; [reflexivity | apply printed_nil].
  - cbn [REPLEngine.show_entries]. unfold REPLEngine.show_entry.
    rewrite bind_assoc_run. run. cbv [print modify]. cbn [fst snd].
    match goal with
    | |- context [REPLEngine.show_entries env (S i) rest (e, ?w1)] =>
        destruct (IH (S i) w1) as (w' & Hrun & Hprinted)
    end.
    exists w'. split; [exact Hrun|].
    cbn [List.length seq combine flat_map fst snd].
    unfold entry_lines at 1. cbn [app].
    apply printed_after, printed_after. exact Hprinted.
Qed.

Lemma history_report_length (env : Env) (history : list HistoryEntry) :
  List.length (history_report env history) =
  history_lines (List.length history).
Proof.
  destruct history as [|entry0 rest0]; [reflexivity|].
  unfold history_report. cbv beta iota zeta.
  set (history := entry0 :: rest0).
  assert (history_lines (List.length history) =
          3 + 2 * Nat.min (List.length history) 10
            + (if (10 <? List.length history)%nat then 1 else 0)) as ->
    by reflexivity.
  set (shown := skipn (List.length history - 10) history).
  assert (List.length shown = Nat.min (List.length history) 10) as Hshown
    by (unfold shown; rewrite length_skipn; lia).
  assert (forall (l : list HistoryEntry) i,
             List.length
               (flat_map (fun numbered => entry_lines env (fst numbered)
                                            (snd numbered))
                  (combine (seq i (List.length l)) l)) =
             2 * List.length l) as Htwo.
  { induction l as [|x l IH]; intros i; [reflexivity|].
    cbn [List.length seq combine flat_map]. rewrite length_app, IH.
    cbn [entry_lines List.length]. lia. }
  cbn [app List.length]. rewrite !length_app, Htwo, Hshown.
  destruct (10 <? List.length history)%nat; cbn [List.length]; lia.
Qed.

Lemma show_history_spec (env : Env) (e : REPLEngine.t) (w : World) :
  exists w',
    REPLEngine._show_history env (e, w) = (Return tt, (e, w')) /\
    printed (history_report env (REPLEngine.history_tracker e)) w w'.
Proof.
  unfold REPLEngine._show_history. run. cbv zeta.
  unfold HistoryTracker.get_history.
  destruct (REPLEngine.history_tracker e) as [|entry0 rest0] eqn:Hhistory.
  { exists (world_print "No history available." w). repeat split. }
  set (history := entry0 :: rest0).
  run. rewrite bind_assoc_run.
  match goal with
  | |- context [REPLEngine.show_entries env 1 ?entries (e, ?w1)] =>
      destruct (show_entries_spec env entries 1 e w1)
        as (w' & Hrun & Hprinted);
      rewrite Hrun
  end.
  unfold history_report. cbv beta iota zeta. fold history.
  destruct (10 <? List.length history)%nat; run;
    (eexists; split; [reflexivity|]);
    cbn [app]; apply printed_after, printed_after;
    (eapply printed_trans; [exact Hprinted|]).
  - apply printed_after, printed_print.
  - apply printed_print.
Qed.

(** A line that reads [history], in any casing and with blanks around it,
    is not dispatched as a command: the engine stays as it is, nothing is
    logged, and what is printed is the report of the history: one line for
    an empty history, and otherwise a title, a rule, two lines for each of
    the last ten entries, numbered from one in the order they were made,
    past ten entries one line counting the others, and a rule. *)
Theorem history_line_shows_the_last_ten (env : Env) (text now : string)
  (e : REPLEngine.t) (w : World) :
  Str.lower (Str.strip text) = "history" ->
  exists w',
    REPLEngine.handle_line env text now (e, w) = (Return tt, (e, w')) /\
    stdout w' =
      (stdout w ++ history_report env (REPLEngine.history_tracker e))%list /\
    List.length (history_report env (REPLEngine.history_tracker e)) =
      history_lines (List.length (REPLEngine.history_tracker e)).
Proof.
  intros Hhistory. unfold REPLEngine.handle_line. cbv zeta.
  rewrite Hhistory.
  destruct (String.eqb_spec (Str.strip text) "") as [Hblank|_].
  - rewrite Hblank in Hhistory. discriminate Hhistory.
  - destruct (show_history_spec env e w) as (w' & Hrun & Hprinted & _).
    exists w'. split; [exact Hrun|]. split; [exact Hprinted|].
    apply history_report_length.
Qed.

Lemma history_line_shows_the_last_ten_example :
  let e :=
    {| REPLEngine.command_registry :=
         {| EnhancedCommandRegistry.commands := Dict.empty;
            EnhancedCommandRegistry.plugin_manager :=
              PluginManager.init Fixture.test_env None |};
       REPLEngine.history_tracker :=
         HistoryTracker.add_entry "add" ["1"; "2"] (VStr "3") true "11:59" [];
       REPLEngine.running := true |} in
  exists w',
    REPLEngine.handle_line Fixture.test_env "  History " "12:00"
      (e, Fixture.world0) = (Return tt, (e, w')) /\
    stdout w' =
      (stdout Fixture.world0
         ++ history_report Fixture.test_env
              (REPLEngine.history_tracker e))%list /\
    List.length
      (history_report Fixture.test_env (REPLEngine.history_tracker e)) =
      history_lines (List.length (REPLEngine.history_tracker e)).
Proof.
  intros e.
  apply (history_line_shows_the_last_ten Fixture.test_env "  History "
           "12:00" e Fixture.world0).
  reflexivity.
Defined.

(** Of twelve entries the last ten are shown, the third one first. *)
Example history_of_twelve :
  let entry (i : nat) :=
    {| entry_command := "add";
       entry_args := [Str.of_nat i; "1"];
       entry_result := VStr "sum";
       entry_success := true;
       entry_timestamp := "12:00" |} in
  let report := history_report Fixture.test_env (map entry (seq 1 12)) in
  List.length report = 24 /\
  nth 2 report "" = " 1. [✓] 12:00 | add 3 1" /\
  nth 20 report "" = "10. [✓] 12:00 | add 12 1" /\
  nth 22 report "" = "... (2 more entries)".
Proof. repeat split. Qed.

Lemma split_from_nil (s cur : string) :
  Str.split_from s cur = [] -> cur = EmptyString /\ Str.lstrip s = EmptyString.
Proof.
  revert cur. induction s as [|c s IH]; intros cur; simpl.
  - destruct cur; [tauto | discriminate].
  - destruct (Str.is_space c).
    + destruct cur; [|discriminate]. intros H. now apply IH in H.
    + intros H. apply IH in H. destruct H as [H _]. discriminate H.
Qed.

Lemma lstrip_rev_onto (s acc : string) :
  Str.lstrip acc <> EmptyString ->
  Str.lstrip (Str.rev_onto s acc) <> EmptyString.
Proof.
  revert acc. induction s as [|c s IH]; intros acc Hacc; simpl.
  - exact Hacc.
  - apply IH. simpl. destruct (Str.is_space c); [exact Hacc | discriminate].
Qed.

Lemma lstrip_head (s : string) :
  Str.lstrip s = EmptyString \/
  exists c s', Str.lstrip s = String c s' /\ Str.is_space c = false.
Proof.
  induction s as [|c s IH]; simpl.
  - now left.
  - destruct (Str.is_space c) eqn:Hc; [exact IH|].
    right. now exists c, s.
Qed.

(** What [strip] leaves, if anything, starts a word: [split] finds at
    least one part in it. *)
Lemma split_strip (text : string) :
  Str.strip text <> EmptyString ->
  exists part0 args, Str.split (Str.strip text) = part0 :: args.
Proof.
  intros Hne.
  destruct (Str.split (Str.strip text)) as [|part0 args] eqn:Hsplit;
    [|now exists part0, args].
  apply split_from_nil in Hsplit. destruct Hsplit as [_ Hblank].
  exfalso. revert Hne Hblank. unfold Str.strip, Str.rstrip, Str.rev.
  destruct (lstrip_head (Str.rev_onto (Str.lstrip text) EmptyString))
    as [->|(c & s' & -> & Hc)]; simpl.
  - intros Hne _. now apply Hne.
  - intros _. apply lstrip_rev_onto. simpl. rewrite Hc. discriminate.
Qed.

Lemma lstrip_blank (text : string) :
  forallb Str.is_space (list_ascii_of_string text) = true ->
  Str.lstrip text = EmptyString.
Proof.
  induction text as [|c s IH]; simpl; [reflexivity|].
  destruct (Str.is_space c); [exact IH | discriminate].
Qed.

(** A line of blanks only, or an empty one, is skipped: the engine and
    the world stay as they were, nothing is printed or logged. *)
Theorem blank_line_is_skipped (env : Env) (text now : string)
  (e : REPLEngine.t) (w : World) :
  forallb Str.is_space (list_ascii_of_string text) = true ->
  REPLEngine.handle_line env text now (e, w) = (Return tt, (e, w)).
Proof.
  intros Hblank. unfold REPLEngine.handle_line, Str.strip, Str.rstrip.
  now rewrite (lstrip_blank text Hblank).
Qed.

Lemma blank_line_is_skipped_example :
  let s := (Fixture.fresh Fixture.test_env) in
  forallb Str.is_space (list_ascii_of_string " 	 ") = true /\
  REPLEngine.handle_line Fixture.test_env " 	 " "12:00"
    ({| REPLEngine.command_registry :=
          {| EnhancedCommandRegistry.commands := Dict.empty;
             EnhancedCommandRegistry.plugin_manager := fst s |};
        REPLEngine.history_tracker := [];
        REPLEngine.running := true |}, snd s) =
  (Return tt,
   ({| REPLEngine.command_registry :=
         {| EnhancedCommandRegistry.commands := Dict.empty;
            EnhancedCommandRegistry.plugin_manager := fst s |};
       REPLEngine.history_tracker := [];
       REPLEngine.running := true |}, snd s)).
Proof.
  intros s. split; [reflexivity|].
  apply (blank_line_is_skipped Fixture.test_env " 	 " "12:00").
  reflexivity.
Defined.

Lemma last_app_named (l1 l2 : list string) (x : string) :
  x <> "" -> last l2 "" = x -> last (l1 ++ l2)%list "" = x.
Proof.
  intros Hx Hlast. destruct l2 as [|y l2]; [simpl in Hlast; congruence|].
  rewrite <- Hlast. clear Hlast.
  induction l1 as [|z l1 IH]; [reflexivity|].
  simpl app. rewrite <- IH. simpl.
  destruct (l1 ++ y :: l2)%list eqn:E; [|reflexivity].
  now destruct l1.
Qed.

(** One line that was read, handled. *)
Lemma handle_line_spec (env : Env) (text now : string) (e : REPLEngine.t)
  (w : World) :
  let commands :=
    EnhancedCommandRegistry.commands (REPLEngine.command_registry e) in
  let manager :=
    EnhancedCommandRegistry.plugin_manager (REPLEngine.command_registry e) in
  exists r e' w' lines,
    REPLEngine.handle_line env text now (e, w) = (r, (e', w')) /\
    printed lines w w' /\
    REPLEngine.command_registry e' = REPLEngine.command_registry e /\
    (REPLEngine.history_tracker e' = REPLEngine.history_tracker e \/
     exists entry,
       REPLEngine.history_tracker e' =
         (REPLEngine.history_tracker e ++ [entry])%list /\
       entry_timestamp entry = now /\
       Str.lower (entry_command entry) = entry_command entry) /\
    (REPLEngine.running e' = REPLEngine.running e \/
     REPLEngine.running e' = false /\ last lines "" = "Goodbye!") /\
    match r with
    | Return _ => True
    | Raise exc =>
        e' = e /\
        is_ValueError exc = false /\
        exists name command args,
          CommandRegistry.get_command name commands = Some command /\
          execute env commands manager command args = Raise exc
    end.
Proof.
  intros commands manager. unfold REPLEngine.handle_line. cbv zeta.
  destruct (String.eqb_spec (Str.strip text) "") as [Hblank|Hword].
  { exists (Return tt), e, w, []. split; [reflexivity|].
    split; [apply printed_nil|]. repeat split; now left. }
  destruct (String.eqb (Str.lower (Str.strip text)) "history").
  { destruct (show_history_spec env e w) as (w' & Hrun & Hprinted).
    exists (Return tt), e, w'. eexists. split; [exact Hrun|].
    split; [exact Hprinted|]. repeat split; now left. }
  rewrite process_command_nf.
  destruct (split_strip text Hword) as (part0 & args & ->). cbv zeta.
  fold commands manager.
  assert (forall result success,
             exists entry,
               (REPLEngine.history_tracker e
                  ++ [{| entry_command := Str.lower part0;
                         entry_args := args;
                         entry_result := result;
                         entry_success := success;
                         entry_timestamp := now |}])%list =
               (REPLEngine.history_tracker e ++ [entry])%list /\
               entry_timestamp entry = now /\
               Str.lower (entry_command entry) = entry_command entry)
    as Hentry.
  { intros result success. eexists. split; [reflexivity|].
    split; [reflexivity | apply lower_idempotent]. }
  destruct (CommandRegistry.get_command (Str.lower part0) commands)
    as [command|] eqn:Hget.
  2:{ do 4 eexists. split; [reflexivity|].
      split; [apply printed_print|]. split; [reflexivity|].
      split; [right; apply Hentry|]. split; [now left | exact I]. }
  destruct (execute env commands manager command args) as [result|exc]
    eqn:Hexec.
  - destruct (REPLEngine.is_exit result).
    + do 4 eexists. split; [reflexivity|].
      split; [apply printed_print|]. split; [reflexivity|].
      split; [now left|]. split; [right; split; reflexivity | exact I].
    + do 4 eexists. split; [reflexivity|].
      split; [apply printed_print|]. split; [reflexivity|].
      split; [right; apply Hentry|]. split; [now left | exact I].
  - destruct (is_ValueError exc) eqn:Hvalue.
    + do 4 eexists. split; [reflexivity|].
      split; [apply printed_print|]. split; [reflexivity|].
      split; [right; apply Hentry|]. split; [now left | exact I].
    + do 3 eexists. exists []. split; [reflexivity|].
      split; [apply printed_nil|]. split; [reflexivity|].
      split; [now left|]. split; [now left|]. split; [reflexivity|].
      split; [exact Hvalue|].
      now exists (Str.lower part0), command, args.
Qed.

(** One pass of the [try] block of the loop, after the prompt. *)
Lemma read_and_handle_spec (env : Env) (event : input_event)
  (e : REPLEngine.t) (w : World) :
  let commands :=
    EnhancedCommandRegistry.commands (REPLEngine.command_registry e) in
  let manager :=
    EnhancedCommandRegistry.plugin_manager (REPLEngine.command_registry e) in
  exists r e' w' lines entries,
    REPLEngine.read_and_handle env event (e, w) = (r, (e', w')) /\
    printed lines w w' /\
    REPLEngine.command_registry e' = REPLEngine.command_registry e /\
    REPLEngine.history_tracker e' =
      (REPLEngine.history_tracker e ++ entries)%list /\
    List.length entries <= 1 /\
    Forall (logged_from [event]) entries /\
    (REPLEngine.running e' = REPLEngine.running e \/
     REPLEngine.running e' = false /\ last lines "" = "Goodbye!") /\
    match r with
    | Return _ => True
    | Raise exc =>
        e' = e /\
        (event = InputRaises exc \/
         is_ValueError exc = false /\
         exists name command args,
           CommandRegistry.get_command name commands = Some command /\
           execute env commands manager command args = Raise exc)
    end.
Proof.
  intros commands manager. destruct event as [text now|exc].
  - cbn [REPLEngine.read_and_handle].
    destruct (handle_line_spec env text now e w)
      as (r & e' & w' & lines & Hrun & Hprinted & Hreg & Hhist & Hrunning
          & Hend).
    exists r, e', w', lines.
    destruct Hhist as [Hsame|(entry & Hmore & Hnow & Hlower)].
    + exists []. rewrite app_nil_r.
      split; [exact Hrun|]. split; [exact Hprinted|]. split; [exact Hreg|].
      split; [exact Hsame|]. split; [cbn; lia|]. split; [constructor|].
      split; [exact Hrunning|].
      destruct r; [exact I|]. destruct Hend as [He Hend].
      split; [exact He | right; exact Hend].
    + exists [entry].
      split; [exact Hrun|]. split; [exact Hprinted|]. split; [exact Hreg|].
      split; [exact Hmore|]. split; [cbn; lia|].
      split.
      { constructor; [|constructor]. split; [|exact Hlower].
        exists text. left. now rewrite Hnow. }
      split; [exact Hrunning|].
      destruct r; [exact I|]. destruct Hend as [He Hend].
      split; [exact He | right; exact Hend].
  - exists (Raise exc), e, w, [], [].
    split; [reflexivity|]. split; [apply printed_nil|].
    split; [reflexivity|]. split; [now rewrite app_nil_r|].
    split; [cbn; lia|]. split; [constructor|]. split; [now left|].
    split; [reflexivity | now left].
Qed.

Lemma logged_from_more (event : input_event) (inputs : list input_event)
  (entries : list HistoryEntry) :
  Forall (logged_from inputs) entries ->
  Forall (logged_from (event :: inputs)) entries.
Proof.
  apply Forall_impl. intros entry [[text Hin] Hlower].
  split; [|exact Hlower]. exists text. now right.
Qed.

Lemma logged_from_first (event : input_event) (inputs : list input_event)
  (entries : list HistoryEntry) :
  Forall (logged_from [event]) entries ->
  Forall (logged_from (event :: inputs)) entries.
Proof.
  apply Forall_impl. intros entry [[text Hin] Hlower].
  split; [|exact Hlower]. exists text.
  destruct Hin as [Hin|[]]. now left.
Qed.

Lemma leaves_loop_more (env : Env) (registry : EnhancedCommandRegistry.t)
  (event : input_event) (inputs : list input_event) (exc : exn) :
  leaves_loop env registry inputs exc ->
  leaves_loop env registry (event :: inputs) exc.
Proof.
  intros (Hki & Heof & Horigin). repeat split; try assumption.
  destruct Horigin as [Hin|Hcommand]; [left; now right | now right].
Qed.

(** The loop, from any engine: what it leaves and how it ends. *)
Lemma loop_spec (env : Env) (inputs : list input_event) :
  forall (e : REPLEngine.t) (w : World),
  exists r e' w' lines entries,
    REPLEngine.loop env inputs (e, w) = (r, (e', w')) /\
    loop_outcome env inputs e w r e' w' lines entries.
Proof.
  induction inputs as [|event rest IH]; intros e w.
  - cbn [REPLEngine.loop]. run.
    destruct (REPLEngine.running e) eqn:Hrunning; cbn [negb].
    + run. exists (Return tt), e. eexists.
      exists ["calc> "; (Str.nl ++ "Goodbye!")%string], [].
      split; [reflexivity|].
      split; [apply printed_after, printed_print|].
      split; [reflexivity|]. split; [now rewrite app_nil_r|].
      split; [reflexivity|]. split; [constructor|]. right. now right.
    + exists (Return tt), e, w, [], [].
      split; [reflexivity|]. split; [apply printed_nil|].
      split; [reflexivity|]. split; [now rewrite app_nil_r|].
      split; [reflexivity|]. split; [constructor|]. now left.
  - cbn [REPLEngine.loop]. run.
    destruct (REPLEngine.running e) eqn:Hrunning; cbn [negb].
    2:{ exists (Return tt), e, w, [], [].
        split; [reflexivity|]. split; [apply printed_nil|].
        split; [reflexivity|]. split; [now rewrite app_nil_r|].
        split; [cbn [List.length]; lia|]. split; [constructor|]. now left. }
    run.
    (* what the rest of the loop gives after this pass *)
    assert (forall e1 w1 lines1 entries1,
               printed lines1 (world_print "calc> " w) w1 ->
               REPLEngine.command_registry e1 =
                 REPLEngine.command_registry e ->
               REPLEngine.history_tracker e1 =
                 (REPLEngine.history_tracker e ++ entries1)%list ->
               List.length entries1 <= 1 ->
               Forall (logged_from [event]) entries1 ->
               (REPLEngine.running e1 = true \/
                REPLEngine.running e1 = false /\
                goodbye_last ("calc> " :: lines1)) ->
               exists r e' w' lines entries,
                 REPLEngine.loop env rest (e1, w1) = (r, (e', w')) /\
                 loop_outcome env (event :: rest) e w r e' w' lines entries)
      as Hcontinue.
    { intros e1 w1 lines1 entries1 Hprinted1 Hreg1 Hhist1 Hlen1 Hlogged1
             Hrunning1.
      destruct (IH e1 w1)
        as (r & e' & w' & lines & entries & Hrun & Hprinted & Hreg & Hhist
            & Hlen & Hlogged & Hend).
      exists r, e', w', ("calc> " :: lines1 ++ lines)%list,
        (entries1 ++ entries)%list.
      split; [exact Hrun|].
      split; [apply printed_after;
              apply (printed_trans lines1 lines _ w1 w'); assumption|].
      split; [congruence|].
      split; [rewrite Hhist, Hhist1, <- app_assoc; reflexivity|].
      split; [rewrite length_app; cbn [List.length]; lia|].
      split; [apply Forall_app; split;
              [now apply logged_from_first | now apply logged_from_more]|].
      destruct r as [[]|exc].
      - right. destruct Hend as [[Hstop ->]|Hend].
        + rewrite app_nil_r.
          destruct Hrunning1 as [Hgo|[_ Hbye]]; [congruence | exact Hbye].
        + destruct Hend as [Hend|Hend]; [left|right];
            apply (last_app_named ("calc> " :: lines1) lines);
            (discriminate || exact Hend).
      - rewrite Hreg1 in Hend. now apply leaves_loop_more. }
    rewrite bind_assoc_run. unfold try_except_when at 1.
    rewrite bind_assoc_run.
    match goal with
    | |- context [REPLEngine.read_and_handle env event (e, ?w1)] =>
        destruct (read_and_handle_spec env event e w1)
          as (r1 & e1 & w1' & lines1 & entries1 & Hrun1 & Hprinted1 & Hreg1
              & Hhist1 & Hlen1 & Hlogged1 & Hrunning1 & Hend1);
        rewrite Hrun1
    end.
    rewrite Hrunning in Hrunning1.
    destruct r1 as [[]|exc].
    + run. apply (Hcontinue e1 w1' lines1 entries1); try assumption.
      destruct Hrunning1 as [Hgo|[Hstop Hbye]]; [now left|].
      right. split; [exact Hstop|]. left.
      apply (last_app_named ["calc> "] lines1); (discriminate || exact Hbye).
    + destruct (is_KeyboardInterrupt exc) eqn:Hki; cbn [orb].
      * run. cbv [print modify]. cbn [fst snd]. run.
        destruct Hend1 as [-> Hend1].
        apply (Hcontinue e _
                 (lines1
                    ++ [(Str.nl
                           ++ "Use 'exit' or 'quit' to leave the calculator.")%string])%list
                 entries1); try assumption; [|left; exact Hrunning].
        eapply printed_trans; [exact Hprinted1 | apply printed_print].
      * destruct (is_EOFError exc) eqn:Heof.
        -- run. cbv [print modify]. cbn [fst snd]. run.
           exists (Return tt), e1. eexists.
           exists ("calc> " :: lines1 ++ [(Str.nl ++ "Goodbye!")%string])%list,
             entries1.
           split; [reflexivity|].
           split; [apply printed_after;
                   eapply printed_trans; [exact Hprinted1|apply printed_print]|].
           split; [exact Hreg1|]. split; [exact Hhist1|].
           split; [cbn [List.length]; lia|].
           split; [now apply logged_from_first|].
           right. right.
           apply (last_app_named ("calc> " :: lines1)
                    [(Str.nl ++ "Goodbye!")%string]);
             [discriminate | reflexivity].
        -- exists (Raise exc), e1, w1', ("calc> " :: lines1), entries1.
           split; [reflexivity|].
           split; [apply printed_after; exact Hprinted1|].
           split; [exact Hreg1|]. split; [exact Hhist1|].
           split; [cbn [List.length]; lia|].
           split; [now apply logged_from_first|].
           split; [exact Hki|]. split; [exact Heof|].
           destruct Hend1 as [_ [->|Hcommand]]; [left; now left | now right].
Qed.

(** [start], from any engine: the loop's facts, with the flag set first
    and the banner printed. *)
Lemma start_spec (env : Env) (inputs : list input_event) (e : REPLEngine.t)
  (w : World) :
  exists r e' w' lines entries,
    REPLEngine.start env inputs (e, w) = (r, (e', w')) /\
    printed lines w w' /\
    REPLEngine.command_registry e' = REPLEngine.command_registry e /\
    REPLEngine.history_tracker e' =
      (REPLEngine.history_tracker e ++ entries)%list /\
    List.length entries <= List.length inputs /\
    Forall (logged_from inputs) entries /\
    match r with
    | Return _ => goodbye_last lines
    | Raise exc => leaves_loop env (REPLEngine.command_registry e) inputs exc
    end.
Proof.
  unfold REPLEngine.start, REPLEngine._print_welcome. run.
  rewrite bind_assoc_run. run. cbv [print modify]. cbn [fst snd].
  match goal with
  | |- context [REPLEngine.loop env inputs (?e1, ?w1)] =>
      destruct (loop_spec env inputs e1 w1)
        as (r & e' & w' & lines & entries & Hrun & Hprinted & Hreg & Hhist
            & Hlen & Hlogged & Hend)
  end.
  exists r, e', w'. eexists (_ :: _ :: _ :: _ :: _ :: lines), entries.
  split; [exact Hrun|].
  split; [do 5 apply printed_after; exact Hprinted|].
  split; [exact Hreg|]. split; [exact Hhist|]. split; [exact Hlen|].
  split; [exact Hlogged|].
  destruct r as [[]|exc]; [|exact Hend].
  destruct Hend as [[Hstop _]|Hend]; [discriminate Hstop|].
  destruct Hend as [Hend|Hend]; [left|right];
    apply (last_app_named [_; _; _; _; _] lines); (discriminate || exact Hend).
Qed.


(** [EnhancedREPLEngine()] returns when [EnhancedCommandRegistry()] does,
    with that registry, and raises what it raises. *)
Lemma repl_init_spec (env : Env) (w : World) :
  REPLEngine.init env w =
  match EnhancedCommandRegistry.init env w with
  | (Return registry, w') =>
      (Return {| REPLEngine.command_registry := registry;
                 REPLEngine.history_tracker := [];
                 REPLEngine.running := false |}, w')
  | (Raise e, w') => (Raise e, w')
  end.
Proof.
  unfold REPLEngine.init.
  destruct (enhanced_registry_init_spec env w) as (basic & -> & _).
  reflexivity.
Qed.

(** How the program ends, the output accepting what is printed. Either
    [main] returns 0 and the last line printed is a [Goodbye!]; or it
    returns 1, the last line is [Fatal error: ] with the message of an
    exception, and that exception is an instance of [Exception]; or it
    raises what is no instance of [Exception]. What makes it fail was
    raised while the plugins were loaded at startup, or by [input], or by
    the [execute] of a command of the registry, and in the loop it is
    neither a [KeyboardInterrupt] nor an [EOFError], nor a [ValueError] of
    a command. *)
Theorem main_outcomes (env : Env) (inputs : list input_event) (w : World) :
  match main env inputs w with
  | (Return status, w') =>
      status = 0 /\ goodbye_last (stdout w') \/
      status = 1 /\
      exists exc,
        is_Exception exc = true /\
        last (stdout w') "" = "Fatal error: " ++ exn_msg exc /\
        fatal env inputs w exc
  | (Raise exc, _) => is_Exception exc = false /\ fatal env inputs w exc
  end.
Proof.
  assert (forall exc w1,
             fatal env inputs w exc ->
             match
               (if is_Exception exc
                then (Return 1,
                      world_print ("Fatal error: " ++ exn_msg exc) w1)
                else (Raise exc, w1))
             with
             | (Return status, w') =>
                 status = 0 /\ goodbye_last (stdout w') \/
                 status = 1 /\
                 exists exc',
                   is_Exception exc' = true /\
                   last (stdout w') "" = "Fatal error: " ++ exn_msg exc' /\
                   fatal env inputs w exc'
             | (Raise exc', _) =>
                 is_Exception exc' = false /\ fatal env inputs w exc'
             end) as Hfatal.
  { intros exc w1 Hexc. destruct (is_Exception exc) eqn:He.
    - right. split; [reflexivity|]. exists exc.
      split; [exact He|]. split; [|exact Hexc].
      cbn [stdout world_print]. apply last_last.
    - now split. }
  unfold main. cbv zeta. rewrite repl_init_spec.
  destruct (enhanced_registry_init_spec env w) as (basic & _ & Hspec).
  destruct (EnhancedCommandRegistry.init env w) as [[registry|exc] w1]
    eqn:Hinit.
  2:{ apply Hfatal. now left. }
  match goal with
  | |- context [REPLEngine.start env inputs (?e1, w1)] =>
      destruct (start_spec env inputs e1 w1)
        as (res & e' & w' & lines & entries & Hrun & Hprinted & _ & _ & _
            & _ & Hend);
      rewrite Hrun
  end.
  cbn [REPLEngine.command_registry] in Hend.
  destruct res as [[]|exc].
  - left. split; [reflexivity|].
    destruct Hprinted as (-> & _).
    destruct Hend as [Hend|Hend]; [left|right];
      apply last_app_named; (discriminate || exact Hend).
  - apply Hfatal. right. now exists registry, w1.
Qed.

(** A plugin command that raises a [RuntimeError] ends the program with
    status 1; a plugin file that calls [sys.exit(1)] ends it before the
    first prompt, and [main] does not return; undecodable input ends it
    with status 1 although it is a [ValueError]. *)
Example crash_ends_the_program :
  (let env := Fixture.example_env Fixture.crash_plugin in
   let run := main env [Line "crash" "12:00"; Line "add 1 1" "12:01"]
                Fixture.world0 in
   fst run = Return 1 /\
   last (stdout (snd run)) "" = "Fatal error: crash") /\
  fst (main Fixture.exiting_env [Line "add 1 1" "12:00"] Fixture.world0) =
    Raise (Exn SystemExit "1") /\
  (let run :=
     main Fixture.test_env
       [InputRaises (Exn ValueError "'utf-8' codec can't decode byte 0xff")]
       Fixture.world0 in
   fst run = Return 1 /\
   last (stdout (snd run)) "" =
     "Fatal error: 'utf-8' codec can't decode byte 0xff").
Proof. repeat split. Qed.

(** The commands of the core, in a registry that holds no plugin command,
    raise nothing but [ValueError]. *)
Lemma core_commands_raise_value_errors (env : Env) (basic : Dict.t Command)
  (name : string) (command : Command) (args : list string) (exc : exn) :
  let commands := Dict.set "menu" MenuCommand basic in
  CommandRegistry.init = Return basic ->
  CommandRegistry.get_command name commands = Some command ->
  execute env commands (PluginManager.init env None) command args =
    Raise exc ->
  is_ValueError exc = true.
Proof.
  intros commands Hbasic.
  assert (commands =
          [("add", ArithmeticCommand "add" float_add);
           ("subtract", ArithmeticCommand "subtract" float_sub);
           ("multiply", ArithmeticCommand "multiply" float_mul);
           ("divide", ArithmeticCommand "divide" float_truediv);
           ("help", HelpCommand); ("exit", ExitCommand);
           ("quit", ExitCommand); ("menu", MenuCommand)]) as ->
    by (subst commands; injection Hbasic as <-; reflexivity).
  clear Hbasic.
  unfold CommandRegistry.get_command. generalize (Str.lower name) as k.
  intros k. cbn [Dict.get].
  repeat match goal with
         | |- context [String.eqb k ?b] => destruct (String.eqb k b)
         end.
  all: intros [= <-]; cbn [execute].
  all: try (unfold ArithmeticCommand.execute;
            destruct (negb (List.length args =? 2)%nat);
            [intros [= <-]; reflexivity|];
            unfold ArithmeticCommand.to_float;
            destruct (py_float env (nth 0 args "")); cbn;
            [|intros [= <-]; reflexivity];
            destruct (py_float env (nth 1 args "")); cbn;
            [|intros [= <-]; reflexivity];
            unfold float_add, float_sub, float_mul, float_truediv;
            try destruct (PrimFloat.eqb _ _); cbn;
            (discriminate || (intros [= <-]; reflexivity))).
  all: try (unfold ExitCommand.execute; discriminate).
  - destruct args as [|arg0 args']; cbn; [discriminate|].
    repeat match goal with
           | |- context [String.eqb ?a ?b] => destruct (String.eqb a b)
           end; discriminate.
Qed.

(** With no plugin candidate in the plugin directories, an input that
    raises nothing but [KeyboardInterrupt] and [EOFError], and an output
    that accepts what is printed, nothing that is typed makes the program
    fail: [main] returns 0. *)
Theorem calculator_without_plugins_exits_with_0 (env : Env)
  (inputs : list input_event) (w : World) :
  PluginManager.discover_plugins env (PluginManager.init env None) =
    Return [] ->
  Forall (fun event =>
            match event with
            | Line _ _ => True
            | InputRaises e =>
                is_KeyboardInterrupt e || is_EOFError e = true
            end) inputs ->
  fst (main env inputs w) = Return 0.
Proof.
  intros Hnone Hinputs.
  unfold main. cbv zeta. rewrite repl_init_spec.
  destruct (enhanced_registry_init_spec env w) as (basic & Hbasic & Hspec).
  destruct (EnhancedCommandRegistry.init env w) as [[registry|exc] w1]
    eqn:Hinit.
  2:{ exfalso. revert Hspec. unfold PluginManager.load_all_plugins. run.
      rewrite Hnone. discriminate. }
  destruct Hspec as (candidates & Hfound & _ & Hmanager & Hcommands & _).
  rewrite Hnone in Hfound. injection Hfound as <-.
  cbn in Hmanager. rewrite Hmanager in Hcommands. cbn in Hcommands.
  match goal with
  | |- context [REPLEngine.start env inputs (?e1, w1)] =>
      destruct (start_spec env inputs e1 w1)
        as (res & e' & w' & lines & entries & Hrun & _ & _ & _ & _ & _
            & Hend);
      rewrite Hrun
  end.
  destruct res as [[]|exc]; [reflexivity|]. exfalso.
  cbn [REPLEngine.command_registry] in Hend.
  destruct Hend as (Hki & Heof & [Hin|Hcommand]).
  - rewrite Forall_forall in Hinputs. apply Hinputs in Hin.
    rewrite Hki, Heof in Hin. discriminate Hin.
  - destruct Hcommand as (Hvalue & name & command & args & Hget & Hexec).
    rewrite Hcommands, Hmanager in *.
    rewrite (core_commands_raise_value_errors env basic name command args exc
               Hbasic Hget Hexec) in Hvalue.
    discriminate Hvalue.
Qed.

Lemma calculator_without_plugins_exits_with_0_example :
  fst (main (Fixture.file_env [])
         [Line "divide 1 0" "12:00"; Interrupt; Line "nonsense" "12:01"]
         Fixture.world0) = Return 0.
Proof.
  apply (calculator_without_plugins_exits_with_0 (Fixture.file_env [])).
  - reflexivity.
  - repeat constructor.
Defined.

(** ** The commands of the shipped plugins *)

Lemma to_float_raises (env : Env) (s : string) (e : exn) :
  ArithmeticCommand.to_float env s = Raise e -> is_ValueError e = true.
Proof.
  unfold ArithmeticCommand.to_float.
  destruct (py_float env s); [discriminate|]. now intros [= <-].
Qed.

Lemma result_map_length {A B : Type} (f : A -> result B) (l : list A)
  (l' : list B) :
  result_map f l = Return l' -> List.length l' = List.length l.
Proof.
  revert l'. induction l as [|x l IH]; intros l'; simpl.
  - now intros [= <-].
  - destruct (f x) as [y|e]; [|discriminate]. simpl.
    destruct (result_map f l) as [ys|e]; [|discriminate]. simpl.
    intros [= <-]. simpl. now rewrite (IH ys).
Qed.

Lemma result_map_raises (env : Env) (args : list string) (e : exn) :
  result_map (ArithmeticCommand.to_float env) args = Raise e ->
  is_ValueError e = true.
Proof.
  induction args as [|a args IH]; simpl; [discriminate|].
  destruct (ArithmeticCommand.to_float env a) as [x|e'] eqn:Ha; simpl.
  - destruct (result_map _ args) as [xs|e']; simpl; [discriminate|].
    intros [= <-]. now apply IH.
  - intros [= <-]. now apply to_float_raises in Ha.
Qed.

(** A scientific command either returns what its function returns on the
    parsed arguments, as many as it asks for, or raises. What it raises
    is a [ValueError] whose message names the required number of
    arguments or starts with [Invalid number format: ] or [Math error: ],
    unless the function itself raised something other than a
    [ValueError], an [OverflowError] or a [ZeroDivisionError], which goes
    through as it is. *)
Theorem scientific_command_outcomes (env : Env) (operation : string)
  (func : list float -> result value) (arg_count : nat)
  (args : list string) :
  match ScientificCommand.execute env operation func arg_count args with
  | Return v =>
      exists numbers,
        result_map (ArithmeticCommand.to_float env) args = Return numbers /\
        List.length numbers = arg_count /\
        func numbers = Return v
  | Raise exc =>
      (is_ValueError exc = true /\
       (List.length args <> arg_count /\
        exn_msg exc =
          operation ++ " requires exactly " ++ Str.of_nat arg_count
            ++ " argument(s)" \/
        List.length args = arg_count /\
        exists msg,
          exn_msg exc = "Invalid number format: " ++ msg \/
          exn_msg exc = "Math error: " ++ msg)) \/
      (exists numbers,
         List.length numbers = arg_count /\
         func numbers = Raise exc /\
         is_ValueError exc = false /\
         is_OverflowError exc = false /\
         is_ZeroDivisionError exc = false)
  end.
Proof.
  unfold ScientificCommand.execute.
  destruct (Nat.eqb_spec (List.length args) arg_count) as [Hlen|Hlen];
    cbn [negb]; [|left; split; [reflexivity|left; now split]].
  assert ((if (arg_count =? 1)%nat
           then (number <- ArithmeticCommand.to_float env (nth 0 args "") ;;
                 func [number])%res
           else (numbers <- result_map (ArithmeticCommand.to_float env) args ;;
                 func numbers)%res) =
          (numbers <- result_map (ArithmeticCommand.to_float env) args ;;
           func numbers)%res) as ->.
  { destruct (Nat.eqb_spec arg_count 1) as [->|_]; [|reflexivity].
    destruct args as [|a [|b args]]; try discriminate Hlen. simpl.
    now destruct (ArithmeticCommand.to_float env a). }
  destruct (result_map (ArithmeticCommand.to_float env) args)
    as [numbers|e] eqn:Hparse; cbn [result_bind].
  - pose proof (result_map_length _ _ _ Hparse) as Hnumbers.
    destruct (func numbers) as [v|e] eqn:Hfunc.
    + exists numbers. split; [reflexivity|]. split; [congruence|exact Hfunc].
    + destruct (is_ValueError e) eqn:Hvalue.
      * destruct (contains "could not convert" (exn_msg e)); left;
          (split; [reflexivity|]); right; (split; [exact Hlen|]);
          exists (exn_msg e); [now left | now right].
      * destruct (is_OverflowError e) eqn:Hover; cbn [orb].
        -- left. split; [reflexivity|]. right. split; [exact Hlen|].
           exists (exn_msg e). now right.
        -- destruct (is_ZeroDivisionError e) eqn:Hzero.
           ++ left. split; [reflexivity|]. right. split; [exact Hlen|].
              exists (exn_msg e). now right.
           ++ right. exists numbers. repeat split; congruence.
  - rewrite (result_map_raises env args e Hparse).
    destruct (contains "could not convert" (exn_msg e)); left;
      (split; [reflexivity|]); right; (split; [exact Hlen|]);
      exists (exn_msg e); [now left | now right].
Qed.

(** [sqrt] with one argument that [float] accepts: below zero a
    [ValueError] reading [Math error: math domain error], otherwise the
    square root. An argument [float] rejects is a [ValueError] too, and so
    is any number of arguments other than one. *)
Theorem sqrt_command_outcomes (env : Env) (commands : Dict.t Command)
  (m : PluginManager.t) (args : list string) :
  execute env commands m (SqrtCommand env) args =
  match args with
  | [a] =>
      match py_float env a with
      | inl x =>
          if PrimFloat.ltb x 0
          then Raise (Exn ValueError "Math error: math domain error")
          else Return (VFloat (PrimFloat.sqrt x))
      | inr msg =>
          Raise (Exn ValueError
                   ((if contains "could not convert" msg
                     then "Invalid number format: " else "Math error: ")
                      ++ msg))
      end
  | _ => Raise (Exn ValueError "sqrt requires exactly 1 argument(s)")
  end.
Proof.
  cbn [execute SqrtCommand ScientificCommand.command m_execute].
  unfold ScientificCommand.execute.
  destruct args as [|a [|b args]]; try reflexivity.
  cbn [List.length Nat.eqb negb nth]. unfold ArithmeticCommand.to_float.
  destruct (py_float env a) as [x|msg]; cbn.
  - unfold math_sqrt. now destruct (PrimFloat.ltb x 0).
  - now destruct (contains "could not convert" msg).
Qed.

(** A statistics command calls its function on the parsed arguments only
    when there are at least as many as it asks for and at least one, and
    returns the function's result. An exception of the function goes
    through as it is, with the library's own message and no prefix,
    except for a [ValueError] whose message contains [could not convert],
    which is replaced by [Invalid number format in arguments] like the
    one of a rejected argument. *)
Theorem statistics_command_outcomes (env : Env) (operation : string)
  (func : list float -> result float) (min_args : nat)
  (args : list string) :
  let reported (e : exn) :=
    if is_ValueError e && contains "could not convert" (exn_msg e)
    then Exn ValueError "Invalid number format in arguments"
    else e in
  match StatisticsCommand.execute env operation func min_args args with
  | Return v =>
      exists numbers r,
        result_map (ArithmeticCommand.to_float env) args = Return numbers /\
        numbers <> [] /\ min_args <= List.length numbers /\
        func numbers = Return r /\ v = VFloat r
  | Raise exc =>
      (List.length args < min_args /\
       exc =
         Exn ValueError
           (operation ++ " requires at least " ++ Str.of_nat min_args
              ++ " argument(s)")) \/
      (args = [] /\ min_args = 0 /\
       exc = Exn ValueError "No valid numbers provided") \/
      (min_args <= List.length args /\
       exists e,
         result_map (ArithmeticCommand.to_float env) args = Raise e /\
         exc = reported e) \/
      (min_args <= List.length args /\
       exists numbers e,
         result_map (ArithmeticCommand.to_float env) args = Return numbers /\
         numbers <> [] /\ func numbers = Raise e /\ exc = reported e)
  end.
Proof.
  intros reported. unfold StatisticsCommand.execute.
  destruct (Nat.ltb_spec (List.length args) min_args) as [Hfew|Henough].
  { left. now split. }
  destruct (result_map (ArithmeticCommand.to_float env) args)
    as [numbers|e] eqn:Hparse; cbn [result_bind].
  - pose proof (result_map_length _ _ _ Hparse) as Hnumbers.
    destruct numbers as [|x numbers]; cbn [List.length Nat.eqb].
    + right. left. destruct args; [|discriminate Hnumbers].
      cbn [List.length] in Henough. repeat split. lia.
    + destruct (func (x :: numbers)) as [r|e] eqn:Hfunc.
      * exists (x :: numbers), r. repeat split; congruence.
      * assert ((if is_ValueError e
                 then
                   if contains "could not convert" (exn_msg e)
                   then Raise (Exn ValueError
                                 "Invalid number format in arguments")
                   else Raise e
                 else Raise e) = @Raise value (reported e)) as ->.
        { subst reported. cbv beta.
          destruct (is_ValueError e); [|reflexivity].
          now destruct (contains "could not convert" (exn_msg e)). }
        right. right. right. split; [exact Henough|].
        exists (x :: numbers), e. repeat split; congruence.
  - assert ((if is_ValueError e
             then
               if contains "could not convert" (exn_msg e)
               then Raise (Exn ValueError "Invalid number format in arguments")
               else Raise e
             else Raise e) = @Raise value (reported e)) as ->.
    { subst reported. cbv beta.
      destruct (is_ValueError e); [|reflexivity].
      now destruct (contains "could not convert" (exn_msg e)). }
    right. right. left. split; [exact Henough|]. now exists e.
Qed.

(** [standard_deviation] with one number is refused by the command, before
    the library is asked; a failure of the library on two numbers reaches
    the caller with the library's message. *)
Example stdev_needs_two_numbers :
  let stdev :=
    StatisticsCommand.execute Fixture.test_env "standard_deviation"
      (fun _ => Raise (Exn ValueError "variance requires at least two data points"))
      2 in
  stdev ["1"] =
    Raise (Exn ValueError "standard_deviation requires at least 2 argument(s)")
  /\ stdev ["1"; "2"] =
    Raise (Exn ValueError "variance requires at least two data points")
  /\ stdev ["1"; "x"] =
    Raise (Exn ValueError "Invalid number format in arguments").
Proof. repeat split. Qed.

(** One load of a shipped plugin: it succeeds, and [plugin_commands]
    receives the plugin's commands under the names they report. *)
Lemma load_shipped_plugin (env : Env) (lib : Library)
  (plugin_name plugin_path : string) (m : PluginManager.t) (w : World)
  (plugin : Plugin.t) :
  plugin = ScientificPlugin env lib \/ plugin = StatisticsPlugin env lib ->
  plugin_of env (sys_path w) plugin_name plugin_path = Return plugin ->
  exists m' w' commands,
    PluginManager.load_plugin env plugin_name plugin_path (m, w) =
      (Return true, (m', w')) /\
    sys_path w' = sys_path w /\
    Plugin.get_commands plugin = Return commands /\
    PluginManager.plugin_commands m' =
      assign_all (registered commands) (PluginManager.plugin_commands m).
Proof.
  intros Hshipped Hplugin.
  rewrite load_plugin_run, load_plugin_body_nf, Hplugin.
  destruct Hshipped as [-> | ->]; cbn -[assign_all registered];
    do 3 eexists; repeat split; reflexivity.
Qed.

(** Loading the two shipped plugins one after the other, in either order
    and whatever the manager held, succeeds and makes each of the twelve
    commands the answer to its own name: the names are lower-cased, differ
    from one another across the two plugins, and none is a name of the
    core ([history] included, which the loop keeps for itself), so no
    shipped command shadows another or is out of reach. *)
Theorem shipped_commands_are_reachable (env : Env) (lib : Library)
  (name1 path1 name2 path2 : string) (m : PluginManager.t) (w : World)
  (first second : Plugin.t) :
  first = ScientificPlugin env lib /\ second = StatisticsPlugin env lib \/
  first = StatisticsPlugin env lib /\ second = ScientificPlugin env lib ->
  plugin_of env (sys_path w) name1 path1 = Return first ->
  plugin_of env (sys_path w) name2 path2 = Return second ->
  exists m1 w1 m2 w2,
    PluginManager.load_plugin env name1 path1 (m, w) =
      (Return true, (m1, w1)) /\
    PluginManager.load_plugin env name2 path2 (m1, w1) =
      (Return true, (m2, w2)) /\
    (forall c,
       In c [SqrtCommand env; PowerCommand env lib; LogCommand env lib;
             LnCommand env lib; SinCommand env lib; CosCommand env lib;
             TanCommand env lib; MeanCommand env lib; MedianCommand env lib;
             ModeCommand env lib; StdevCommand env lib;
             VarianceCommand env lib] ->
       exists k,
         get_name c = Return k /\
         Str.lower k = k /\
         CommandRegistry.get_command k (PluginManager.plugin_commands m2) =
           Some c /\
         ~ In k ["add"; "subtract"; "multiply"; "divide"; "help"; "history";
                 "exit"; "quit"; "menu"]).
Proof.
  intros Hshipped Hfirst Hsecond.
  destruct (load_shipped_plugin env lib name1 path1 m w first)
    as (m1 & w1 & commands1 & Hload1 & Hpath & Hcommands1 & Hm1);
    [tauto | exact Hfirst |].
  rewrite <- Hpath in Hsecond.
  destruct (load_shipped_plugin env lib name2 path2 m1 w1 second)
    as (m2 & w2 & commands2 & Hload2 & _ & Hcommands2 & Hm2);
    [tauto | exact Hsecond |].
  exists m1, w1, m2, w2.
  split; [exact Hload1|]. split; [exact Hload2|].
  rewrite Hm2, Hm1, <- assign_all_app.
  unfold CommandRegistry.get_command.
  destruct Hshipped as [[-> ->] | [-> ->]];
    cbn in Hcommands1, Hcommands2;
    injection Hcommands1 as <-; injection Hcommands2 as <-;
    intros c Hc; cbn [In] in Hc;
    repeat (destruct Hc as [<-|Hc]); try contradiction;
    eexists; (split; [reflexivity|]); (split; [reflexivity|]);
    (split;
     [rewrite get_assign_all; reflexivity
     | cbn [In]; intuition discriminate]).
Qed.

Lemma shipped_commands_are_reachable_example :
  let lib := Fixture.refusing_library in
  let env0 := Fixture.file_env [] in
  let env :=
    Fixture.file_env
      [("scientific_plugin",
        Return (Fixture.module_with "ScientificPlugin"
                  (ScientificPlugin env0 lib)));
       ("statistics_plugin",
        Return (Fixture.module_with "StatisticsPlugin"
                  (StatisticsPlugin env0 lib)))] in
  exists m1 w1 m2 w2,
    PluginManager.load_plugin env "scientific_plugin"
      "plugins/scientific_plugin.py" (Fixture.fresh env) =
      (Return true, (m1, w1)) /\
    PluginManager.load_plugin env "statistics_plugin"
      "plugins/statistics_plugin.py" (m1, w1) =
      (Return true, (m2, w2)) /\
    (forall c,
       In c [SqrtCommand env; PowerCommand env lib; LogCommand env lib;
             LnCommand env lib; SinCommand env lib; CosCommand env lib;
             TanCommand env lib; MeanCommand env lib; MedianCommand env lib;
             ModeCommand env lib; StdevCommand env lib;
             VarianceCommand env lib] ->
       exists k,
         get_name c = Return k /\
         Str.lower k = k /\
         CommandRegistry.get_command k (PluginManager.plugin_commands m2) =
           Some c /\
         ~ In k ["add"; "subtract"; "multiply"; "divide"; "help"; "history";
                 "exit"; "quit"; "menu"]).
Proof.
  intros lib env0 env.
  apply (shipped_commands_are_reachable env lib "scientific_plugin"
           "plugins/scientific_plugin.py" "statistics_plugin"
           "plugins/statistics_plugin.py" (fst (Fixture.fresh env))
           Fixture.world0 (ScientificPlugin env lib)
           (StatisticsPlugin env lib)).
  - left. split; reflexivity.
  - reflexivity.
  - reflexivity.
Defined.

(** ** [help] and [menu] *)

Lemma result_map_returns {A B : Type} (f : A -> result B) (l : list A) :
  (forall x, In x l -> exists y, f x = Return y) ->
  exists ys, result_map f l = Return ys.
Proof.
  induction l as [|x l IH]; intros Hall; simpl.
  - now exists [].
  - destruct (Hall x (or_introl eq_refl)) as (y & ->).
    destruct IH as (ys & ->); [intros x' Hx'; apply Hall; now right|].
    now exists (y :: ys).
Qed.

(** [help] and [menu] ask each command they list for its help text and
    nothing else: when [get_help] returns for every command of the
    registry and of the plugin manager, both return a text, with or
    without arguments. *)
Theorem help_and_menu_return (env : Env) (commands : Dict.t Command)
  (m : PluginManager.t) (args : list string) :
  (forall c, In c (Dict.values commands) -> exists h, get_help c = Return h) ->
  (forall c, In c (Dict.values (PluginManager.plugin_commands m)) ->
             exists h, get_help c = Return h) ->
  (exists text, execute env commands m HelpCommand args = Return (VStr text))
  /\
  (exists text, execute env commands m MenuCommand args = Return (VStr text)).
Proof.
  intros Hcommands Hplugins.
  assert (forall k c, Dict.get k commands = Some c ->
                      exists h, get_help c = Return h) as Hget.
  { intros k c Hk. apply Hcommands. apply get_some_in in Hk.
    unfold Dict.values. now apply (in_map snd) in Hk. }
  split; cbn [execute].
  - unfold HelpCommand.execute. destruct args as [|arg0 _].
    + destruct (result_map_returns
                  (fun command =>
                     result_bind (get_help command)
                       (fun h => Return ("  " ++ h)))
                  (Dict.values commands)) as (lines & ->).
      { intros c Hc. destruct (Hcommands c Hc) as (h & ->). now eexists. }
      now eexists.
    + destruct (Dict.get (Str.lower arg0) commands) as [c|] eqn:Hk;
        [|now eexists].
      destruct (Hget _ _ Hk) as (h & ->). now eexists.
  - unfold MenuCommand.execute.
    destruct (result_map_returns (MenuCommand.core_line commands)
                ["add"; "subtract"; "multiply"; "divide"; "help"; "history";
                 "exit"; "quit"]) as (core & ->).
    { intros k _. unfold MenuCommand.core_line.
      destruct (Dict.get k commands) as [c|] eqn:Hk; [|now eexists].
      destruct (Hget _ _ Hk) as (h & ->). now eexists. }
    cbn [result_bind]. unfold PluginManager.get_plugin_info.
    destruct (PluginManager.plugin_info m) as [|item items] eqn:Hinfo;
      [now eexists|].
    destruct (result_map_returns (MenuCommand.plugin_lines m)
                (Dict.items (item :: items))) as (per_plugin & ->).
    { intros item' _. unfold MenuCommand.plugin_lines,
        MenuCommand.plugin_command_lines.
      destruct (result_map_returns
                  (fun item0 : string * Command =>
                     result_bind (get_help (snd item0))
                       (fun h =>
                          Return ("     " ++ MenuCommand.bullet ++ " " ++ h)))
                  (Dict.items (PluginManager.get_plugin_commands m)))
        as (lines & ->).
      { intros [k c] Hkc. cbn [snd].
        destruct (Hplugins c) as (h & ->); [|now eexists].
        unfold Dict.values. now apply (in_map snd) in Hkc. }
      now eexists. }
    now eexists.
Qed.

Lemma help_and_menu_return_example :
  let env := Fixture.test_env in
  let commands := [("help", HelpCommand); ("test", Fixture.TestCommand)] in
  let m := fst (Fixture.fresh env) in
  (exists text,
      execute env commands m HelpCommand ["TEST"] = Return (VStr text)) /\
  (exists text,
      execute env commands m MenuCommand ["TEST"] = Return (VStr text)).
Proof.
  intros env commands m.
  apply (help_and_menu_return env commands m ["TEST"]); cbn;
    intros c Hc; repeat (destruct Hc as [<-|Hc]); try contradiction;
    now eexists.
Defined.

(** ** The summary line of the startup *)

Lemma len_distinct (results : Dict.t bool) (names : list string) :
  Dict.wf results ->
  (forall n, Dict.mem n results = true <-> In n names) ->
  Dict.len results = List.length (nodup string_dec names).
Proof.
  intros Hwf Hmem. unfold Dict.len.
  rewrite <- (length_map fst results). fold (Dict.keys results).
  apply Nat.le_antisymm; apply NoDup_incl_length.
  - exact Hwf.
  - intros k Hk. apply nodup_In, Hmem, mem_keys, Hk.
  - apply NoDup_nodup.
  - intros k Hk. apply mem_keys, Hmem. now apply nodup_In in Hk.
Qed.

(** What the startup prints after the loads: nothing when no candidate
    was found, and otherwise one line,
    [Plugin system initialized: k/n plugins loaded], where [n] is the
    number of different candidate names, not of candidates (a file and a
    package of the same name count once), and [k] is at most [n]. The
    startup fails to get there only when [load_all_plugins] raises, and
    then raises the same. *)
Theorem startup_summary_counts_names (env : Env) (w : World) :
  match EnhancedCommandRegistry.init env w with
  | (Return _, w') =>
      exists candidates k,
        PluginManager.discover_plugins env (PluginManager.init env None) =
          Return candidates /\
        let after_loads :=
          snd (snd (load_sequence env candidates
                      (PluginManager.init env None, w))) in
        let n := List.length (nodup string_dec (map fst candidates)) in
        k <= n /\
        w' =
          if (0 <? n)%nat
          then world_print
                 ("Plugin system initialized: " ++ Str.of_nat k ++ "/"
                    ++ Str.of_nat n ++ " plugins loaded") after_loads
          else after_loads
  | (Raise e, _) =>
      fst (PluginManager.load_all_plugins env
             (PluginManager.init env None, w)) = Raise e
  end.
Proof.
  destruct (enhanced_registry_init_spec env w) as (basic & _ & Hspec).
  destruct (EnhancedCommandRegistry.init env w) as [[r|e] w'];
    [|exact Hspec].
  destruct Hspec as (candidates & Hfound & Hall & _ & _ & Hworld).
  set (run := load_sequence env candidates (PluginManager.init env None, w))
    in *.
  set (results :=
         assign_all (returned (map fst candidates) (fst run))
           (@Dict.empty bool)) in *.
  assert (Dict.len results =
          List.length (nodup string_dec (map fst candidates))) as Hlen.
  { apply len_distinct.
    - apply wf_assign_all. constructor.
    - intros n. unfold results. rewrite mem_assign_all.
      rewrite returned_names;
        [|exact Hall
         |unfold run; rewrite load_sequence_length; now rewrite length_map].
      split; [intros [H|H]; [discriminate H | exact H] | now right]. }
  exists candidates,
    (List.length
       (filter (fun success : bool => success) (Dict.values results))).
  split; [exact Hfound|]. cbv zeta. fold run. rewrite <- Hlen. split.
  - unfold Dict.len, Dict.values.
    rewrite <- (length_map snd results). apply filter_length_le.
  - exact Hworld.
Qed.

Example summary_of_two_plugins :
  let env := Fixture.shared_name_env in
  last (stdout (snd (EnhancedCommandRegistry.init env Fixture.world0))) "" =
    "Plugin system initialized: 2/2 plugins loaded".
Proof. reflexivity. Qed.
